(** * codex-runner-service: the Slack -> GitHub sync engine and its run coordinator

    A shallow embedding of [app/slack_sync.py], of the single-flight guard
    and the health check of [app/main.py] and of the settings of
    [app/config.py], with the properties of the cursor store, the message
    source, the issue formatter, the sync pass and the coordinator.

    Conventions of the model.
    - A Python [str] is a list of Unicode code points ([pystr]).
    - A Python [float] is an IEEE 754 binary64 value, a [spec_float] of the
      standard library with precision 53 and maximal exponent 1024.
    - A value of type [Any] that came out of [json.loads] is a [json] value.
    - A raised exception is the [Raise] case of [result]; exceptions are
      named after the Python class that is raised.
    - Interpreter resource limits (recursion depth, the digit limit of
      [int], memory) are outside the model. *)

From Stdlib Require Import ZArith NArith List Bool Lia String Ascii.
From Stdlib Require Import SpecFloat DecimalPos Permutation Sorted.
Import ListNotations.

Set Implicit Arguments.
Set Warnings "-register-all".

(* ================================================================== *)
(** * Results and exceptions *)

Inductive exn : Type :=
| AttributeError | TypeError | ValueError | IndexError | OverflowError
| OSError | JSONDecodeError | UnicodeEncodeError | RuntimeError
| URLError.

Inductive result (A : Type) : Type :=
| Ok (a : A)
| Raise (e : exn).

Arguments Ok {A} a.
Arguments Raise {A} e.

Definition bind {A B : Type} (r : result A) (k : A -> result B) : result B :=
  match r with
  | Ok a => k a
  | Raise e => Raise e
  end.

Declare Scope py_scope.
Delimit Scope py_scope with py.
Notation "x <- c ;; k" := (bind c (fun x => k))
  (at level 61, c at next level, right associativity) : py_scope.
Notation "' p <- c ;; k" := (bind c (fun p => k))
  (at level 61, p pattern, c at next level, right associativity) : py_scope.
Open Scope py_scope.

Definition is_ok {A : Type} (r : result A) : bool :=
  match r with Ok _ => true | Raise _ => false end.

(* ================================================================== *)
(** * Python strings *)

Module PyStr.

Definition pystr : Type := list N.

(** An ASCII literal as a Python string. *)
Definition lit (s : string) : pystr :=
  List.map N_of_ascii (list_ascii_of_string s).

(** The same, with every apostrophe read as a double quote: used to write
    JSON texts. *)
Definition jlit (s : string) : pystr :=
  List.map (fun c => if N.eqb c 39 then 34%N else c) (lit s).

Fixpoint eqb (a b : pystr) : bool :=
  match a, b with
  | [], [] => true
  | x :: a', y :: b' => N.eqb x y && eqb a' b'
  | _, _ => false
  end.

(** [str.isspace] on one code point. *)
Definition isspace (c : N) : bool :=
  ((9 <=? c) && (c <=? 13) || (28 <=? c) && (c <=? 32)
   || (c =? 133) || (c =? 160) || (c =? 5760)
   || (8192 <=? c) && (c <=? 8202)
   || (c =? 8232) || (c =? 8233) || (c =? 8239) || (c =? 8287)
   || (c =? 12288))%N.

Fixpoint lstrip (s : pystr) : pystr :=
  match s with
  | [] => []
  | c :: r => if isspace c then lstrip r else s
  end.

Definition rstrip (s : pystr) : pystr := rev (lstrip (rev s)).

(** [s.strip()] *)
Definition strip (s : pystr) : pystr := rstrip (lstrip s).

(** The line boundaries of [str.splitlines] other than CR. *)
Definition islinebreak (c : N) : bool :=
  ((c =? 10) || (c =? 11) || (c =? 12) || (c =? 28) || (c =? 29)
   || (c =? 30) || (c =? 133) || (c =? 8232) || (c =? 8233))%N.

(** [s.splitlines()]; [cur] is the current line, reversed. *)
Fixpoint splitlines_from (cur : pystr) (s : pystr) : list pystr :=
  match s with
  | [] => match cur with [] => [] | _ => [rev cur] end
  | c :: r =>
      if (c =? 13)%N then
        match r with
        | c' :: r' =>
            if (c' =? 10)%N then rev cur :: splitlines_from [] r'
            else rev cur :: splitlines_from [] r
        | [] => rev cur :: splitlines_from [] r
        end
      else if islinebreak c then rev cur :: splitlines_from [] r
      else splitlines_from (c :: cur) r
  end.

Definition splitlines (s : pystr) : list pystr := splitlines_from [] s.

(** [s.startswith(p)] *)
Fixpoint startswith (s p : pystr) : bool :=
  match p, s with
  | [], _ => true
  | x :: p', y :: s' => N.eqb x y && startswith s' p'
  | _ :: _, [] => false
  end.

(** [s[:n]] *)
Definition slice_to (n : nat) (s : pystr) : pystr := firstn n s.

(** ASCII lower case of one code point. *)
Definition lower (c : N) : N :=
  if ((65 <=? c) && (c <=? 90))%N then (c + 32)%N else c.

Definition isdigit (c : N) : bool := ((48 <=? c) && (c <=? 57))%N.

(** The decimal digits of a natural number, as [str(n)] writes them. *)
Fixpoint of_uint (u : Decimal.uint) : pystr :=
  match u with
  | Decimal.Nil => []
  | Decimal.D0 r => 48%N :: of_uint r
  | Decimal.D1 r => 49%N :: of_uint r
  | Decimal.D2 r => 50%N :: of_uint r
  | Decimal.D3 r => 51%N :: of_uint r
  | Decimal.D4 r => 52%N :: of_uint r
  | Decimal.D5 r => 53%N :: of_uint r
  | Decimal.D6 r => 54%N :: of_uint r
  | Decimal.D7 r => 55%N :: of_uint r
  | Decimal.D8 r => 56%N :: of_uint r
  | Decimal.D9 r => 57%N :: of_uint r
  end.

Definition of_N (n : N) : pystr := of_uint (N.to_uint n).

End PyStr.

Import PyStr.

(* ================================================================== *)
(** * Python floats: IEEE 754 binary64 *)

Module PyFloat.

Definition float : Type := spec_float.

Definition prec : Z := 53.
Definition emax : Z := 1024.

Definition nan : float := S754_nan.
Definition inf (neg : bool) : float := S754_infinity neg.

Definition is_nan (x : float) : bool :=
  match x with S754_nan => true | _ => false end.

Definition is_finite (x : float) : bool :=
  match x with S754_zero _ | S754_finite _ _ _ => true | _ => false end.

(** [a < b], [a > b], [a <= b], [a >= b] on floats. *)
Definition ltb (a b : float) : bool := SFltb a b.
Definition gtb (a b : float) : bool := SFltb b a.
Definition leb (a b : float) : bool := SFleb a b.
Definition geb (a b : float) : bool := SFleb b a.

(** [max(a, b)]: the first argument is kept unless the second is greater. *)
Definition max (a b : float) : float := if gtb b a then b else a.

(** The float nearest to an integer. *)
Definition of_Z (z : Z) : float := binary_normalize prec emax z 0 false.

(** [float(n)] for an [int]. *)
Definition of_int (z : Z) : result float :=
  match of_Z z with
  | S754_infinity _ => Raise OverflowError
  | f => Ok f
  end.

(** The float nearest to [(-1)^neg * d * 10^e10]. *)
Definition of_decimal (neg : bool) (d : N) (e10 : Z) : float :=
  match d with
  | N0 => S754_zero neg
  | Npos p =>
      if (0 <=? e10)%Z
      then binary_round prec emax neg (p * Z.to_pos (10 ^ e10))%positive 0
      else SFdiv prec emax (S754_finite neg p 0)
                 (S754_finite false (Z.to_pos (10 ^ (- e10))) 0)
  end.

(** First code points of the runs of ten decimal digits of Unicode 14.0
    beyond ASCII. *)
Definition decimal_runs : list N :=
  [1632; 1776; 1984; 2406; 2534; 2662; 2790; 2918; 3046; 3174; 3302; 3430;
   3558; 3664; 3792; 3872; 4160; 4240; 6112; 6160; 6470; 6608; 6784; 6800;
   6992; 7088; 7232; 7248; 42528; 43216; 43264; 43472; 43504; 43600; 44016;
   65296; 66720; 68912; 69734; 69872; 69942; 70096; 70384; 70736; 70864;
   71248; 71360; 71472; 71904; 72016; 72784; 73040; 73120; 92768; 92864;
   93008; 120782; 120792; 120802; 120812; 120822; 123200; 123632; 125264;
   130032]%N.

Fixpoint decimal_in (runs : list N) (c : N) : option N :=
  match runs with
  | [] => None
  | s :: r => if ((s <=? c) && (c <=? s + 9))%N then Some (c - s)%N
              else decimal_in r c
  end.

(** What [float] does to one code point before parsing: ASCII is kept,
    other white space becomes a blank, other decimal digits become ASCII
    digits, anything else becomes a question mark. *)
Definition to_ascii (c : N) : N :=
  if (c <? 128)%N then c
  else if isspace c then 32%N
  else match decimal_in decimal_runs c with
       | Some d => (48 + d)%N
       | None => 63%N
       end.

(** ASCII white space as C's [isspace] has it. *)
Definition c_isspace (c : N) : bool :=
  ((9 <=? c) && (c <=? 13) || (c =? 32))%N.

Fixpoint c_lstrip (s : pystr) : pystr :=
  match s with
  | [] => []
  | c :: r => if c_isspace c then c_lstrip r else s
  end.

Definition c_strip (s : pystr) : pystr := rev (c_lstrip (rev (c_lstrip s))).

(** Underscores of a numeral are dropped; each must stand between two
    digits. [prev] is the code point before [s]. *)
Fixpoint drop_underscores (prev : N) (s : pystr) : option pystr :=
  match s with
  | [] => if (prev =? 95)%N then None else Some []
  | c :: r =>
      if (c =? 95)%N then
        if isdigit prev then drop_underscores c r else None
      else if (prev =? 95)%N && negb (isdigit c) then None
      else option_map (cons c) (drop_underscores c r)
  end.

Fixpoint digits_val (acc : N) (ds : pystr) : N :=
  match ds with
  | [] => acc
  | c :: r => digits_val (10 * acc + (c - 48))%N r
  end.

(** The longest prefix of digits, and what follows it. *)
Fixpoint span_digits (s : pystr) : pystr * pystr :=
  match s with
  | c :: r => if isdigit c
              then let '(d, t) := span_digits r in (c :: d, t)
              else ([], s)
  | [] => ([], [])
  end.

Definition take_sign (s : pystr) : bool * pystr :=
  match s with
  | 45%N :: r => (true, r)
  | 43%N :: r => (false, r)
  | _ => (false, s)
  end.

(** An unsigned numeral: [inf], [infinity], [nan], or decimal digits with
    an optional fraction and an optional exponent. *)
Definition parse_unsigned (neg : bool) (t : pystr) : result float :=
  let lt := List.map lower t in
  if PyStr.eqb lt (lit "inf") || PyStr.eqb lt (lit "infinity") then Ok (inf neg)
  else if PyStr.eqb lt (lit "nan") then Ok nan
  else
    let '(ip, r1) := span_digits t in
    let '(fp, r2) := match r1 with
                     | 46%N :: r => span_digits r
                     | _ => ([], r1)
                     end in
    match ip ++ fp with
    | [] => Raise ValueError
    | ds =>
        let d := digits_val 0 ds in
        let k := Z.of_nat (List.length fp) in
        match r2 with
        | [] => Ok (of_decimal neg d (- k))
        | c :: r3 =>
            if (lower c =? 101)%N then
              let '(eneg, r4) := take_sign r3 in
              let '(ep, r5) := span_digits r4 in
              match ep, r5 with
              | _ :: _, [] =>
                  let e := Z.of_N (digits_val 0 ep) in
                  Ok (of_decimal neg d ((if eneg then - e else e) - k))
              | _, _ => Raise ValueError
              end
            else Raise ValueError
        end
    end.

(** [float(s)] for a [str]. *)
Definition of_str (s : pystr) : result float :=
  match drop_underscores 0 (c_strip (List.map to_ascii s)) with
  | None => Raise ValueError
  | Some u => let '(neg, t) := take_sign u in parse_unsigned neg t
  end.

(** The integer nearest to [m * 2^e * 10^6], ties to even. *)
Definition scaled6 (m : positive) (e : Z) : Z :=
  let n := (Zpos m * 1000000)%Z in
  if (0 <=? e)%Z then (n * 2 ^ e)%Z
  else
    let d := (2 ^ (- e))%Z in
    let q := (n / d)%Z in
    let r := (n mod d)%Z in
    match (2 * r ?= d)%Z with
    | Lt => q
    | Gt => (q + 1)%Z
    | Eq => if Z.even q then q else (q + 1)%Z
    end.

Definition sign_str (neg : bool) : pystr := if neg then [45%N] else [].

(** The six digits of a number below one million. *)
Definition six_digits (n : N) : pystr :=
  [48 + n / 100000 mod 10; 48 + n / 10000 mod 10; 48 + n / 1000 mod 10;
   48 + n / 100 mod 10; 48 + n / 10 mod 10; 48 + n mod 10]%N.

(** ["%.6f" % x], also [f"{x:.6f}"]. *)
Definition fmt6 (x : float) : pystr :=
  match x with
  | S754_nan => lit "nan"
  | S754_infinity s => sign_str s ++ lit "inf"
  | S754_zero s => sign_str s ++ lit "0.000000"
  | S754_finite s m e =>
      let n := Z.to_N (scaled6 m e) in
      sign_str s ++ of_N (n / 1000000) ++ [46%N] ++ six_digits (n mod 1000000)
  end.

(** The greatest integer not above a finite float. *)
Definition floor (x : float) : option Z :=
  match x with
  | S754_zero _ => Some 0%Z
  | S754_finite s m e =>
      let v := if s then Zneg m else Zpos m in
      Some (if (0 <=? e)%Z then v * 2 ^ e else v / 2 ^ (- e))%Z
  | _ => None
  end.

(** Truth value of a float: zero is false, everything else is true. *)
Definition truthy (x : float) : bool :=
  match x with S754_zero _ => false | _ => true end.

End PyFloat.


(* ================================================================== *)
(** * Values of type [Any]: what [json.loads] produces *)

Module Json.

Import PyFloat.

Inductive json : Type :=
| JNull
| JBool (b : bool)
| JInt (z : Z)
| JFloat (f : float)
| JStr (s : pystr)
| JList (l : list json)
| JDict (d : list (pystr * json)).

(** A [dict] with [str] keys, in insertion order. *)
Definition dict : Type := list (pystr * json).

Fixpoint lookup (d : dict) (k : pystr) : option json :=
  match d with
  | [] => None
  | (k', v) :: r => if PyStr.eqb k' k then Some v else lookup r k
  end.

(** [d.get(k)] and [d.get(k, default)] *)
Definition get (d : dict) (k : pystr) : json :=
  match lookup d k with Some v => v | None => JNull end.

Definition get_default (d : dict) (k : pystr) (default : json) : json :=
  match lookup d k with Some v => v | None => default end.

(** [d[k] = v]: an existing key keeps its place. *)
Fixpoint set (d : dict) (k : pystr) (v : json) : dict :=
  match d with
  | [] => [(k, v)]
  | (k', v') :: r => if PyStr.eqb k' k then (k', v) :: r
                     else (k', v') :: set r k v
  end.

(** Truth value, as [if v:] tests it. *)
Definition truthy (v : json) : bool :=
  match v with
  | JNull => false
  | JBool b => b
  | JInt z => negb (z =? 0)%Z
  | JFloat f => PyFloat.truthy f
  | JStr s => match s with [] => false | _ => true end
  | JList l => match l with [] => false | _ => true end
  | JDict d => match d with [] => false | _ => true end
  end.

(** [float(v)] *)
Definition to_float (v : json) : result float :=
  match v with
  | JStr s => PyFloat.of_str s
  | JInt z => PyFloat.of_int z
  | JFloat f => Ok f
  | JBool b => Ok (PyFloat.of_Z (if b then 1 else 0))
  | JNull | JList _ | JDict _ => Raise TypeError
  end.

(** [v.get(k, default)] on a value that need not be a [dict]. *)
Definition any_get (v : json) (k : pystr) (default : json) : result json :=
  match v with
  | JDict d => Ok (get_default d k default)
  | _ => Raise AttributeError
  end.

(** [v.strip()] on a value that need not be a [str]. *)
Definition any_strip (v : json) : result pystr :=
  match v with
  | JStr s => Ok (strip s)
  | _ => Raise AttributeError
  end.

(** [list.extend(v)]: the items that iterating [v] yields. *)
Definition iterate (v : json) : result (list json) :=
  match v with
  | JList l => Ok l
  | JStr s => Ok (List.map (fun c => JStr [c]) s)
  | JDict d => Ok (List.map (fun kv => JStr (fst kv)) d)
  | JNull | JBool _ | JInt _ | JFloat _ => Raise TypeError
  end.

End Json.

Import Json.

(* ================================================================== *)
(** * JSON text: [json.dumps] and [json.loads] *)

Module JsonText.

Import PyFloat.

Definition quote : N := 34.
Definition backslash : N := 92.

Definition hex_digit (n : N) : N :=
  if (n <? 10)%N then (48 + n)%N else (87 + n)%N.

(** The escape of one code point by [json.dumps(..., ensure_ascii=False)]. *)
Definition escape_char (c : N) : pystr :=
  if (c =? 34)%N then [92; 34]%N
  else if (c =? 92)%N then [92; 92]%N
  else if (c =? 10)%N then [92; 110]%N
  else if (c =? 13)%N then [92; 114]%N
  else if (c =? 9)%N then [92; 116]%N
  else if (c =? 8)%N then [92; 98]%N
  else if (c =? 12)%N then [92; 102]%N
  else if (c <? 32)%N then
    [92; 117; 48; 48; hex_digit (c / 16); hex_digit (c mod 16)]%N
  else [c].

Definition encode_basestring (s : pystr) : pystr :=
  quote :: flat_map escape_char s ++ [quote].

(** One item of a dict at indent level one. *)
Definition dump_item (kv : pystr * pystr) : pystr :=
  encode_basestring (fst kv) ++ lit ": " ++ encode_basestring (snd kv).

Fixpoint join (sep : pystr) (l : list pystr) : pystr :=
  match l with
  | [] => []
  | [x] => x
  | x :: r => x ++ sep ++ join sep r
  end.

(** [json.dumps(d, ensure_ascii=False, indent=2)] for a dict of strings. *)
Definition dumps (d : list (pystr * pystr)) : pystr :=
  match d with
  | [] => lit "{}"
  | _ => [123; 10; 32; 32]%N
         ++ join [44; 10; 32; 32]%N (List.map dump_item d)
         ++ [10; 125]%N
  end.

Definition is_ws (c : N) : bool :=
  ((c =? 32) || (c =? 9) || (c =? 10) || (c =? 13))%N.

Fixpoint skip_ws (s : pystr) : pystr :=
  match s with
  | c :: r => if is_ws c then skip_ws r else s
  | [] => []
  end.

Definition hex_val (c : N) : option N :=
  if ((48 <=? c) && (c <=? 57))%N then Some (c - 48)%N
  else if ((97 <=? c) && (c <=? 102))%N then Some (c - 87)%N
  else if ((65 <=? c) && (c <=? 70))%N then Some (c - 55)%N
  else None.

Definition hex4 (a b c d : N) : option N :=
  match hex_val a, hex_val b, hex_val c, hex_val d with
  | Some x, Some y, Some z, Some w => Some (((x * 16 + y) * 16 + z) * 16 + w)%N
  | _, _, _, _ => None
  end.

Definition unescape (c : N) : option N :=
  if (c =? 34)%N then Some 34%N
  else if (c =? 92)%N then Some 92%N
  else if (c =? 47)%N then Some 47%N
  else if (c =? 98)%N then Some 8%N
  else if (c =? 102)%N then Some 12%N
  else if (c =? 110)%N then Some 10%N
  else if (c =? 114)%N then Some 13%N
  else if (c =? 116)%N then Some 9%N
  else None.

Definition is_high_surrogate (c : N) : bool := ((55296 <=? c) && (c <=? 56319))%N.
Definition is_low_surrogate (c : N) : bool := ((56320 <=? c) && (c <=? 57343))%N.

(** The low surrogate escape that directly follows, if there is one. *)
Definition low_escape (s : pystr) : option (N * pystr) :=
  match s with
  | 92%N :: 117%N :: a :: b :: c :: d :: r =>
      match hex4 a b c d with
      | Some u => if is_low_surrogate u then Some (u, r) else None
      | None => None
      end
  | _ => None
  end.

(** The body of a string after its opening quote, up to the closing one
    (strict mode); [acc] is what was read, reversed. *)
Fixpoint scanstring (acc : pystr) (s : pystr) : option (pystr * pystr) :=
  match s with
  | [] => None
  | c :: r =>
      if (c =? 34)%N then Some (rev acc, r)
      else if (c =? 92)%N then
        match r with
        | [] => None
        | e :: r1 =>
            if (e =? 117)%N then
              match r1 with
              | h1 :: h2 :: h3 :: h4 :: r2 =>
                  match hex4 h1 h2 h3 h4 with
                  | None => None
                  | Some u =>
                      if is_high_surrogate u then
                        match r2 with
                        | 92%N :: 117%N :: a :: b :: c' :: d :: r3 =>
                            match hex4 a b c' d with
                            | Some v =>
                                if is_low_surrogate v
                                then scanstring
                                       ((65536 + (u - 55296) * 1024 + (v - 56320))%N :: acc) r3
                                else scanstring (u :: acc) r2
                            | None => None
                            end
                        | _ => scanstring (u :: acc) r2
                        end
                      else scanstring (u :: acc) r2
                  end
              | _ => None
              end
            else
              match unescape e with
              | Some ch => scanstring (ch :: acc) r1
              | None => None
              end
        end
      else if (c <? 32)%N then None
      else scanstring (c :: acc) r
  end.

(** A number: an optional minus, then a single zero or a run of digits not
    starting with zero, then an optional fraction (a dot and digits), then
    an optional exponent (e or E, an optional sign, digits). *)
Definition scan_number (s : pystr) : option (json * pystr) :=
  let '(neg, s1) := match s with
                    | 45%N :: r => (true, r)
                    | _ => (false, s)
                    end in
  let '(ip, s2) := match s1 with
                   | 48%N :: r => ([48%N], r)
                   | _ => span_digits s1
                   end in
  match ip with
  | [] => None
  | _ =>
      let '(fp, s3) := match s2 with
                       | 46%N :: r =>
                           match span_digits r with
                           | ([], _) => ([], s2)
                           | (d, t) => (d, t)
                           end
                       | _ => ([], s2)
                       end in
      let '(ex, s4) :=
        match s3 with
        | c :: r =>
            if (lower c =? 101)%N then
              let '(eneg, r1) := take_sign r in
              match span_digits r1 with
              | ([], _) => (None, s3)
              | (d, t) =>
                  let e := Z.of_N (digits_val 0 d) in
                  (Some (if eneg then (- e)%Z else e), t)
              end
            else (None, s3)
        | [] => (None, s3)
        end in
      match fp, ex with
      | [], None =>
          let n := Z.of_N (digits_val 0 ip) in
          Some (JInt (if neg then (- n)%Z else n), s4)
      | _, _ =>
          let e := match ex with Some e => e | None => 0%Z end in
          Some (JFloat (of_decimal neg (digits_val 0 (ip ++ fp))
                          (e - Z.of_nat (List.length fp))), s4)
      end
  end.

(** A fixed word at the head of the text. *)
Definition word (w : string) (v : json) (s : pystr) : option (json * pystr) :=
  if startswith s (lit w)
  then Some (v, skipn (List.length (lit w)) s)
  else None.

(** One value at the head of the text. [fuel] bounds the number of values,
    members and elements that are read; the length of the text is enough. *)
Fixpoint scan_once (fuel : nat) (s : pystr) : option (json * pystr) :=
  match fuel with
  | O => None
  | S fuel' =>
      match s with
      | [] => None
      | c :: r =>
          if (c =? 34)%N then
            match scanstring [] r with
            | Some (t, r') => Some (JStr t, r')
            | None => None
            end
          else if (c =? 123)%N then
            match skip_ws r with
            | 125%N :: r' => Some (JDict [], r')
            | r' => scan_members fuel' [] r'
            end
          else if (c =? 91)%N then
            match skip_ws r with
            | 93%N :: r' => Some (JList [], r')
            | r' => scan_elements fuel' [] r'
            end
          else if (c =? 110)%N then word "null" JNull s
          else if (c =? 116)%N then word "true" (JBool true) s
          else if (c =? 102)%N then word "false" (JBool false) s
          else if (c =? 78)%N then word "NaN" (JFloat nan) s
          else if (c =? 73)%N then word "Infinity" (JFloat (inf false)) s
          else if startswith s (lit "-Infinity")
          then word "-Infinity" (JFloat (inf true)) s
          else scan_number s
      end
  end

(** The members of an object from the first key on; [acc] holds the
    members read so far. *)
with scan_members (fuel : nat) (acc : dict) (s : pystr) : option (json * pystr) :=
  match fuel with
  | O => None
  | S fuel' =>
      match s with
      | 34%N :: r =>
          match scanstring [] r with
          | None => None
          | Some (k, r1) =>
              match skip_ws r1 with
              | 58%N :: r2 =>
                  match scan_once fuel' (skip_ws r2) with
                  | None => None
                  | Some (v, r3) =>
                      match skip_ws r3 with
                      | 125%N :: r4 => Some (JDict (Json.set acc k v), r4)
                      | 44%N :: r4 =>
                          scan_members fuel' (Json.set acc k v) (skip_ws r4)
                      | _ => None
                      end
                  end
              | _ => None
              end
          end
      | _ => None
      end
  end

(** The elements of an array from the first one on; [acc] holds the
    elements read so far, reversed. *)
with scan_elements (fuel : nat) (acc : list json) (s : pystr) : option (json * pystr) :=
  match fuel with
  | O => None
  | S fuel' =>
      match scan_once fuel' s with
      | None => None
      | Some (v, r1) =>
          match skip_ws r1 with
          | 93%N :: r2 => Some (JList (rev (v :: acc)), r2)
          | 44%N :: r2 => scan_elements fuel' (v :: acc) (skip_ws r2)
          | _ => None
          end
      end
  end.

(** [json.loads(s)] for a [str]. *)
Definition loads (s : pystr) : result json :=
  match s with
  | 65279%N :: _ => Raise JSONDecodeError
  | _ =>
      match scan_once (S (List.length s)) (skip_ws s) with
      | Some (v, r) =>
          match skip_ws r with
          | [] => Ok v
          | _ :: _ => Raise JSONDecodeError
          end
      | None => Raise JSONDecodeError
      end
  end.

End JsonText.

(* ================================================================== *)
(** * The file system, as [pathlib] sees it *)

Module FS.

(** An absolute path: its components below the root. *)
Definition path : Type := list pystr.

(** A file holds text: [write_text] and [read_text] use the same encoding,
    UTF-8, which is a bijection on the texts it can encode. *)
Inductive node : Type :=
| File (text : pystr)
| Dir.

Definition t : Type := path -> option node.

Fixpoint path_eqb (p q : path) : bool :=
  match p, q with
  | [], [] => true
  | a :: p', b :: q' => PyStr.eqb a b && path_eqb p' q'
  | _, _ => false
  end.

Definition empty : t := fun _ => None.

(** The root is a directory. *)
Definition lookup (fs : t) (p : path) : option node :=
  match p with
  | [] => Some Dir
  | _ => fs p
  end.

Definition update (fs : t) (p : path) (n : node) : t :=
  fun q => if path_eqb q p then Some n else fs q.

(** [p.parent] *)
Definition parent (p : path) : path := removelast p.

(** [p.exists()] *)
Definition exists_ (fs : t) (p : path) : bool :=
  match lookup fs p with Some _ => true | None => false end.

(** Universal newlines on reading: CR LF and CR become LF. *)
Fixpoint translate_newlines (s : pystr) : pystr :=
  match s with
  | [] => []
  | c :: r =>
      if (c =? 13)%N then
        match r with
        | c' :: r' => if (c' =? 10)%N then 10%N :: translate_newlines r'
                      else 10%N :: translate_newlines r
        | [] => [10%N]
        end
      else c :: translate_newlines r
  end.

(** [p.read_text(encoding="utf-8")] *)
Definition read_text (fs : t) (p : path) : result pystr :=
  match lookup fs p with
  | Some (File text) => Ok (translate_newlines text)
  | Some Dir | None => Raise OSError
  end.

(** [p.mkdir(parents=True, exist_ok=True)]: the directories of [todo] are
    made below [done], top down. *)
Fixpoint mkdir_below (fs : t) (done : path) (todo : list pystr) : result t :=
  match todo with
  | [] => Ok fs
  | c :: r =>
      let q := done ++ [c] in
      match lookup fs q with
      | Some Dir => mkdir_below fs q r
      | Some (File _) => Raise OSError
      | None => mkdir_below (update fs q Dir) q r
      end
  end.

Definition mkdir_parents (fs : t) (p : path) : result t := mkdir_below fs [] p.

(** Code points that UTF-8 cannot encode. *)
Definition is_surrogate (c : N) : bool := ((55296 <=? c) && (c <=? 57343))%N.

Definition encodable (s : pystr) : bool := forallb (fun c => negb (is_surrogate c)) s.

(** Opening [p] for writing truncates it. *)
Definition open_w (fs : t) (p : path) : result t :=
  match lookup fs p, lookup fs (parent p) with
  | Some Dir, _ => Raise OSError
  | _, Some Dir => Ok (update fs p (File []))
  | _, _ => Raise OSError
  end.

(** [p.write_text(data, encoding="utf-8")]: the file is opened, which
    truncates it, and then the encoded text is written. The file system that
    is left behind is returned also when an exception is raised. *)
Definition write_text (fs : t) (p : path) (data : pystr) : result unit * t :=
  match open_w fs p with
  | Raise e => (Raise e, fs)
  | Ok fs1 =>
      if encodable data then (Ok tt, update fs1 p (File data))
      else (Raise UnicodeEncodeError, fs1)
  end.

End FS.

(* ================================================================== *)
(** * The world a pass runs in *)

Module World.

(** What one call of the chat backend gives: an exception of the transport
    or of decoding the body, or the decoded body. *)
Inductive slack_response : Type :=
| SlackRaise (e : exn)
| SlackBody (payload : json).

(** What one call of the tracker gives: an exception of the transport, or a
    response with a status. *)
Inductive github_response : Type :=
| GithubRaise (e : exn)
| GithubStatus (status : Z).

(** A piece of an f-string. [StrOf v] stands for [str(v)] of a value that is
    not a [str], and [UtcTime t] for
    [time.strftime("%Y-%m-%d %H:%M:%S", time.gmtime(t))]. *)
Inductive frag : Type :=
| Lit (s : pystr)
| StrOf (v : json)
| UtcTime (t : Z).

Definition text : Type := list frag.

(** [f"{v}"] *)
Definition fmt (v : json) : frag :=
  match v with
  | JStr s => Lit s
  | _ => StrOf v
  end.

Record history_call : Type := {
  call_channel : pystr;
  call_oldest : json;
  call_cursor : option json
}.

Record issue_request : Type := {
  req_repo : pystr;
  req_title : pystr;
  req_body : text;
  req_labels : list pystr
}.

Record world : Type := {
  fs : FS.t;
  slack : list slack_response;          (* the answers the chat backend will give *)
  github : list github_response;        (* the answers the tracker will give *)
  history_log : list history_call;      (* the history calls made so far *)
  posted : list issue_request           (* the issue requests sent so far *)
}.

Definition with_fs (w : world) (f : FS.t) : world :=
  {| fs := f; slack := slack w; github := github w;
     history_log := history_log w; posted := posted w |}.

(** A computation in the world: [None] when it asks a backend for more
    answers than the world holds. An exception leaves the world as it was
    when it was raised. *)
Definition M (A : Type) : Type := world -> option (result A * world).

Definition ret {A : Type} (a : A) : M A := fun w => Some (Ok a, w).

Definition raise {A : Type} (e : exn) : M A := fun w => Some (Raise e, w).

Definition mbind {A B : Type} (m : M A) (k : A -> M B) : M B :=
  fun w =>
    match m w with
    | None => None
    | Some (Raise e, w') => Some (Raise e, w')
    | Some (Ok a, w') => k a w'
    end.

Definition lift {A : Type} (r : result A) : M A :=
  fun w => Some (r, w).

End World.

Import World.

Declare Scope io_scope.
Delimit Scope io_scope with io.
Notation "x <- c ;; k" := (mbind c (fun x => k))
  (at level 61, c at next level, right associativity) : io_scope.
Notation "' p <- c ;; k" := (mbind c (fun p => k))
  (at level 61, p pattern, c at next level, right associativity) : io_scope.
Notation "c ;;; k" := (mbind c (fun _ => k))
  (at level 61, right associativity) : io_scope.

(* ================================================================== *)
(** * app/config.py *)

Module Config.

Record Settings : Type := {
  slack_bot_token : pystr;
  slack_channel_id : pystr;
  github_repo : pystr;
  github_token : pystr;
  state_file : FS.path;
  poll_interval_seconds : Z
}.

End Config.

Import Config.

(* ================================================================== *)
(** * app/slack_sync.py *)

Module SlackSync.

Record SlackSyncStats : Type := {
  processed_messages : nat;
  created_issues : nat;
  last_timestamp : PyFloat.float
}.

(** The cursor state that [run_sync] saves: a dict from [str] to [str]. *)
Definition cursor_state : Type := list (pystr * pystr).

(** [_slack_request] on the answer of the backend: the payload must be a
    dict with a true [ok]. *)
Definition _slack_request (r : slack_response) : result dict :=
  match r with
  | SlackRaise e => Raise e
  | SlackBody (JDict payload) =>
      if truthy (get payload (lit "ok")) then Ok payload
      else Raise RuntimeError
  | SlackBody _ => Raise AttributeError
  end.

Definition _load_state (path : FS.path) : M json :=
  fun w =>
    if negb (FS.exists_ (fs w) path)
    then Some (Ok (JDict [(lit "last_ts", JStr (lit "0"))]), w)
    else Some ((text <- FS.read_text (fs w) path ;; JsonText.loads text)%py, w).

Definition _save_state (path : FS.path) (state : cursor_state) : M unit :=
  fun w =>
    match FS.mkdir_parents (fs w) (FS.parent path) with
    | Raise e => Some (Raise e, w)
    | Ok fs1 =>
        let '(r, fs2) := FS.write_text fs1 path (JsonText.dumps state ++ [10%N]) in
        Some (r, with_fs w fs2)
    end.

(** [urllib.parse.urlencode] quotes a [str] parameter through UTF-8, so a
    lone surrogate in it raises; any other value is quoted through [str]. *)
Definition urlencodable (v : json) : bool :=
  match v with
  | JStr s => FS.encodable s
  | _ => true
  end.

(** The [while True] loop of [_fetch_new_messages]: one answer of the
    backend per turn. The result is what the loop leaves in [messages], or
    the exception that ended it; with it come the answers that are left and
    the calls that were made. *)
Fixpoint fetch_pages (channel : pystr) (oldest : json) (cursor : json)
    (messages : list json) (answers : list slack_response)
    (log : list history_call)
  : option (result (list json) * list slack_response * list history_call) :=
  match answers with
  | [] => None
  | r :: rest =>
      let call := {| call_channel := channel; call_oldest := oldest;
                     call_cursor := if truthy cursor then Some cursor else None |} in
      let log' := log ++ [call] in
      if negb (urlencodable oldest && urlencodable cursor)
      then Some (Raise UnicodeEncodeError, answers, log)
      else
      match (payload <- _slack_request r ;;
             items <- iterate (get_default payload (lit "messages") (JList [])) ;;
             next <- any_get (get_default payload (lit "response_metadata") (JDict []))
                             (lit "next_cursor") JNull ;;
             Ok (messages ++ items, next))%py with
      | Raise e => Some (Raise e, rest, log')
      | Ok (messages', next) =>
          if truthy next
          then fetch_pages channel oldest next messages' rest log'
          else Some (Ok messages', rest, log')
      end
  end.

(** The sort key of a message: [float(item.get("ts", "0"))]. *)
Definition ts_key (item : json) : result PyFloat.float :=
  (ts <- any_get item (lit "ts") (JStr (lit "0")) ;; to_float ts)%py.

Fixpoint keyed (items : list json) : result (list (PyFloat.float * json)) :=
  match items with
  | [] => Ok []
  | m :: r => (k <- ts_key m ;; kr <- keyed r ;; Ok ((k, m) :: kr))%py
  end.

(** [list.sort(key=...)] is a stable sort that compares keys with [<]. For
    keys that [<] orders totally (no NaN among them) every stable sort
    gives the list that this insertion sort gives. With a NaN among the
    keys the list that CPython's sort leaves can be another rearrangement
    than this one; what is proved of the order below is proved for keys
    without NaN. *)
Fixpoint insert (x : PyFloat.float * json) (l : list (PyFloat.float * json))
  : list (PyFloat.float * json) :=
  match l with
  | [] => [x]
  | y :: r => if PyFloat.ltb (fst y) (fst x) then y :: insert x r else x :: l
  end.

Definition sort_keyed (l : list (PyFloat.float * json)) : list (PyFloat.float * json) :=
  fold_right insert [] l.

Definition sort_by_ts (items : list json) : result (list json) :=
  (kl <- keyed items ;; Ok (List.map snd (sort_keyed kl)))%py.

(** [[m for m in messages if float(m.get("ts", "0")) > float(oldest)]] *)
Fixpoint newer_than (oldest : json) (messages : list json) : result (list json) :=
  match messages with
  | [] => Ok []
  | m :: r =>
      (k <- ts_key m ;;
       o <- to_float oldest ;;
       kept <- newer_than oldest r ;;
       Ok (if PyFloat.gtb k o then m :: kept else kept))%py
  end.

Definition _fetch_new_messages (token channel : pystr) (oldest : json) : M (list json) :=
  fun w =>
    match fetch_pages channel oldest JNull [] (slack w) (history_log w) with
    | None => None
    | Some (r, rest, log) =>
        let w' := {| fs := fs w; slack := rest; github := github w;
                     history_log := log; posted := posted w |} in
        Some ((messages <- r ;;
               sorted <- sort_by_ts messages ;;
               newer_than oldest sorted)%py, w')
    end.

(** [time.gmtime] of a float, then [time.strftime]: the seconds that are
    rendered, or the exception. *)
Definition gmtime_seconds (x : PyFloat.float) : result Z :=
  if PyFloat.is_nan x then Raise ValueError
  else match PyFloat.floor x with
       | None => Raise OverflowError
       | Some t =>
           if ((t <? - 2 ^ 63) || (2 ^ 63 <? t))%Z then Raise OverflowError
           else if ((t <? -67768040609740800) || (67768036191676799 <? t))%Z
           then Raise OSError
           else if (67767976233532799 <? t)%Z then Raise OverflowError
           else Ok t
       end.

Definition fallback_title : pystr := lit "Slack Codex Request".

Definition _format_issue (message : json) (channel : pystr) : result (pystr * text) :=
  (t <- any_get message (lit "text") (JStr []) ;;
   text <- any_strip t ;;
   user <- any_get message (lit "user") (JStr (lit "unknown")) ;;
   ts <- any_get message (lit "ts") (JStr (lit "0")) ;;
   ts_float <- to_float ts ;;
   human_time <- gmtime_seconds ts_float ;;
   let link := [Lit (lit "https://slack.com/app_redirect?channel="); Lit channel;
                Lit (lit "&message_ts="); fmt ts] in
   line <- match nth_error (splitlines text) 0 with
           | Some l => Ok l
           | None => Raise IndexError
           end ;;
   let title := match slice_to 80 line with
                | [] => fallback_title
                | t80 => t80
                end in
   let body :=
     [Lit [35; 35; 35; 32; 83; 108; 97; 99; 107; 12522; 12463; 12456; 12473; 12488; 10]%N;
      Lit [45; 32; 25237; 31295; 32773; 58; 32; 96]%N; fmt user; Lit [96; 10]%N;
      Lit [45; 32; 25237; 31295; 26085; 26178; 32; 40; 85; 84; 67; 41; 58; 32]%N;
      UtcTime human_time; Lit [10]%N;
      Lit [45; 32; 12513; 12483; 12475; 12540; 12472; 12522; 12531; 12463; 58; 32]%N]
     ++ link ++
     [Lit [10; 10]%N; Lit [96; 96; 96; 96; 10]%N; Lit text;
      Lit [10; 96; 96; 96; 96; 10]%N] in
   Ok (title, body))%py.

Definition _create_issue (repo token title : pystr) (body : text)
    (labels : list pystr) : M unit :=
  fun w =>
    match github w with
    | [] => None
    | r :: rest =>
        let req := {| req_repo := repo; req_title := title; req_body := body;
                      req_labels := labels |} in
        let w' := {| fs := fs w; slack := slack w; github := rest;
                     history_log := history_log w;
                     posted := posted w ++ [req] |} in
        match r with
        | GithubRaise e => Some (Raise e, w')
        | GithubStatus status =>
            if (300 <=? status)%Z then Some (Raise RuntimeError, w')
            else Some (Ok tt, w')
        end
    end.

Definition command_prefix : pystr := lit "/codex".

Definition labels : list pystr := [lit "codex-runner"; lit "from-slack"].

Open Scope io_scope.

(** The [for message in messages] loop of [run_sync]; the result is the
    final [created] and [processed_ts]. *)
Fixpoint process_messages (settings : Settings) (messages : list json)
    (created : nat) (processed_ts : PyFloat.float) : M (nat * PyFloat.float) :=
  match messages with
  | [] => ret (created, processed_ts)
  | message :: rest =>
      subtype <- lift (any_get message (lit "subtype") JNull) ;;
      if truthy subtype then process_messages settings rest created processed_ts
      else
        t <- lift (any_get message (lit "text") (JStr [])) ;;
        text <- lift (any_strip t) ;;
        if negb (startswith text command_prefix)
        then process_messages settings rest created processed_ts
        else
          ' (title, body) <- lift (_format_issue message (slack_channel_id settings)) ;;
          _create_issue (github_repo settings) (github_token settings) title body labels ;;;
          ts <- lift (any_get message (lit "ts") (JFloat processed_ts)) ;;
          f <- lift (to_float ts) ;;
          process_messages settings rest (S created) (PyFloat.max processed_ts f)
  end.

Definition run_sync (settings : Settings) : M SlackSyncStats :=
  state <- _load_state (state_file settings) ;;
  oldest <- lift (any_get state (lit "last_ts") (JStr (lit "0"))) ;;
  messages <- _fetch_new_messages (slack_bot_token settings)
                (slack_channel_id settings) oldest ;;
  processed_ts <- lift (to_float oldest) ;;
  ' (created, processed_ts) <- process_messages settings messages 0 processed_ts ;;
  (if (0 <? created)%nat
   then _save_state (state_file settings) [(lit "last_ts", PyFloat.fmt6 processed_ts)]
   else ret tt) ;;;
  ret {| processed_messages := List.length messages;
         created_issues := created;
         last_timestamp := processed_ts |}.

Close Scope io_scope.

End SlackSync.

Import SlackSync.

(* ================================================================== *)
(** * What the disk holds while [_save_state] runs *)

Module Crash.

(** The file systems after each directory that [mkdir] makes. *)
Fixpoint mkdir_states (fs : FS.t) (done : FS.path) (todo : list pystr) : list FS.t :=
  match todo with
  | [] => []
  | c :: r =>
      let q := done ++ [c] in
      match FS.lookup fs q with
      | Some FS.Dir => mkdir_states fs q r
      | Some (FS.File _) => []
      | None => let fs' := FS.update fs q FS.Dir in fs' :: mkdir_states fs' q r
      end
  end.

(** The file systems after the file is opened and after each further code
    point of the text has reached it. *)
Definition write_states (fs : FS.t) (p : FS.path) (data : pystr) : list FS.t :=
  match FS.open_w fs p with
  | Raise _ => []
  | Ok fs1 =>
      fs1 :: (if FS.encodable data
              then List.map (fun k => FS.update fs1 p (FS.File (firstn k data)))
                            (seq 1 (List.length data))
              else [])
  end.

(** Every file system that a stop of the process during
    [_save_state path state] can leave behind, in the order of time: the
    first is the one before the call, the last is the one the call leaves
    when it runs to its end. *)
Definition save_states (fs : FS.t) (path : FS.path) (state : cursor_state) : list FS.t :=
  fs :: mkdir_states fs [] (FS.parent path)
     ++ match FS.mkdir_parents fs (FS.parent path) with
        | Ok fs1 => write_states fs1 path (JsonText.dumps state ++ [10%N])
        | Raise _ => []
        end.

End Crash.

(* ================================================================== *)
(** * app/main.py: the lock around a pass *)

Module Main.

(** Where a task of the event loop stands. Task 0 is [_poll_loop]; every
    other task is the handler of one [POST /sync-now] request. A task runs
    without interruption from one [await] that suspends it to the next. *)
Inductive pc : Type :=
| Start                    (* the poller at the top of its loop; a handler about to run *)
| Waiting (woken : bool)   (* suspended in [Lock.acquire]; [woken]: its future has a result *)
| InPass (returned : bool) (* holds the lock, suspended in [asyncio.to_thread(run_sync)];
                              [returned]: the worker thread has come back *)
| Sleeping                 (* the poller in [asyncio.sleep] *)
| Busy                     (* a handler that raised the 423 "Sync already running" *)
| Done.                    (* a handler that has answered *)

(** [asyncio.Lock] and the tasks. *)
Record state : Type := {
  locked : bool;            (* [_loop_lock._locked] *)
  waiters : list nat;       (* [_loop_lock._waiters], oldest first *)
  task : nat -> pc
}.

Definition initial : state :=
  {| locked := false; waiters := []; task := fun _ => Start |}.

Definition set_task (f : nat -> pc) (t : nat) (p : pc) : nat -> pc :=
  fun u => if Nat.eqb u t then p else f u.

(** [Lock.acquire] up to its first suspension: the lock is taken at once
    when it is free and nobody waits, otherwise the task queues. *)
Definition acquire (s : state) (t : nat) : state :=
  match locked s, waiters s with
  | false, [] =>
      {| locked := true; waiters := []; task := set_task (task s) t (InPass false) |}
  | _, _ =>
      {| locked := locked s; waiters := waiters s ++ [t];
         task := set_task (task s) t (Waiting false) |}
  end.

(** [Lock._wake_up_first] *)
Definition wake_up_first (ws : list nat) (f : nat -> pc) : nat -> pc :=
  match ws with
  | [] => f
  | w :: _ => match f w with
              | Waiting false => set_task f w (Waiting true)
              | _ => f
              end
  end.

(** Where a task goes when it leaves [async with _loop_lock]. *)
Definition after_pass (t : nat) : pc :=
  match t with O => Sleeping | S _ => Done end.

(** [Lock.release], called when the task leaves [async with]; on a lock that
    is not held it raises, which ends the turn of the task all the same. *)
Definition release (s : state) (t : nat) : state :=
  if locked s then
    {| locked := false; waiters := waiters s;
       task := set_task (wake_up_first (waiters s) (task s)) t (after_pass t) |}
  else
    {| locked := false; waiters := waiters s;
       task := set_task (task s) t (after_pass t) |}.

(** [sync_now] from its first line to its first suspension. *)
Definition sync_now (s : state) (t : nat) : state :=
  if locked s
  then {| locked := locked s; waiters := waiters s;
          task := set_task (task s) t Busy |}
  else acquire s t.

(** One turn of [_poll_loop] from the top of the loop. *)
Definition _poll_loop (s : state) : state := acquire s 0.

Inductive event : Type :=
| Run (t : nat)          (* the event loop runs task [t] up to its next suspension *)
| ThreadReturns (t : nat). (* the worker thread of the pass of task [t] comes back *)

Definition remove_waiter (t : nat) (ws : list nat) : list nat :=
  List.filter (fun u => negb (Nat.eqb u t)) ws.

(** One step of the system; [None] when the event cannot happen. *)
Definition step (s : state) (e : event) : option state :=
  match e with
  | Run t =>
      match task s t with
      | Start => Some (match t with O => _poll_loop s | S _ => sync_now s t end)
      | Waiting true =>
          Some {| locked := true; waiters := remove_waiter t (waiters s);
                  task := set_task (task s) t (InPass false) |}
      | InPass true => Some (release s t)
      | Sleeping =>
          Some {| locked := locked s; waiters := waiters s;
                  task := set_task (task s) t Start |}
      | Waiting false | InPass false | Busy | Done => None
      end
  | ThreadReturns t =>
      match task s t with
      | InPass false =>
          Some {| locked := locked s; waiters := waiters s;
                  task := set_task (task s) t (InPass true) |}
      | _ => None
      end
  end.

Fixpoint run (s : state) (es : list event) : option state :=
  match es with
  | [] => Some s
  | e :: r => match step s e with
              | Some s' => run s' r
              | None => None
              end
  end.

(** A state that some interleaving reaches. *)
Definition reachable (s : state) : Prop :=
  exists es, run initial es = Some s.

(** The pass of task [t] is executing: its worker thread is in [run_sync]. *)
Definition executing (s : state) (t : nat) : Prop := task s t = InPass false.

End Main.

Import Main.

(* ================================================================== *)
(** * Notions used to state the properties *)

(** Every run of [m] relates the world before to the world after by [R]. *)
Definition keeps (R : world -> world -> Prop) (A : Type) (m : M A) : Prop :=
  forall w r w', m w = Some (r, w') -> R w w'.

(** The requests that were sent between [w] and [w'] all carry the two
    labels of the service. *)
Definition posts_labelled (w w' : world) : Prop :=
  exists l, posted w' = posted w ++ l
            /\ Forall (fun q => req_labels q = [lit "codex-runner"; lit "from-slack"]) l.

(* ================================================================== *)
(** * A small world to run the pass in *)

Module Example.

Definition settings : Settings :=
  {| slack_bot_token := lit "xoxb-token";
     slack_channel_id := lit "C0123";
     github_repo := lit "owner/repo";
     github_token := lit "ghp-token";
     state_file := [lit "var"; lit "data"; lit "codex-runner"; lit "state.json"];
     poll_interval_seconds := 120 |}.

(** A message with a marker, a text and an author. *)
Definition message (ts text : string) : json :=
  JDict [(lit "ts", JStr (lit ts)); (lit "text", JStr (lit text));
         (lit "user", JStr (lit "U42"))].

(** A last page of history. *)
Definition page (messages : list json) : slack_response :=
  SlackBody (JDict [(lit "ok", JBool true); (lit "messages", JList messages)]).

(** A page of history that is followed by another. *)
Definition page_then (messages : list json) (next : string) : slack_response :=
  SlackBody (JDict [(lit "ok", JBool true); (lit "messages", JList messages);
                    (lit "response_metadata",
                     JDict [(lit "next_cursor", JStr (lit next))])]).

(** The directories of the state file, without the file. *)
Definition dirs : FS.t :=
  FS.update (FS.update (FS.update FS.empty [lit "var"] FS.Dir)
               [lit "var"; lit "data"] FS.Dir)
    [lit "var"; lit "data"; lit "codex-runner"] FS.Dir.

(** The same with a state file of the given content, apostrophes standing
    for double quotes. *)
Definition disk (content : string) : FS.t :=
  FS.update dirs (state_file settings) (FS.File (jlit content)).

Definition world_of (f : FS.t) (answers : list slack_response)
    (results : list github_response) : world :=
  {| fs := f; slack := answers; github := results; history_log := []; posted := [] |}.

(** The content of the state file. *)
Definition cursor_file (w : world) : option pystr :=
  match fs w (state_file settings) with
  | Some (FS.File t) => Some t
  | _ => None
  end.

End Example.

(** What holds of the lock and the tasks in every state that is reached. *)
Record single_flight (s : state) : Prop := {
  sf_waiting : forall t b, task s t = Waiting b -> In t (waiters s);
  sf_unlocked : locked s = false -> forall t b, task s t <> InPass b;
  sf_locked : locked s = true -> forall t, task s t <> Waiting true;
  sf_one_pass : forall t u b c, task s t = InPass b -> task s u = InPass c -> t = u;
  sf_one_woken : forall t u, task s t = Waiting true -> task s u = Waiting true -> t = u
}.

(** A message that the loop of [run_sync] passes over: its [subtype] is
    true as a condition, or its text is a [str] that, stripped, does not
    start with the command prefix. *)
Definition skipped (message : dict) : Prop :=
  truthy (get message (lit "subtype")) = true
  \/ exists s, get_default message (lit "text") (JStr []) = JStr s
               /\ startswith (strip s) (lit "/codex") = false.

(** More of the small world: messages that carry a [subtype]. *)
Module Example3.

(** A message of a bot. *)
Definition bot_message : dict :=
  [(lit "ts", JStr (lit "1000.700000")); (lit "text", JStr (lit "/codex deploy"));
   (lit "subtype", JStr (lit "bot_message"))].

(** A message that carries a [subtype] field whose value is the empty
    string. *)
Definition empty_subtype : dict :=
  [(lit "ts", JStr (lit "1000.700000")); (lit "text", JStr (lit "/codex deploy"));
   (lit "subtype", JStr [])].

End Example3.

(** The first two lines of [run_sync]: the cursor that the pass starts
    from. *)
Definition loaded_cursor (settings : Settings) : M json :=
  mbind (_load_state (state_file settings))
        (fun state => lift (any_get state (lit "last_ts") (JStr (lit "0")))).

(** The rest of [run_sync], from the cursor on. *)
Definition pass_from (settings : Settings) (oldest : json) : M SlackSyncStats :=
  mbind (_fetch_new_messages (slack_bot_token settings) (slack_channel_id settings) oldest)
    (fun messages =>
  mbind (lift (to_float oldest)) (fun processed_ts =>
  mbind (process_messages settings messages 0 processed_ts) (fun cp =>
  mbind (if (0 <? fst cp)%nat
         then _save_state (state_file settings)
                [(lit "last_ts", PyFloat.fmt6 (snd cp))]
         else ret tt) (fun _ =>
  ret {| processed_messages := List.length messages;
         created_issues := fst cp;
         last_timestamp := snd cp |})))).

(** An answer of the tracker that [_create_issue] takes for a success. *)
Definition accepted (r : github_response) : bool :=
  match r with
  | GithubStatus status => (status <? 300)%Z
  | GithubRaise _ => false
  end.

(** What the loop of [run_sync] over [n] messages has done between [w] and
    [w'], when it started with the count [created] and ended with [r]: the
    files and the chat backend are as they were; it took one answer of the
    tracker for every request it sent, at most one for each message; when
    it came to its end every answer was an accepted one and the count has
    grown by their number; when it raised, every answer but the last was an
    accepted one. *)
Definition loop_trace (n created : nat) (w : world)
    (r : result (nat * PyFloat.float)) (w' : world) : Prop :=
  fs w' = fs w /\ slack w' = slack w /\ history_log w' = history_log w
  /\ exists used sent,
       github w = used ++ github w' /\ posted w' = posted w ++ sent
       /\ List.length sent = List.length used
       /\ (List.length used <= n)%nat
       /\ match r with
          | Ok (created', _) =>
              forallb accepted used = true
              /\ created' = (created + List.length used)%nat
          | Raise _ => forallb accepted (removelast used) = true
          end.

(** The place of a float in the order that [<] gives the floats that are
    not NaN: the first number tells infinite, finite and zero apart by
    their sign, the other two order the finite floats of one sign by
    exponent and mantissa, as the comparison of floats does. *)
Definition rank (x : PyFloat.float) : Z * Z * Z :=
  match x with
  | S754_nan => (0, 0, 0)%Z
  | S754_infinity true => (-2, 0, 0)%Z
  | S754_infinity false => (2, 0, 0)%Z
  | S754_zero _ => (0, 0, 0)%Z
  | S754_finite true m e => (-1, - e, Zneg m)%Z
  | S754_finite false m e => (1, e, Zpos m)%Z
  end.

(** The order of the places, first number first. *)
Definition before (x y : Z * Z * Z) : Prop :=
  (fst (fst x) < fst (fst y)
   \/ fst (fst x) = fst (fst y)
      /\ (snd (fst x) < snd (fst y)
          \/ snd (fst x) = snd (fst y) /\ snd x < snd y))%Z.

(** Two keys of which neither is below the other: [list.sort] keeps items
    with such keys in the order they came in. *)
Definition same_key (a b : PyFloat.float) : bool :=
  negb (PyFloat.ltb a b) && negb (PyFloat.ltb b a).

(** The keys of [l] are in ascending order: no key is below an earlier
    one. *)
Definition ascending (l : list (PyFloat.float * json)) : Prop :=
  StronglySorted (fun x y => PyFloat.ltb (fst y) (fst x) = false) l.

(** A message whose key is a float that is neither below nor above [k]. *)
Definition has_key (k : PyFloat.float) (m : json) : bool :=
  match ts_key m with
  | Ok k' => same_key k k'
  | Raise _ => false
  end.

(** [float(m.get("ts", "0")) > float(oldest)], where both floats exist. *)
Definition newer (oldest m : json) : bool :=
  match ts_key m, to_float oldest with
  | Ok k, Ok o => PyFloat.gtb k o
  | _, _ => false
  end.

(** What one turn of the loop of [_fetch_new_messages] takes from an answer
    of the backend: the messages of the page and the cursor of the next
    page. *)
Definition page_of (r : slack_response) : result (list json * json) :=
  (payload <- _slack_request r ;;
   items <- iterate (get_default payload (lit "messages") (JList [])) ;;
   next <- any_get (get_default payload (lit "response_metadata") (JDict []))
                   (lit "next_cursor") JNull ;;
   Ok (items, next))%py.

(** The [cursor] parameter of a history call: none for a cursor that is
    false as a condition. *)
Definition cursor_param (cursor : json) : option json :=
  if truthy cursor then Some cursor else None.

(** A code point at which [str.splitlines] ends a line. *)
Definition ends_line (c : N) : bool := (c =? 13)%N || islinebreak c.

(** The requests that were sent between [w] and [w'] all go to the
    repository of the settings, with a title of one line of at most 80 code
    points that starts with the command prefix. *)
Definition posts_commands (settings : Settings) (w w' : world) : Prop :=
  exists l, posted w' = posted w ++ l
            /\ Forall (fun q => req_repo q = github_repo settings
                                /\ startswith (req_title q) command_prefix = true
                                /\ (List.length (req_title q) <= 80)%nat
                                /\ Forall (fun c => ends_line c = false) (req_title q))
                 l.

(** What holds of the queue of the lock in every state that is reached:
    the tasks in the queue are suspended in [Lock.acquire]; a lock that is
    held is held by a task in its pass; and when the lock is free, the
    first task of the queue has been woken. *)
Record handover (s : state) : Prop := {
  ho_queued : forall t, In t (waiters s) -> exists b, task s t = Waiting b;
  ho_holder : locked s = true -> exists t b, task s t = InPass b;
  ho_woken : locked s = false ->
             forall h r, waiters s = h :: r -> task s h = Waiting true
}.

(* ================================================================== *)
(** * app/main.py: what a pass records and what the health check shows *)

Module Service.

(** The module globals that a pass writes. [_last_error] is [str(exc)] in
    the source; the model keeps the exception it was made from. *)
Record globals : Type := {
  _last_stats : option SlackSyncStats;
  _last_error : option exn;
  _last_run_epoch : option PyFloat.float
}.

(** The globals when the module has been loaded. *)
Definition loaded : globals :=
  {| _last_stats := None; _last_error := None; _last_run_epoch := None |}.

(** [_sync_once]; [now] is what [time.time()] gives when the pass has
    ended. The exception of a failed pass is raised again. *)
Definition _sync_once (settings : Settings) (now : PyFloat.float) (g : globals)
    (w : world) : option (result SlackSyncStats * globals * world) :=
  match run_sync settings w with
  | None => None
  | Some (Ok result, w') =>
      Some (Ok result,
            {| _last_stats := Some result; _last_error := None;
               _last_run_epoch := Some now |}, w')
  | Some (Raise exc, w') =>
      Some (Raise exc,
            {| _last_stats := _last_stats g; _last_error := Some exc;
               _last_run_epoch := Some now |}, w')
  end.

(** [SlackSyncStats.to_dict] *)
Definition to_dict (s : SlackSyncStats) : dict :=
  [(lit "processed_messages", JInt (Z.of_nat (processed_messages s)));
   (lit "created_issues", JInt (Z.of_nat (created_issues s)));
   (lit "last_timestamp", JFloat (last_timestamp s))].

(** The answer of [healthz]: the status code and the fields of the body. *)
Record health : Type := {
  status_code : Z;
  last_run_epoch : option PyFloat.float;
  last_stats : option dict;
  last_error : option exn;
  poll_interval : Z
}.

(** [JSONResponse(body)] renders the body with
    [json.dumps(..., allow_nan=False)], which raises ValueError on a float
    that is NaN or infinite; the floats of the body are the time of the
    last run and the marker of the last statistics. The text of an
    exception holds no lone surrogate, so the encoding of the rendered
    text does not fail. *)
Definition body_renders (g : globals) : bool :=
  match _last_run_epoch g with
  | Some now => PyFloat.is_finite now
  | None => true
  end
  && match _last_stats g with
     | Some stats => PyFloat.is_finite (last_timestamp stats)
     | None => true
     end.

(** [healthz]: the answer, or the exception of [JSONResponse] that ends
    the request. *)
Definition healthz (settings : Settings) (g : globals) : result health :=
  if body_renders g
  then Ok {| status_code := match _last_error g with None => 200 | Some _ => 503 end;
             last_run_epoch := _last_run_epoch g;
             last_stats := option_map to_dict (_last_stats g);
             last_error := _last_error g;
             poll_interval := poll_interval_seconds settings |}
  else Raise ValueError.

(** Passes one after the other, as the lock orders them, each ending at
    its time in [nows]; the exception of a failed pass is dropped by the
    caller, as [_poll_loop] does. The outcomes come with the globals. *)
Fixpoint passes (settings : Settings) (nows : list PyFloat.float) (g : globals)
    (w : world) : option (list (result SlackSyncStats) * globals * world) :=
  match nows with
  | [] => Some ([], g, w)
  | now :: later =>
      match _sync_once settings now g w with
      | None => None
      | Some (r, g1, w1) =>
          match passes settings later g1 w1 with
          | None => None
          | Some (rs, g2, w2) => Some (r :: rs, g2, w2)
          end
      end
  end.

End Service.

(* ================================================================== *)
(** * app/config.py: the settings and their cache *)

Module Startup.

Definition default_state_file : FS.path :=
  [lit "var"; lit "data"; lit "codex-runner"; lit "state.json"].

Definition default_poll_interval_seconds : Z := 120.

(** The validator of [poll_interval_seconds]. *)
Definition _positive_interval (value : Z) : result Z :=
  if (value <? 30)%Z then Raise ValueError else Ok value.

(** [Settings()] on the values that pydantic has read from the environment
    and converted to the types of the fields; [None] stands for a field
    that the environment does not give. The validator runs on a value that
    is given, not on the default. *)
Definition Settings_init (bot_token channel_id repo token : pystr)
    (file : option FS.path) (interval : option Z) : result Settings :=
  (seconds <- match interval with
              | Some value => _positive_interval value
              | None => Ok default_poll_interval_seconds
              end ;;
   Ok {| slack_bot_token := bot_token;
         slack_channel_id := channel_id;
         github_repo := repo;
         github_token := token;
         state_file := match file with Some p => p | None => default_state_file end;
         poll_interval_seconds := seconds |})%py.

(** [get_settings] under [lru_cache(maxsize=1)]: [cache] is the entry of
    the cache, [built] what [Settings()] gives. A call that raises leaves
    the cache empty. *)
Definition get_settings (built : result Settings) (cache : option Settings)
    (fs : FS.t) : result Settings * option Settings * FS.t :=
  match cache with
  | Some settings => (Ok settings, cache, fs)
  | None =>
      match built with
      | Raise e => (Raise e, None, fs)
      | Ok settings =>
          match FS.mkdir_parents fs (FS.parent (state_file settings)) with
          | Raise e => (Raise e, None, fs)
          | Ok fs1 => (Ok settings, Some settings, fs1)
          end
      end
  end.

End Startup.

(* ================================================================== *)
(** * Reasoning about computations in the world *)

Lemma mbind_inv (A B : Type) (m : M A) (k : A -> M B) w r w' :
  mbind m k w = Some (r, w') ->
  (exists e, m w = Some (Raise e, w') /\ r = Raise e)
  \/ (exists a w1, m w = Some (Ok a, w1) /\ k a w1 = Some (r, w')).
Proof.
  unfold mbind. destruct (m w) as [[[a | e] w1] |]; intro H.
  - right. exists a, w1. auto.
  - left. exists e. inversion H; subst. auto.
  - discriminate.
Qed.

Lemma lift_inv (A : Type) (x : result A) w r w' :
  lift x w = Some (r, w') -> r = x /\ w' = w.
Proof. unfold lift. intro H. inversion H. auto. Qed.

Lemma ret_inv (A : Type) (a : A) w r w' :
  ret a w = Some (r, w') -> r = Ok a /\ w' = w.
Proof. unfold ret. intro H. inversion H. auto. Qed.

(** Splits a hypothesis on a sequence of binds into its cases. *)
Ltac step_in H :=
  let e := fresh "e" in
  let a := fresh "a" in
  let w1 := fresh "w" in
  let H1 := fresh "Hm" in
  let H2 := fresh "Hk" in
  apply mbind_inv in H;
  destruct H as [(e & H1 & H2) | (a & w1 & H1 & H2)].

(** A relation between the world before and after that every step of a
    pass keeps: [R] is reflexive and transitive. *)
Section Frames.

Variable R : world -> world -> Prop.
Hypothesis R_refl : forall w, R w w.
Hypothesis R_trans : forall a b c, R a b -> R b c -> R a c.

Lemma keeps_ret (A : Type) (a : A) : keeps R (ret a).
Proof. intros w r w' H. apply ret_inv in H. destruct H; subst. apply R_refl. Qed.

Lemma keeps_lift (A : Type) (x : result A) : keeps R (lift x).
Proof. intros w r w' H. apply lift_inv in H. destruct H; subst. apply R_refl. Qed.

Lemma keeps_bind (A B : Type) (m : M A) (k : A -> M B) :
  keeps R m -> (forall a, keeps R (k a)) -> keeps R (mbind m k).
Proof.
  intros Hm Hk w r w' H. step_in H.
  - eapply Hm; eauto.
  - eapply R_trans; [eapply Hm | eapply Hk]; eauto.
Qed.

End Frames.

(* ================================================================== *)
(** * The labels of the issues (C10) *)

Lemma posts_labelled_refl w : posts_labelled w w.
Proof. exists []. rewrite app_nil_r. auto. Qed.

Lemma posts_labelled_trans a b c :
  posts_labelled a b -> posts_labelled b c -> posts_labelled a c.
Proof.
  intros (l1 & E1 & F1) (l2 & E2 & F2). exists (l1 ++ l2). split.
  - rewrite E2, E1, app_assoc. reflexivity.
  - apply Forall_app. auto.
Qed.

Lemma load_state_labelled path : keeps posts_labelled (_load_state path).
Proof.
  intros w r w' H. unfold _load_state in H.
  destruct (negb (FS.exists_ (fs w) path)); inversion H; subst;
    apply posts_labelled_refl.
Qed.

Lemma save_state_labelled path state : keeps posts_labelled (_save_state path state).
Proof.
  intros w r w' H. unfold _save_state in H.
  destruct (FS.mkdir_parents (fs w) (FS.parent path)) as [fs1 | e].
  - destruct (FS.write_text fs1 path (JsonText.dumps state ++ [10%N])) as [x fs2].
    inversion H; subst. exists []. simpl. rewrite app_nil_r. auto.
  - inversion H; subst. apply posts_labelled_refl.
Qed.

Lemma fetch_labelled token channel oldest :
  keeps posts_labelled (_fetch_new_messages token channel oldest).
Proof.
  intros w r w' H. unfold _fetch_new_messages in H.
  destruct (fetch_pages channel oldest JNull [] (slack w) (history_log w))
    as [[[x rest] log] |]; [| discriminate].
  inversion H; subst. exists []. simpl. rewrite app_nil_r. auto.
Qed.

Lemma create_issue_labelled repo token title body :
  keeps posts_labelled (_create_issue repo token title body SlackSync.labels).
Proof.
  intros w r w' H. unfold _create_issue in H.
  destruct (github w) as [| g rest]; [discriminate |].
  assert (E : posted w' = posted w ++
            [{| req_repo := repo; req_title := title; req_body := body;
                req_labels := SlackSync.labels |}]).
  { destruct g as [e | st]; [| destruct (300 <=? st)%Z];
      inversion H; subst; reflexivity. }
  eexists. split; [exact E |]. constructor; [reflexivity | constructor].
Qed.

Lemma process_messages_labelled settings messages :
  forall created ts,
    keeps posts_labelled (process_messages settings messages created ts).
Proof.
  induction messages as [| m rest IH]; intros created ts; simpl.
  - apply keeps_ret. apply posts_labelled_refl.
  - apply keeps_bind;
      [apply posts_labelled_trans | apply keeps_lift; apply posts_labelled_refl |].
    intro subtype. destruct (truthy subtype); [apply IH |].
    apply keeps_bind;
      [apply posts_labelled_trans | apply keeps_lift; apply posts_labelled_refl |].
    intro t.
    apply keeps_bind;
      [apply posts_labelled_trans | apply keeps_lift; apply posts_labelled_refl |].
    intro text. destruct (negb (startswith text command_prefix)); [apply IH |].
    apply keeps_bind;
      [apply posts_labelled_trans | apply keeps_lift; apply posts_labelled_refl |].
    intros [title body].
    apply keeps_bind;
      [apply posts_labelled_trans | apply create_issue_labelled |].
    intros _.
    apply keeps_bind;
      [apply posts_labelled_trans | apply keeps_lift; apply posts_labelled_refl |].
    intro v.
    apply keeps_bind;
      [apply posts_labelled_trans | apply keeps_lift; apply posts_labelled_refl |].
    intro f. apply IH.
Qed.

(** C10. Every issue request that a pass sends carries the label list
    ["codex-runner", "from-slack"]: the requests posted after [run_sync] are
    those posted before it followed by requests that all have exactly these
    two labels. *)
Theorem run_sync_labels settings w r w' :
  run_sync settings w = Some (r, w') ->
  exists sent,
    posted w' = posted w ++ sent
    /\ Forall (fun q => req_labels q = [lit "codex-runner"; lit "from-slack"]) sent.
Proof.
  revert w r w'. change (keeps posts_labelled (run_sync settings)).
  unfold run_sync.
  apply keeps_bind; [apply posts_labelled_trans | apply load_state_labelled |].
  intro state.
  apply keeps_bind;
    [apply posts_labelled_trans | apply keeps_lift; apply posts_labelled_refl |].
  intro oldest.
  apply keeps_bind; [apply posts_labelled_trans | apply fetch_labelled |].
  intro messages.
  apply keeps_bind;
    [apply posts_labelled_trans | apply keeps_lift; apply posts_labelled_refl |].
  intro ts.
  apply keeps_bind; [apply posts_labelled_trans | apply process_messages_labelled |].
  intros [created ts'].
  apply keeps_bind; [apply posts_labelled_trans | |].
  - destruct (0 <? created)%nat;
      [apply save_state_labelled | apply keeps_ret; apply posts_labelled_refl].
  - intros _. apply keeps_ret. apply posts_labelled_refl.
Qed.

(** The statement of C10 at a pass over two messages, one of them a
    command. *)
Lemma run_sync_labels_witness :
  exists r w' sent,
    run_sync Example.settings
      (Example.world_of (Example.disk "{'last_ts': '1000.000000'}")
         [Example.page [Example.message "1000.500000" "/codex fix the build";
                        Example.message "1000.600000" "hello"]]
         [GithubStatus 201]) = Some (r, w')
    /\ posted w' = [] ++ sent
    /\ sent <> []
    /\ Forall (fun q => req_labels q = [lit "codex-runner"; lit "from-slack"]) sent.
Proof.
  destruct (run_sync Example.settings
      (Example.world_of (Example.disk "{'last_ts': '1000.000000'}")
         [Example.page [Example.message "1000.500000" "/codex fix the build";
                        Example.message "1000.600000" "hello"]]
         [GithubStatus 201])) as [[r w'] |] eqn:E; [| vm_compute in E; discriminate].
  destruct (run_sync_labels _ _ E) as (sent & P & F).
  exists r, w', sent. repeat split; auto.
  intro Hs. subst sent. simpl in P.
  assert (L : List.length (posted w') = 1%nat).
  { clear P F. vm_compute in E. inversion E. reflexivity. }
  rewrite P in L. discriminate.
Defined.

(* ================================================================== *)
(** * The issue formatter *)

Lemma lstrip_head s c r : lstrip s = c :: r -> isspace c = false.
Proof.
  induction s as [| x s IH]; simpl; [discriminate |].
  destruct (isspace x) eqn:E; [exact IH |].
  intro H. inversion H; subst. exact E.
Qed.

Lemma lstrip_suffix s : exists ws, s = ws ++ lstrip s.
Proof.
  induction s as [| x s (ws & IH)]; simpl.
  - exists []. reflexivity.
  - destruct (isspace x).
    + exists (x :: ws). simpl. rewrite <- IH. reflexivity.
    + exists []. reflexivity.
Qed.

(** A stripped text is empty or starts with a code point that is not white
    space. *)
Lemma strip_head s c r : strip s = c :: r -> isspace c = false.
Proof.
  unfold strip, rstrip. intro H.
  destruct (lstrip_suffix (rev (lstrip s))) as (ws & E).
  apply (f_equal (@rev N)) in E. rewrite rev_involutive, rev_app_distr in E.
  rewrite H in E. simpl in E.
  eapply lstrip_head. rewrite E. reflexivity.
Qed.

Lemma linebreak_isspace c : islinebreak c = true -> isspace c = true.
Proof.
  unfold islinebreak, isspace. intro H.
  repeat (apply orb_true_iff in H; destruct H as [H | H]);
    apply N.eqb_eq in H; subst; reflexivity.
Qed.

(** From a non-empty current line on, [splitlines] gives a first line that
    is not empty. *)
Lemma splitlines_from_nonempty s : forall cur,
  cur <> [] ->
  exists line rest, splitlines_from cur s = line :: rest /\ line <> [].
Proof.
  assert (R : forall cur : pystr, cur <> [] -> rev cur <> []).
  { intros cur Hc E. apply Hc. apply (f_equal (@rev N)) in E.
    rewrite rev_involutive in E. exact E. }
  induction s as [| c s IH]; intros cur Hc; simpl.
  - destruct cur; [contradiction |]. eexists _, _. split; [reflexivity |].
    apply R. discriminate.
  - destruct (c =? 13)%N.
    + destruct s as [| c' s']; [| destruct (c' =? 10)%N];
        eexists _, _; (split; [reflexivity | apply R; exact Hc]).
    + destruct (islinebreak c).
      * eexists _, _. split; [reflexivity | apply R; exact Hc].
      * apply IH. discriminate.
Qed.

(** The first line of a stripped text that is not empty is not empty. *)
Lemma first_line_of_stripped s c r :
  strip s = c :: r ->
  exists line rest, splitlines (strip s) = line :: rest /\ line <> [].
Proof.
  intro H. pose proof (strip_head _ H) as Hsp. rewrite H.
  unfold splitlines. simpl.
  destruct (c =? 13)%N eqn:E13.
  { apply N.eqb_eq in E13. subst. discriminate. }
  destruct (islinebreak c) eqn:Elb.
  { apply linebreak_isspace in Elb. congruence. }
  apply splitlines_from_nonempty. discriminate.
Qed.

(** Called on its own, the formatter is not total: for a message whose
    text is empty, and for a message without any text,
    [text.splitlines()[0]] raises IndexError before the fallback title is
    looked at, whatever the channel. The loop of [run_sync] makes no such
    call: it formats only messages whose stripped text starts with the
    command prefix. *)
Lemma format_issue_empty_text_raises channel :
  _format_issue (JDict [(lit "text", JStr [])]) channel = Raise IndexError
  /\ _format_issue (JDict []) channel = Raise IndexError
  /\ _format_issue (JDict [(lit "text", JStr (lit "   ")); (lit "ts", JStr (lit "1000.5"))])
       channel = Raise IndexError.
Proof. repeat split; vm_compute; reflexivity. Qed.

(** No message whose stripped text is empty gets a title: the formatter
    returns nothing for it. *)
Lemma format_issue_blank_text_fails (message : dict) channel s :
  get_default message (lit "text") (JStr []) = JStr s ->
  strip s = [] ->
  forall title body, _format_issue (JDict message) channel <> Ok (title, body).
Proof.
  intros Ht Hs title body. unfold _format_issue. simpl.
  rewrite Ht. simpl. rewrite Hs.
  destruct (to_float _) as [f | e]; simpl; [| discriminate].
  destruct (gmtime_seconds f) as [t | e]; simpl; discriminate.
Qed.

(** Whenever the formatter returns, the title is the first line of the
    stripped text cut to 80 code points, and that line is not empty: the
    fallback title is never used. *)
Lemma format_issue_title (message : json) channel title body :
  _format_issue message channel = Ok (title, body) ->
  exists s line rest,
    any_get message (lit "text") (JStr []) = Ok (JStr s)
    /\ splitlines (strip s) = line :: rest
    /\ line <> []
    /\ title = firstn 80 line.
Proof.
  unfold _format_issue. intro H.
  destruct (any_get message (lit "text") (JStr [])) as [t | e] eqn:Et;
    simpl in H; [| discriminate].
  destruct t as [| | | | s | |]; simpl in H; try discriminate.
  destruct (any_get message (lit "user") _) as [u | e]; simpl in H; [| discriminate].
  destruct (any_get message (lit "ts") _) as [ts | e]; simpl in H; [| discriminate].
  destruct (to_float ts) as [f | e]; simpl in H; [| discriminate].
  destruct (gmtime_seconds f) as [g | e]; simpl in H; [| discriminate].
  destruct (strip s) as [| c r] eqn:Es; [simpl in H; discriminate |].
  destruct (first_line_of_stripped _ Es) as (line & rest & Hl & Hne).
  rewrite Es in Hl. rewrite Hl in H. simpl in H.
  exists s, line, rest. rewrite Es. repeat split; auto.
  destruct line as [| x line]; [contradiction |].
  unfold slice_to in H. simpl in H. inversion H. reflexivity.
Qed.

(* ================================================================== *)
(** * The lock around a pass (C2) *)

Lemma set_task_same f t p : set_task f t p t = p.
Proof. unfold set_task. rewrite Nat.eqb_refl. reflexivity. Qed.

Lemma set_task_other f t p u : u <> t -> set_task f t p u = f u.
Proof. unfold set_task. intro H. apply Nat.eqb_neq in H. rewrite H. reflexivity. Qed.

(** Looks at a task of an updated task table: it is the updated one or
    another. *)
Ltac task_cases :=
  repeat match goal with
  | H : context [set_task ?f ?t ?p ?u] |- _ =>
      destruct (Nat.eq_dec u t) as [-> | ?];
      [rewrite set_task_same in H | rewrite set_task_other in H by assumption]
  | |- context [set_task ?f ?t ?p ?u] =>
      destruct (Nat.eq_dec u t) as [-> | ?];
      [rewrite set_task_same | rewrite set_task_other by assumption]
  end.

Lemma initial_single_flight : single_flight initial.
Proof. constructor; simpl; intros; try discriminate; congruence. Qed.

Lemma in_remove_waiter t u ws : In u ws -> u <> t -> In u (remove_waiter t ws).
Proof.
  intros Hin Hne. unfold remove_waiter. apply filter_In. split; [exact Hin |].
  apply negb_true_iff. apply Nat.eqb_neq. exact Hne.
Qed.

Lemma acquire_single_flight s t :
  single_flight s -> task s t = Start -> single_flight (acquire s t).
Proof.
  intros I Ht. unfold acquire.
  destruct (locked s) eqn:L; [| destruct (waiters s) as [| w ws] eqn:W].
  - constructor; simpl; intros.
    + task_cases; [apply in_or_app; right; left; reflexivity |].
      apply in_or_app. left. eapply sf_waiting; eauto.
    + congruence.
    + task_cases; [discriminate |]. eapply sf_locked; eauto.
    + task_cases; try discriminate. eapply sf_one_pass; eauto.
    + task_cases; try discriminate. eapply sf_one_woken; eauto.
  - constructor; simpl; intros.
    + task_cases; [discriminate |].
      pose proof (sf_waiting I _ H) as F. rewrite W in F. contradiction.
    + discriminate.
    + task_cases; [discriminate |]. intro F.
      pose proof (sf_waiting I _ F) as G. rewrite W in G. contradiction.
    + task_cases; try reflexivity; exfalso; eapply sf_unlocked; eauto.
    + task_cases; try discriminate. eapply sf_one_woken; eauto.
  - constructor; simpl; intros.
    + task_cases; [apply (in_or_app (w :: ws) [t]); right; left; reflexivity |].
      apply (in_or_app (w :: ws) [t]). left. rewrite <- W. eapply sf_waiting; eauto.
    + task_cases; [discriminate |]. eapply sf_unlocked; eauto.
    + discriminate.
    + task_cases; try discriminate. eapply sf_one_pass; eauto.
    + task_cases; try discriminate. eapply sf_one_woken; eauto.
Qed.

Lemma wake_up_first_cases ws f u :
  wake_up_first ws f u = f u
  \/ (exists rest, ws = u :: rest) /\ f u = Waiting false
     /\ wake_up_first ws f u = Waiting true.
Proof.
  unfold wake_up_first. destruct ws as [| w rest]; [left; reflexivity |].
  destruct (f w) as [| [|] | | | |] eqn:E; try (left; reflexivity).
  destruct (Nat.eq_dec u w) as [-> | Hne].
  - right. rewrite set_task_same. repeat split; eauto.
  - left. apply set_task_other. exact Hne.
Qed.

Lemma after_pass_not_waiting t b : after_pass t <> Waiting b.
Proof. destruct t; discriminate. Qed.

Lemma after_pass_not_in_pass t b : after_pass t <> InPass b.
Proof. destruct t; discriminate. Qed.

Lemma release_single_flight s t b :
  single_flight s -> task s t = InPass b -> single_flight (release s t).
Proof.
  intros I Ht. unfold release.
  destruct (locked s) eqn:L.
  2:{ exfalso. eapply sf_unlocked; eauto. }
  constructor; simpl; intros.
  - task_cases; [exfalso; eapply after_pass_not_waiting; eauto |].
    destruct (wake_up_first_cases (waiters s) (task s) t0)
      as [E | ((rest & E) & _ & _)].
    + rewrite E in H. eapply sf_waiting; eauto.
    + rewrite E. left. reflexivity.
  - task_cases; [apply after_pass_not_in_pass |].
    destruct (wake_up_first_cases (waiters s) (task s) t0) as [E | (_ & _ & E)];
      rewrite E; [| discriminate].
    intro F. apply n. eapply sf_one_pass; eauto.
  - discriminate.
  - exfalso. task_cases; try (eapply after_pass_not_in_pass; eauto; fail).
    destruct (wake_up_first_cases (waiters s) (task s) t0) as [E | (_ & _ & E)];
      rewrite E in H; [| discriminate].
    apply n0. eapply sf_one_pass; eauto.
  - task_cases; try (exfalso; eapply after_pass_not_waiting; eauto; fail).
    destruct (wake_up_first_cases (waiters s) (task s) t0)
      as [E | ((r1 & E1) & _ & _)];
      [rewrite E in H; exfalso; eapply sf_locked; eauto |].
    destruct (wake_up_first_cases (waiters s) (task s) u)
      as [E | ((r2 & E2) & _ & _)];
      [rewrite E in H0; exfalso; eapply sf_locked; eauto |].
    congruence.
Qed.

Lemma resume_single_flight s t :
  single_flight s -> task s t = Waiting true ->
  single_flight {| locked := true; waiters := remove_waiter t (waiters s);
                   task := set_task (task s) t (InPass false) |}.
Proof.
  intros I Ht.
  assert (L : locked s = false).
  { destruct (locked s) eqn:L; [| reflexivity].
    exfalso. eapply sf_locked; eauto. }
  constructor; simpl; intros.
  - task_cases; [discriminate |].
    apply in_remove_waiter; [eapply sf_waiting; eauto | assumption].
  - discriminate.
  - task_cases; [discriminate |]. intro F. apply n. eapply sf_one_woken; eauto.
  - task_cases; try reflexivity; exfalso; eapply sf_unlocked; eauto.
  - task_cases; try discriminate. eapply sf_one_woken; eauto.
Qed.

(** Setting a task to a place that neither waits nor holds the lock keeps
    the invariant. *)
Lemma park_single_flight s t p :
  single_flight s ->
  (forall b, p <> Waiting b) -> (forall b, p <> InPass b) ->
  single_flight {| locked := locked s; waiters := waiters s;
                   task := set_task (task s) t p |}.
Proof.
  intros I Hw Hp. constructor; simpl; intros.
  - task_cases; [exfalso; eapply Hw; eauto |]. eapply sf_waiting; eauto.
  - task_cases; [apply Hp |]. eapply sf_unlocked; eauto.
  - task_cases; [apply Hw |]. eapply sf_locked; eauto.
  - task_cases; try (exfalso; eapply Hp; eauto; fail). eapply sf_one_pass; eauto.
  - task_cases; try (exfalso; eapply Hw; eauto; fail). eapply sf_one_woken; eauto.
Qed.

Lemma returns_single_flight s t :
  single_flight s -> task s t = InPass false ->
  single_flight {| locked := locked s; waiters := waiters s;
                   task := set_task (task s) t (InPass true) |}.
Proof.
  intros I Ht. constructor; simpl; intros.
  - task_cases; [discriminate |]. eapply sf_waiting; eauto.
  - task_cases; [exfalso; eapply sf_unlocked; eauto |]. eapply sf_unlocked; eauto.
  - task_cases; [discriminate |]. eapply sf_locked; eauto.
  - task_cases; try reflexivity; eapply sf_one_pass; eauto.
  - task_cases; try discriminate. eapply sf_one_woken; eauto.
Qed.

Lemma step_single_flight s e s' :
  single_flight s -> step s e = Some s' -> single_flight s'.
Proof.
  intros I H. destruct e as [t | t]; simpl in H.
  - destruct (task s t) as [| [|] | [|] | | |] eqn:Ht; inversion H; subst; clear H.
    + destruct t as [| t'].
      * apply acquire_single_flight; assumption.
      * unfold sync_now. destruct (locked s) eqn:L.
        -- assert (P : single_flight
                         {| locked := locked s; waiters := waiters s;
                            task := set_task (task s) (S t') Busy |})
             by (apply park_single_flight; [assumption | discriminate | discriminate]).
           rewrite L in P. exact P.
        -- apply acquire_single_flight; assumption.
    + apply resume_single_flight; assumption.
    + eapply release_single_flight; eauto.
    + apply park_single_flight; [assumption | discriminate | discriminate].
  - destruct (task s t) as [| [|] | [|] | | |] eqn:Ht; inversion H; subst; clear H.
    apply returns_single_flight; assumption.
Qed.

Lemma run_single_flight es : forall s s',
  single_flight s -> run s es = Some s' -> single_flight s'.
Proof.
  induction es as [| e es IH]; intros s s' I H; simpl in H.
  - inversion H; subst. exact I.
  - destruct (step s e) as [s1 |] eqn:E; [| discriminate].
    eapply IH; [eapply step_single_flight; eauto | exact H].
Qed.

Lemma reachable_single_flight s : reachable s -> single_flight s.
Proof.
  intros (es & H). eapply run_single_flight; [apply initial_single_flight | exact H].
Qed.

(** C2. In every state that an interleaving of the poller, of the
    [sync_now] handlers and of the worker threads reaches, at most one pass
    is executing; and while a pass is executing, a [sync_now] handler that
    runs is turned away at once with the busy answer: it does not take the
    lock and does not join the waiters of the lock. *)
Theorem sync_now_single_flight s :
  reachable s ->
  (forall t u, executing s t -> executing s u -> t = u)
  /\ (forall t u, executing s u -> task s (S t) = Start ->
        step s (Run (S t))
        = Some {| locked := locked s; waiters := waiters s;
                  task := set_task (task s) (S t) Busy |}).
Proof.
  intro Hr. pose proof (reachable_single_flight Hr) as I. split.
  - unfold executing. intros t u Ht Hu. eapply sf_one_pass; eauto.
  - unfold executing. intros t u Hu Ht. simpl. rewrite Ht.
    unfold sync_now.
    destruct (locked s) eqn:L; [reflexivity |].
    exfalso. eapply sf_unlocked; eauto.
Qed.

(** The statement of C2 in the state where the poller has started a pass
    and the first request arrives. *)
Lemma sync_now_single_flight_witness :
  reachable (acquire initial 0)
  /\ executing (acquire initial 0) 0
  /\ step (acquire initial 0) (Run 1)
     = Some {| locked := true; waiters := [];
               task := set_task (task (acquire initial 0)) 1 Busy |}.
Proof.
  assert (R : reachable (acquire initial 0)) by (exists [Run 0]; reflexivity).
  split; [exact R |]. split; [reflexivity |].
  apply (proj2 (sync_now_single_flight R) 0%nat 0%nat); reflexivity.
Defined.

(* ================================================================== *)
(** * Messages that are passed over (C3) *)

Lemma mbind_ext (A B : Type) (m : M A) (k k' : A -> M B) w :
  (forall a w1, k a w1 = k' a w1) -> mbind m k w = mbind m k' w.
Proof.
  intro H. unfold mbind. destruct (m w) as [[[a | e] w1] |]; auto.
Qed.

Lemma skipped_step settings (message : dict) rest created ts w :
  skipped message ->
  process_messages settings (JDict message :: rest) created ts w
  = process_messages settings rest created ts w.
Proof.
  intros [Hs | (s & Ht & Hp)]; simpl; unfold mbind at 1, lift at 1; simpl.
  - unfold get in Hs. unfold get_default.
    destruct (lookup message (lit "subtype")) as [v |]; [| discriminate].
    rewrite Hs. reflexivity.
  - destruct (truthy _); [reflexivity |].
    unfold mbind at 1, lift at 1; simpl. rewrite Ht.
    unfold mbind at 1, lift at 1; simpl.
    unfold command_prefix. rewrite Hp. reflexivity.
Qed.

(** C3, amended. A message whose [subtype] is true as a condition, or whose
    stripped text does not start with "/codex", changes nothing wherever it
    stands among the fetched messages: the loop sends the same requests,
    counts the same issues and computes the same advanced marker as without
    it. *)
Theorem skipped_message_no_effect settings before (message : dict) rest :
  skipped message ->
  forall created ts w,
    process_messages settings (before ++ JDict message :: rest) created ts w
    = process_messages settings (before ++ rest) created ts w.
Proof.
  intro Hs. induction before as [| m before IH]; intros created ts w.
  - apply skipped_step. exact Hs.
  - simpl. apply mbind_ext. intros subtype w1.
    destruct (truthy subtype); [apply IH |].
    apply mbind_ext. intros t w2. apply mbind_ext. intros text w3.
    destruct (negb (startswith text command_prefix)); [apply IH |].
    apply mbind_ext. intros [title body] w4. apply mbind_ext. intros _ w5.
    apply mbind_ext. intros v w6. apply mbind_ext. intros f w7. apply IH.
Qed.

(** The statement of C3, amended, at a message of a bot that stands between
    two other messages. *)
Lemma skipped_message_no_effect_witness :
  skipped Example3.bot_message
  /\ forall created ts w,
       process_messages Example.settings
         ([Example.message "1000.500000" "/codex fix the build"]
            ++ JDict Example3.bot_message :: [Example.message "1000.900000" "hello"])
         created ts w
       = process_messages Example.settings
           ([Example.message "1000.500000" "/codex fix the build"]
              ++ [Example.message "1000.900000" "hello"])
           created ts w.
Proof.
  assert (S : skipped Example3.bot_message) by (left; vm_compute; reflexivity).
  split; [exact S |].
  exact (skipped_message_no_effect Example.settings
           [Example.message "1000.500000" "/codex fix the build"]
           [Example.message "1000.900000" "hello"] S).
Defined.

(** C3 as it is stated fails: a message that carries a [subtype] field with
    an empty value is not passed over. The pass creates an issue for it and
    advances the marker to it. *)
Lemma empty_subtype_creates_issue :
  lookup Example3.empty_subtype (lit "subtype") = Some (JStr [])
  /\ exists stats w',
       run_sync Example.settings
         (Example.world_of (Example.disk "{'last_ts': '1000.000000'}")
            [Example.page [JDict Example3.empty_subtype]] [GithubStatus 201])
       = Some (Ok stats, w')
       /\ created_issues stats = 1%nat
       /\ List.map req_title (posted w') = [lit "/codex deploy"]
       /\ Example.cursor_file w' = Some (jlit "{
  'last_ts': '1000.700000'
}
").
Proof.
  split; [reflexivity |].
  eexists _, _. split; [vm_compute; reflexivity |].
  repeat split; vm_compute; reflexivity.
Qed.

(* ================================================================== *)
(** * Loading the cursor (C5) *)

Lemma mbind_assoc (A B C : Type) (m : M A) (f : A -> M B) (g : B -> M C) w :
  mbind (mbind m f) g w = mbind m (fun a => mbind (f a) g) w.
Proof.
  unfold mbind. destruct (m w) as [[[a | e] w1] |]; reflexivity.
Qed.

Lemma run_sync_split settings w :
  run_sync settings w = mbind (loaded_cursor settings) (pass_from settings) w.
Proof.
  unfold run_sync, loaded_cursor. rewrite mbind_assoc.
  apply mbind_ext. intros state w1. apply mbind_ext. intros oldest w2.
  unfold pass_from.
  apply mbind_ext. intros messages w3. apply mbind_ext. intros ts w4.
  apply mbind_ext. intros [created ts'] w5. reflexivity.
Qed.

(** C5, amended. The cursor of a pass is the zero marker when there is no
    state file; when there is one, its text is parsed, the cursor is the
    [last_ts] entry of the parsed dict, and it is the zero marker again when
    the dict has no such entry; a text that does not parse makes the load
    fail, and then the pass ends with that exception before anything is
    fetched, sent or written. *)
Theorem load_cursor_cases settings w :
  (FS.lookup (fs w) (state_file settings) = None ->
     loaded_cursor settings w = Some (Ok (JStr (lit "0")), w))
  /\ (forall text,
        FS.lookup (fs w) (state_file settings) = Some (FS.File text) ->
        loaded_cursor settings w
        = Some ((state <- JsonText.loads (FS.translate_newlines text) ;;
                 any_get state (lit "last_ts") (JStr (lit "0")))%py, w))
  /\ (forall text e,
        FS.lookup (fs w) (state_file settings) = Some (FS.File text) ->
        JsonText.loads (FS.translate_newlines text) = Raise e ->
        run_sync settings w = Some (Raise e, w)).
Proof.
  assert (F : forall text,
             FS.lookup (fs w) (state_file settings) = Some (FS.File text) ->
             _load_state (state_file settings) w
             = Some (JsonText.loads (FS.translate_newlines text), w)).
  { intros text H. unfold _load_state, FS.exists_, FS.read_text. rewrite H.
    simpl. reflexivity. }
  repeat split.
  - intro H. unfold loaded_cursor, mbind, _load_state, FS.exists_. rewrite H.
    simpl. reflexivity.
  - intros text H. unfold loaded_cursor, mbind. rewrite (F _ H).
    destruct (JsonText.loads _); reflexivity.
  - intros text e H E. rewrite run_sync_split. unfold mbind at 1.
    unfold loaded_cursor, mbind. rewrite (F _ H), E. reflexivity.
Qed.

(** The statement of C5, amended, at three disks: without a state file,
    with a state file that holds a cursor, and with a state file that does
    not parse. *)
Lemma load_cursor_cases_witness :
  loaded_cursor Example.settings (Example.world_of Example.dirs [] [])
  = Some (Ok (JStr (lit "0")), Example.world_of Example.dirs [] [])
  /\ loaded_cursor Example.settings
       (Example.world_of (Example.disk "{'last_ts': '1000.500000'}") [] [])
     = Some (Ok (JStr (lit "1000.500000")),
             Example.world_of (Example.disk "{'last_ts': '1000.500000'}") [] [])
  /\ run_sync Example.settings
       (Example.world_of (Example.disk "{'last_ts': ")
          [Example.page [Example.message "1000.500000" "/codex fix the build"]]
          [GithubStatus 201])
     = Some (Raise JSONDecodeError,
             Example.world_of (Example.disk "{'last_ts': ")
               [Example.page [Example.message "1000.500000" "/codex fix the build"]]
               [GithubStatus 201]).
Proof.
  split; [| split].
  - apply (proj1 (load_cursor_cases Example.settings
                    (Example.world_of Example.dirs [] []))).
    reflexivity.
  - rewrite (proj1 (proj2 (load_cursor_cases Example.settings
               (Example.world_of (Example.disk "{'last_ts': '1000.500000'}") [] [])))
               (jlit "{'last_ts': '1000.500000'}")); reflexivity.
  - apply (proj2 (proj2 (load_cursor_cases Example.settings _))
             (jlit "{'last_ts': ")); vm_compute; reflexivity.
Defined.

(** C5 as it is stated fails: a state file that holds an empty JSON object
    is persisted state, it parses, and the pass takes the default cursor "0"
    in its place. *)
Lemma empty_object_falls_back_to_zero :
  FS.exists_ (Example.disk "{}") (state_file Example.settings) = true
  /\ JsonText.loads (jlit "{}") = Ok (JDict [])
  /\ loaded_cursor Example.settings (Example.world_of (Example.disk "{}") [] [])
     = Some (Ok (JStr (lit "0")), Example.world_of (Example.disk "{}") [] []).
Proof. repeat split; vm_compute; reflexivity. Qed.

(* ================================================================== *)
(** * Saving and loading the cursor (C6) *)

Lemma below_32_cases (c : N) :
  (c < 32)%N -> In c (List.map N.of_nat (seq 0 32)).
Proof.
  intro H. rewrite <- (N2Nat.id c). apply in_map. apply in_seq. lia.
Qed.

(** Proves a goal about a code point below 32 by looking at each. *)
Ltac each_below_32 H :=
  apply below_32_cases in H; simpl in H;
  repeat (destruct H as [H | H]; [subst; try reflexivity |]);
  try contradiction.

(** What [scanstring] reads back from the escape of one code point. *)
Lemma scanstring_escape_char c acc rest :
  JsonText.scanstring acc (JsonText.escape_char c ++ rest)
  = JsonText.scanstring (c :: acc) rest.
Proof.
  destruct (N.ltb_spec c 32) as [H | H].
  - each_below_32 H.
  - unfold JsonText.escape_char.
    destruct (N.eqb_spec c 34) as [-> | H34]; [reflexivity |].
    destruct (N.eqb_spec c 92) as [-> | H92]; [reflexivity |].
    destruct (N.eqb_spec c 10) as [-> | _]; [reflexivity |].
    destruct (N.eqb_spec c 13) as [-> | _]; [reflexivity |].
    destruct (N.eqb_spec c 9) as [-> | _]; [reflexivity |].
    destruct (N.eqb_spec c 8) as [-> | _]; [reflexivity |].
    destruct (N.eqb_spec c 12) as [-> | _]; [reflexivity |].
    destruct (N.ltb_spec c 32) as [F | _]; [lia |].
    simpl.
    destruct (N.eqb_spec c 34) as [F | _]; [contradiction |].
    destruct (N.eqb_spec c 92) as [F | _]; [contradiction |].
    destruct (N.ltb_spec c 32) as [F | _]; [lia |].
    reflexivity.
Qed.

Lemma scanstring_escaped s : forall acc rest,
  JsonText.scanstring acc (flat_map JsonText.escape_char s ++ 34%N :: rest)
  = Some (rev acc ++ s, rest).
Proof.
  induction s as [| c s IH]; intros acc rest; simpl.
  - rewrite app_nil_r. reflexivity.
  - rewrite <- app_assoc, scanstring_escape_char, IH. simpl.
    rewrite <- app_assoc. reflexivity.
Qed.

(** A string literal is read back as the string it encodes. *)
Lemma scanstring_encode_basestring s rest :
  JsonText.scanstring [] (List.tl (JsonText.encode_basestring s) ++ rest)
  = Some (s, rest).
Proof.
  unfold JsonText.encode_basestring, JsonText.quote. simpl.
  rewrite <- app_assoc. simpl. apply scanstring_escaped.
Qed.

Lemma dumps_cursor_text k v :
  JsonText.dumps [(k, v)] ++ [10%N]
  = 123%N :: 10%N :: 32%N :: 32%N :: 34%N
      :: flat_map JsonText.escape_char k
      ++ 34%N :: 58%N :: 32%N :: 34%N
      :: flat_map JsonText.escape_char v ++ [34; 10; 125; 10]%N.
Proof.
  unfold JsonText.dumps, JsonText.dump_item, JsonText.encode_basestring,
    JsonText.quote. simpl.
  repeat (rewrite <- app_assoc; simpl). reflexivity.
Qed.

(** [json.loads] gives back the dict that [json.dumps] wrote, for a dict
    with one entry. *)
Lemma loads_dumps_cursor k v :
  JsonText.loads (JsonText.dumps [(k, v)] ++ [10%N]) = Ok (JDict [(k, JStr v)]).
Proof.
  rewrite dumps_cursor_text. unfold JsonText.loads.
  cbn [List.length JsonText.skip_ws JsonText.is_ws N.eqb Pos.eqb orb].
  cbn [JsonText.scan_once N.eqb Pos.eqb JsonText.skip_ws JsonText.is_ws orb].
  cbn [JsonText.scan_members].
  rewrite scanstring_escaped.
  cbn [rev app JsonText.skip_ws JsonText.is_ws N.eqb Pos.eqb orb JsonText.scan_once].
  rewrite scanstring_escaped.
  cbn [rev app JsonText.skip_ws JsonText.is_ws N.eqb Pos.eqb orb Json.set].
  reflexivity.
Qed.

Lemma escape_char_no_cr c : Forall (fun x => x <> 13%N) (JsonText.escape_char c).
Proof.
  destruct (N.ltb_spec c 32) as [H | H].
  - apply below_32_cases in H; simpl in H;
      repeat (destruct H as [H | H];
              [subst; vm_compute; repeat constructor; discriminate |]);
      contradiction.
  - unfold JsonText.escape_char.
    repeat match goal with
           | |- context [(c =? ?k)%N] =>
               destruct (N.eqb_spec c k); [repeat constructor; discriminate |]
           end.
    destruct (N.ltb_spec c 32); [lia |].
    repeat constructor. lia.
Qed.

Lemma escaped_no_cr s : Forall (fun x => x <> 13%N) (flat_map JsonText.escape_char s).
Proof.
  induction s as [| c s IH]; simpl; [constructor |].
  apply Forall_app. split; [apply escape_char_no_cr | exact IH].
Qed.

Lemma translate_newlines_id s :
  Forall (fun x => x <> 13%N) s -> FS.translate_newlines s = s.
Proof.
  induction 1 as [| c s Hc _ IH]; simpl; [reflexivity |].
  destruct (N.eqb_spec c 13); [contradiction |]. rewrite IH. reflexivity.
Qed.

(** The text that [_save_state] writes for a cursor holds no carriage
    return, so reading it back changes nothing. *)
Lemma translate_dumps_cursor k v :
  FS.translate_newlines (JsonText.dumps [(k, v)] ++ [10%N])
  = JsonText.dumps [(k, v)] ++ [10%N].
Proof.
  apply translate_newlines_id. rewrite dumps_cursor_text.
  repeat (constructor; [discriminate |]).
  apply Forall_app. split; [apply escaped_no_cr |].
  repeat (constructor; [discriminate |]).
  apply Forall_app. split; [apply escaped_no_cr |].
  repeat constructor; discriminate.
Qed.

Lemma pystr_eqb_refl s : PyStr.eqb s s = true.
Proof. induction s as [| c s IH]; simpl; [| rewrite N.eqb_refl]; auto. Qed.

Lemma path_eqb_refl p : FS.path_eqb p p = true.
Proof. induction p as [| c p IH]; simpl; [| rewrite pystr_eqb_refl]; auto. Qed.

Lemma lookup_update_same fs p n : p <> [] -> FS.lookup (FS.update fs p n) p = Some n.
Proof.
  intro H. destruct p as [| c p]; [contradiction |].
  unfold FS.lookup, FS.update. rewrite path_eqb_refl. reflexivity.
Qed.

(** What a [write_text] that returns leaves at the path. *)
Lemma write_text_ok fs p data fs' :
  FS.write_text fs p data = (Ok tt, fs') ->
  FS.lookup fs' p = Some (FS.File data) /\ FS.encodable data = true.
Proof.
  unfold FS.write_text, FS.open_w. intro H.
  assert (Hp : p <> []).
  { intro E. subst p. simpl in H. inversion H. }
  destruct (FS.lookup fs p) as [[t |] |];
    destruct (FS.lookup fs (FS.parent p)) as [[t' |] |];
    try (inversion H; fail);
    destruct (FS.encodable data); inversion H; subst;
    (split; [apply lookup_update_same; exact Hp | reflexivity]).
Qed.

(** C6. Saving a cursor and loading it again gives the identical marker:
    whenever [_save_state] returns for the state with the marker [s], a
    following [_load_state] returns the dict whose [last_ts] is the string
    [s], code point for code point. *)
Theorem save_load_round_trip path s w w' :
  _save_state path [(lit "last_ts", s)] w = Some (Ok tt, w') ->
  _load_state path w' = Some (Ok (JDict [(lit "last_ts", JStr s)]), w').
Proof.
  unfold _save_state. intro H.
  destruct (FS.mkdir_parents (fs w) (FS.parent path)) as [fs1 | e]; [| inversion H].
  destruct (FS.write_text fs1 path (JsonText.dumps [(lit "last_ts", s)] ++ [10%N]))
    as [r fs2] eqn:W.
  inversion H; subst; clear H.
  destruct (write_text_ok _ _ _ W) as (L & _).
  unfold _load_state, FS.exists_, FS.read_text, with_fs. simpl fs. rewrite L.
  simpl negb. cbv iota.
  rewrite translate_dumps_cursor. cbn [bind]. rewrite loads_dumps_cursor.
  reflexivity.
Qed.

(** The statement of C6 at the marker "1000.500000", saved where no state
    file was before. *)
Lemma save_load_round_trip_witness :
  exists w',
    _save_state (state_file Example.settings) [(lit "last_ts", lit "1000.500000")]
      (Example.world_of Example.dirs [] []) = Some (Ok tt, w')
    /\ _load_state (state_file Example.settings) w'
       = Some (Ok (JDict [(lit "last_ts", JStr (lit "1000.500000"))]), w').
Proof.
  eexists. split; [vm_compute; reflexivity |].
  apply (@save_load_round_trip (state_file Example.settings) (lit "1000.500000")
           (Example.world_of Example.dirs [] [])).
  vm_compute. reflexivity.
Defined.

(* ================================================================== *)
(** * Saving the cursor: directories, the write, and a stop in between *)

Lemma pystr_eqb_eq a : forall b, PyStr.eqb a b = true -> a = b.
Proof.
  induction a as [| x a IH]; intros [| y b] H; simpl in H; try discriminate.
  - reflexivity.
  - apply andb_true_iff in H. destruct H as [H1 H2].
    apply N.eqb_eq in H1. rewrite (IH _ H2), H1. reflexivity.
Qed.

Lemma path_eqb_eq p : forall q, FS.path_eqb p q = true -> p = q.
Proof.
  induction p as [| x p IH]; intros [| y q] H; simpl in H; try discriminate.
  - reflexivity.
  - apply andb_true_iff in H. destruct H as [H1 H2].
    rewrite (pystr_eqb_eq _ _ H1), (IH _ H2). reflexivity.
Qed.

Lemma lookup_update_other fs p n q :
  q <> p -> FS.lookup (FS.update fs p n) q = FS.lookup fs q.
Proof.
  intro H. destruct q as [| c q]; [reflexivity |].
  unfold FS.lookup, FS.update.
  destruct (FS.path_eqb (c :: q) p) eqn:E; [| reflexivity].
  apply path_eqb_eq in E. contradiction.
Qed.

(** What [mkdir] leaves: every directory on the way exists, and no path
    that is not longer than the starting point has changed. *)
Lemma mkdir_below_dirs todo : forall fs done fs1,
  FS.mkdir_below fs done todo = Ok fs1 ->
  (forall k, (0 < k <= List.length todo)%nat ->
     FS.lookup fs1 (done ++ firstn k todo) = Some FS.Dir)
  /\ (forall q, (List.length q <= List.length done)%nat ->
        FS.lookup fs1 q = FS.lookup fs q).
Proof.
  induction todo as [| c r IH]; intros fs done fs1 H; simpl in H.
  - inversion H; subst. split; [simpl; intros; lia | reflexivity].
  - assert (Lq : List.length (done ++ [c]) = S (List.length done))
      by (rewrite length_app; simpl; lia).
    assert (Step : forall fs0,
               FS.mkdir_below fs0 (done ++ [c]) r = Ok fs1 ->
               FS.lookup fs0 (done ++ [c]) = Some FS.Dir ->
               (forall q, (List.length q <= List.length done)%nat ->
                  FS.lookup fs0 q = FS.lookup fs q) ->
               (forall k, (0 < k <= List.length (c :: r))%nat ->
                  FS.lookup fs1 (done ++ firstn k (c :: r)) = Some FS.Dir)
               /\ (forall q, (List.length q <= List.length done)%nat ->
                     FS.lookup fs1 q = FS.lookup fs q)).
    { intros fs0 H0 Hd Hf. destruct (IH _ _ _ H0) as (D & F). split.
      - intros k Hk. destruct k as [| k]; [lia |]. simpl.
        destruct k as [| k].
        + simpl. rewrite F by lia. exact Hd.
        + replace (done ++ c :: firstn (S k) r)
            with ((done ++ [c]) ++ firstn (S k) r)
            by (rewrite <- app_assoc; reflexivity).
          apply D. simpl in Hk. lia.
      - intros q Hq. rewrite F by lia. apply Hf. exact Hq. }
    destruct (FS.lookup fs (done ++ [c])) as [[t |] |] eqn:E.
    + discriminate.
    + apply (Step fs H E). reflexivity.
    + apply (Step _ H).
      * apply lookup_update_same. destruct done; discriminate.
      * intros q Hq. apply lookup_update_other. intro F. subst q. lia.
Qed.

Lemma last_app_last {A : Type} (l1 l2 : list A) (x d : A) :
  last (l1 ++ l2 ++ [x]) d = x.
Proof. rewrite app_assoc. apply last_last. Qed.

(** X9. [_save_state] makes the missing directories above the
    state file and then writes the file in place, without a temporary file
    and a rename: when it returns, the file holds the new text and every
    directory above it exists; the states that a stop of the process can
    leave end with this one, but among them is one where the state file is
    empty, which is neither the text before nor the text after. *)
Theorem save_state_in_place path state w w' :
  _save_state path state w = Some (Ok tt, w') ->
  FS.lookup (fs w') path = Some (FS.File (JsonText.dumps state ++ [10%N]))
  /\ (forall k, (0 < k < List.length path)%nat ->
        FS.lookup (fs w') (firstn k path) = Some FS.Dir)
  /\ last (Crash.save_states (fs w) path state) (fs w) = fs w'
  /\ exists mid, In mid (Crash.save_states (fs w) path state)
                 /\ FS.lookup mid path = Some (FS.File []).
Proof.
  unfold _save_state, Crash.save_states. intro H.
  destruct (FS.mkdir_parents (fs w) (FS.parent path)) as [fs1 | e] eqn:Em;
    [| inversion H].
  set (data := JsonText.dumps state ++ [10%N]) in *.
  destruct (FS.write_text fs1 path data) as [r fs2] eqn:W.
  inversion H; subst r w'; clear H. simpl fs.
  destruct (write_text_ok _ _ _ W) as (L & Enc).
  unfold FS.write_text in W. unfold Crash.write_states.
  destruct (FS.open_w fs1 path) as [fs1' | e] eqn:Eo; [| inversion W].
  rewrite Enc in *. inversion W; subst fs2; clear W.
  assert (Hp : path <> []).
  { intro E. subst path. unfold FS.open_w in Eo. simpl in Eo. discriminate. }
  assert (Eo' : fs1' = FS.update fs1 path (FS.File [])).
  { unfold FS.open_w in Eo.
    destruct (FS.lookup fs1 path) as [[t |] |];
      destruct (FS.lookup fs1 (FS.parent path)) as [[t' |] |];
      inversion Eo; reflexivity. }
  split; [exact L |]. split; [| split].
  - intros k Hk.
    assert (Hne : firstn k path <> path).
    { intro E. apply (f_equal (@List.length pystr)) in E.
      rewrite length_firstn in E. lia. }
    rewrite lookup_update_other by exact Hne.
    rewrite Eo'. rewrite lookup_update_other by exact Hne.
    destruct (mkdir_below_dirs _ _ _ Em) as (D & _).
    unfold FS.parent in D. rewrite removelast_firstn_len in D.
    specialize (D k). rewrite length_firstn in D.
    rewrite firstn_firstn in D. simpl in D.
    replace (Nat.min k (Init.Nat.pred (List.length path))) with k in D by lia.
    apply D. lia.
  - assert (Ld : exists m, List.length data = S m).
    { exists (List.length (JsonText.dumps state)). unfold data.
      rewrite length_app. simpl. lia. }
    destruct Ld as (m & Ld). rewrite Ld, seq_S, map_app.
    cbn [List.map]. change (1 + m)%nat with (S m). rewrite <- Ld, firstn_all.
    match goal with
    | |- last (?a :: ?mk ++ ?b :: ?M ++ [?X]) _ = _ =>
        exact (last_app_last (a :: mk) (b :: M) X _)
    end.
  - exists fs1'. split.
    + right. apply in_or_app. right. left. reflexivity.
    + rewrite Eo'. apply lookup_update_same. exact Hp.
Qed.

(** The statement of X9 at a first save, where the directories of the
    state file exist and the file does not. *)
Lemma save_state_in_place_witness :
  exists w',
    _save_state (state_file Example.settings) [(lit "last_ts", lit "1000.500000")]
      (Example.world_of Example.dirs [] []) = Some (Ok tt, w')
    /\ FS.lookup (fs w') (state_file Example.settings)
       = Some (FS.File (JsonText.dumps [(lit "last_ts", lit "1000.500000")]
                        ++ [10%N]))
    /\ (forall k, (0 < k < List.length (state_file Example.settings))%nat ->
          FS.lookup (fs w') (firstn k (state_file Example.settings)) = Some FS.Dir)
    /\ last (Crash.save_states Example.dirs (state_file Example.settings)
               [(lit "last_ts", lit "1000.500000")]) Example.dirs = fs w'
    /\ exists mid,
         In mid (Crash.save_states Example.dirs (state_file Example.settings)
                   [(lit "last_ts", lit "1000.500000")])
         /\ FS.lookup mid (state_file Example.settings) = Some (FS.File []).
Proof.
  eexists. split; [vm_compute; reflexivity |].
  apply (@save_state_in_place (state_file Example.settings)
           [(lit "last_ts", lit "1000.500000")]
           (Example.world_of Example.dirs [] [])).
  vm_compute. reflexivity.
Defined.

(* ================================================================== *)
(** * What a pass uses up and what it leaves *)

(** One call of [_create_issue] takes one answer of the tracker, sends one
    request and touches nothing else; it returns exactly when the answer is
    an accepted one. *)
Lemma create_issue_trace repo token title body labels w r w' :
  _create_issue repo token title body labels w = Some (r, w') ->
  fs w' = fs w /\ slack w' = slack w /\ history_log w' = history_log w
  /\ exists g q, github w = g :: github w' /\ posted w' = posted w ++ [q]
                 /\ is_ok r = accepted g.
Proof.
  unfold _create_issue. destruct (github w) as [| g rest]; [discriminate |].
  intro H.
  destruct g as [e | st]; [| destruct (300 <=? st)%Z eqn:E];
    inversion H; subst; simpl; repeat split; eexists; eexists;
    repeat split; simpl; try reflexivity.
  - symmetry. apply Z.ltb_ge. apply Z.leb_le. exact E.
  - symmetry. apply Z.ltb_lt. apply Z.leb_gt. exact E.
Qed.

Lemma loop_trace_stop n created w e : loop_trace n created w (Raise e) w.
Proof.
  repeat split. exists [], []. rewrite app_nil_r. simpl. repeat split; auto. lia.
Qed.

Lemma loop_trace_skip n created w r w' :
  loop_trace n created w r w' -> loop_trace (S n) created w r w'.
Proof.
  intros (F & S & L & used & sent & G & P & N & B & K).
  repeat split; auto. exists used, sent. repeat split; auto.
Qed.

Lemma loop_trace_failed n created w w' g q e :
  fs w' = fs w -> slack w' = slack w -> history_log w' = history_log w ->
  github w = g :: github w' -> posted w' = posted w ++ [q] ->
  loop_trace (S n) created w (Raise e) w'.
Proof.
  intros F S L G P. repeat split; auto. exists [g], [q]. simpl.
  repeat split; auto. lia.
Qed.

Lemma loop_trace_sent n created w w1 r w' g q :
  fs w1 = fs w -> slack w1 = slack w -> history_log w1 = history_log w ->
  github w = g :: github w1 -> posted w1 = posted w ++ [q] ->
  accepted g = true ->
  loop_trace n (S created) w1 r w' -> loop_trace (S n) created w r w'.
Proof.
  intros F S L G P K (F' & S' & L' & used & sent & G' & P' & N & B & K').
  repeat split; try congruence.
  exists (g :: used), (q :: sent). repeat split.
  - rewrite G, G'. reflexivity.
  - rewrite P', P, <- app_assoc. reflexivity.
  - simpl. lia.
  - simpl. lia.
  - destruct r as [[c' t'] | e].
    + destruct K' as [K1 K2]. split; [simpl; rewrite K, K1; reflexivity |].
      simpl. lia.
    + destruct used as [| u used]; [reflexivity |].
      change (removelast (g :: u :: used)) with (g :: removelast (u :: used)).
      simpl forallb. rewrite K. exact K'.
Qed.

Lemma process_messages_trace settings messages : forall created ts w r w',
  process_messages settings messages created ts w = Some (r, w') ->
  loop_trace (List.length messages) created w r w'.
Proof.
  induction messages as [| m rest IH]; intros created ts w r w' H; simpl in H.
  - apply ret_inv in H. destruct H; subst. repeat split.
    exists [], []. rewrite app_nil_r. simpl. repeat split; auto.
  - simpl List.length. step_in H.
    { apply lift_inv in Hm. destruct Hm; subst. apply loop_trace_stop. }
    apply lift_inv in Hm. destruct Hm as [_ ->].
    destruct (truthy a); [apply loop_trace_skip; eapply IH; exact Hk |].
    step_in Hk.
    { apply lift_inv in Hm. destruct Hm; subst. apply loop_trace_stop. }
    apply lift_inv in Hm. destruct Hm as [_ ->].
    step_in Hk0.
    { apply lift_inv in Hm. destruct Hm; subst. apply loop_trace_stop. }
    apply lift_inv in Hm. destruct Hm as [_ ->].
    destruct (negb (startswith a1 command_prefix));
      [apply loop_trace_skip; eapply IH; exact Hk |].
    step_in Hk.
    { apply lift_inv in Hm. destruct Hm; subst. apply loop_trace_stop. }
    apply lift_inv in Hm. destruct Hm as [_ ->]. destruct a2 as [title body].
    step_in Hk0.
    { destruct (create_issue_trace _ _ _ _ _ _ Hm) as (F & S & L & g & q & G & P & K).
      subst r. eapply loop_trace_failed; eauto. }
    destruct (create_issue_trace _ _ _ _ _ _ Hm) as (F & S & L & g & q & G & P & K).
    simpl in K. symmetry in K.
    step_in Hk.
    { apply lift_inv in Hm0. destruct Hm0; subst.
      eapply loop_trace_sent; eauto. apply loop_trace_stop. }
    apply lift_inv in Hm0. destruct Hm0 as [_ ->].
    step_in Hk0.
    { apply lift_inv in Hm0. destruct Hm0; subst.
      eapply loop_trace_sent; eauto. apply loop_trace_stop. }
    apply lift_inv in Hm0. destruct Hm0 as [_ ->].
    eapply loop_trace_sent; eauto.
Qed.

(* ================================================================== *)
(** * The order of the floats *)

Lemma ltb_before a b :
  PyFloat.ltb a b = true
  <-> PyFloat.is_nan a = false /\ PyFloat.is_nan b = false /\ before (rank a) (rank b).
Proof.
  unfold PyFloat.ltb, SFltb, SFcompare, before.
  destruct a as [[|] | [|] | | [|] ma ea], b as [[|] | [|] | | [|] mb eb];
    simpl; try (split; [discriminate | intros (? & ? & ?); try discriminate; lia]);
    try (split; [intros _; repeat split; lia | reflexivity]).
  - change (PosDef.Pos.compare_cont Eq ma mb) with (Pos.compare ma mb).
    destruct (Z.compare_spec ea eb) as [E | E | E];
      destruct (Pos.compare_spec ma mb) as [P | P | P]; simpl;
      (split; [try discriminate; intros _; repeat split; lia
              | intros (_ & _ & H); try reflexivity; lia]).
  - change (PosDef.Pos.compare_cont Eq ma mb) with (Pos.compare ma mb).
    destruct (Z.compare_spec ea eb) as [E | E | E];
      destruct (Pos.compare_spec ma mb) as [P | P | P]; simpl;
      (split; [try discriminate; intros _; repeat split; lia
              | intros (_ & _ & H); try reflexivity; lia]).
Qed.

Lemma ltb_trans a b c :
  PyFloat.ltb a b = true -> PyFloat.ltb b c = true -> PyFloat.ltb a c = true.
Proof.
  rewrite !ltb_before. unfold before.
  intros (Na & Nb & H1) (_ & Nc & H2). repeat split; auto. lia.
Qed.

Lemma ltb_asym a b : PyFloat.ltb a b = true -> PyFloat.ltb b a = false.
Proof.
  intro H. destruct (PyFloat.ltb b a) eqn:E; [| reflexivity].
  apply ltb_before in H. apply ltb_before in E. unfold before in *.
  destruct H as (_ & _ & H). destruct E as (_ & _ & E). lia.
Qed.

(** Among floats that are not NaN, "not below" is transitive. *)
Lemma not_ltb_trans a b c :
  PyFloat.is_nan b = false ->
  PyFloat.ltb b a = false -> PyFloat.ltb c b = false -> PyFloat.ltb c a = false.
Proof.
  intros Nb H1 H2. destruct (PyFloat.ltb c a) eqn:E; [| reflexivity].
  apply ltb_before in E. destruct E as (Nc & Na & E).
  assert (K1 : ~ before (rank b) (rank a)).
  { intro K. rewrite (proj2 (ltb_before b a)) in H1; [discriminate | auto]. }
  assert (K2 : ~ before (rank c) (rank b)).
  { intro K. rewrite (proj2 (ltb_before c b)) in H2; [discriminate | auto]. }
  unfold before in *. lia.
Qed.

(** [a <= b] is "[b] is not below [a]" for floats that are not NaN. *)
Lemma leb_not_ltb a b :
  PyFloat.is_nan a = false -> PyFloat.is_nan b = false ->
  PyFloat.leb a b = negb (PyFloat.ltb b a).
Proof.
  unfold PyFloat.leb, PyFloat.ltb, SFleb, SFltb, SFcompare.
  destruct a as [[|] | [|] | | [|] ma ea], b as [[|] | [|] | | [|] mb eb];
    simpl; try discriminate; try reflexivity; intros _ _;
    change (PosDef.Pos.compare_cont Eq ma mb) with (Pos.compare ma mb);
    change (PosDef.Pos.compare_cont Eq mb ma) with (Pos.compare mb ma);
    rewrite (Z.compare_antisym ea eb), (Pos.compare_antisym ma mb);
    destruct (ea ?= eb)%Z; simpl; try reflexivity;
    destruct (ma ?= mb)%positive; reflexivity.
Qed.

(* ================================================================== *)
(** * The steps of a pass, one by one *)

Lemma load_state_same path w r w' :
  _load_state path w = Some (r, w') -> w' = w.
Proof.
  unfold _load_state. destruct (negb (FS.exists_ (fs w) path));
    intro H; inversion H; reflexivity.
Qed.

Lemma loaded_cursor_same settings w r w' :
  loaded_cursor settings w = Some (r, w') -> w' = w.
Proof.
  unfold loaded_cursor. intro H. step_in H.
  - eapply load_state_same; eauto.
  - apply lift_inv in Hk. destruct Hk as [_ ->]. eapply load_state_same; eauto.
Qed.

Lemma fetch_trace token channel oldest w r w' :
  _fetch_new_messages token channel oldest w = Some (r, w') ->
  fs w' = fs w /\ github w' = github w /\ posted w' = posted w.
Proof.
  unfold _fetch_new_messages.
  destruct (fetch_pages channel oldest JNull [] (slack w) (history_log w))
    as [[[x rest] log] |]; [| discriminate].
  intro H. inversion H; subst. auto.
Qed.

Lemma save_state_trace path state w r w' :
  _save_state path state w = Some (r, w') ->
  slack w' = slack w /\ github w' = github w
  /\ history_log w' = history_log w /\ posted w' = posted w.
Proof.
  unfold _save_state.
  destruct (FS.mkdir_parents (fs w) (FS.parent path)) as [fs1 | e].
  - destruct (FS.write_text fs1 path (JsonText.dumps state ++ [10%N])) as [x fs2].
    intro H. inversion H; subst. auto.
  - intro H. inversion H; subst. auto.
Qed.

(** Splits a hypothesis on a bind that has returned. *)
Ltac ok_step H a w1 H1 H2 :=
  apply mbind_inv in H;
  destruct H as [(? & _ & ?) | (a & w1 & H1 & H2)]; [discriminate |].

(** Splits a hypothesis on a bind into its two cases. *)
Ltac any_step H e a w1 H1 H2 :=
  apply mbind_inv in H;
  destruct H as [(e & H1 & H2) | (a & w1 & H1 & H2)].

(** A pass that returns has gone through all of its steps. *)
Lemma run_sync_returns settings w stats w' :
  run_sync settings w = Some (Ok stats, w') ->
  exists oldest o messages w1 w2,
    loaded_cursor settings w = Some (Ok oldest, w)
    /\ to_float oldest = Ok o
    /\ _fetch_new_messages (slack_bot_token settings) (slack_channel_id settings)
         oldest w = Some (Ok messages, w1)
    /\ process_messages settings messages 0 o w1
       = Some (Ok (created_issues stats, last_timestamp stats), w2)
    /\ processed_messages stats = List.length messages
    /\ (if (0 <? created_issues stats)%nat
        then _save_state (state_file settings)
               [(lit "last_ts", PyFloat.fmt6 (last_timestamp stats))] w2
             = Some (Ok tt, w')
        else w' = w2).
Proof.
  rewrite run_sync_split. intro H.
  ok_step H oldest w0 Hl H. pose proof (loaded_cursor_same _ _ Hl) as E. subst w0.
  unfold pass_from in H.
  ok_step H messages w1 Hf H.
  ok_step H o w1' Ho H. apply lift_inv in Ho. destruct Ho as [Ho ->].
  ok_step H cp w2 Hp H. destruct cp as [created ts].
  ok_step H u w3 Hs H. apply ret_inv in H. destruct H as [Es ->].
  inversion Es; subst stats. simpl in *.
  exists oldest, o, messages, w1, w2. repeat split; auto.
  destruct (0 <? created)%nat.
  - destruct u. exact Hs.
  - apply ret_inv in Hs. destruct Hs as [_ ->]. reflexivity.
Qed.

(* ================================================================== *)
(** * The cursor file and the requests of a pass *)

(** X1. A pass writes to the file system only after the tracker has
    accepted every issue of the batch: whatever the outcome of [run_sync],
    either the file system is as it was, or the pass has used at least one
    answer of the tracker, every answer it used was a status below 300, and
    it has sent exactly one request for each. So a batch that fails at one
    of its issues leaves the cursor file where it was, with the earlier
    requests of the batch sent. *)
Theorem cursor_written_after_all_accepted settings w r w' :
  run_sync settings w = Some (r, w') ->
  fs w' = fs w
  \/ exists used,
       github w = used ++ github w' /\ used <> []
       /\ forallb accepted used = true
       /\ List.length (posted w') = (List.length (posted w) + List.length used)%nat.
Proof.
  rewrite run_sync_split. intro H.
  any_step H e oldest w0 Hl H.
  { left. rewrite (loaded_cursor_same _ _ Hl). reflexivity. }
  pose proof (loaded_cursor_same _ _ Hl) as E. subst w0. clear Hl.
  unfold pass_from in H. any_step H e messages w1 Hf H.
  { left. apply (fetch_trace _ _ _ _ Hf). }
  destruct (fetch_trace _ _ _ _ Hf) as (F1 & G1 & P1). clear Hf.
  any_step H e o w1' Ho H; apply lift_inv in Ho; destruct Ho as [_ ->].
  { left. exact F1. }
  any_step H e cp w2 Hp H.
  { left. destruct (process_messages_trace _ _ _ _ _ Hp) as (F2 & _).
    congruence. }
  destruct cp as [created ts].
  destruct (process_messages_trace _ _ _ _ _ Hp)
    as (F2 & _ & _ & used & sent & G2 & P2 & N & _ & K1 & K2).
  clear Hp. simpl fst in H. simpl snd in H.
  assert (T : exists r0,
             (if (0 <? created)%nat
              then _save_state (state_file settings) [(lit "last_ts", PyFloat.fmt6 ts)]
              else ret tt) w2 = Some (r0, w')).
  { any_step H e u w3 Hs H; [eauto |].
    apply ret_inv in H. destruct H as [_ ->]. eauto. }
  destruct T as (r0 & S).
  destruct (0 <? created)%nat eqn:C.
  - apply Nat.ltb_lt in C.
    destruct (save_state_trace _ _ _ S) as (_ & G4 & _ & P4).
    right. exists used. repeat split.
    + congruence.
    + intro U. subst used. simpl in K2. lia.
    + exact K1.
    + rewrite P4, P2, length_app, P1. lia.
  - apply ret_inv in S. destruct S as [_ ->]. left. congruence.
Qed.

(** The statement of X1 at a batch of two commands of which the tracker
    refuses the second. *)
Lemma cursor_written_after_all_accepted_witness :
  exists r w',
    run_sync Example.settings
      (Example.world_of (Example.disk "{'last_ts': '1000.000000'}")
         [Example.page [Example.message "1000.500000" "/codex fix the build";
                        Example.message "1000.700000" "/codex deploy"]]
         [GithubStatus 201; GithubStatus 500]) = Some (r, w')
    /\ (fs w' = Example.disk "{'last_ts': '1000.000000'}"
        \/ exists used,
             [GithubStatus 201; GithubStatus 500] = used ++ github w' /\ used <> []
             /\ forallb accepted used = true
             /\ List.length (posted w') = (0 + List.length used)%nat).
Proof.
  eexists. eexists. split; [vm_compute; reflexivity |].
  eapply (cursor_written_after_all_accepted Example.settings
           (Example.world_of (Example.disk "{'last_ts': '1000.000000'}")
              [Example.page [Example.message "1000.500000" "/codex fix the build";
                             Example.message "1000.700000" "/codex deploy"]]
              [GithubStatus 201; GithubStatus 500])).
  vm_compute. reflexivity.
Defined.

(** X2. The count of created issues that a pass reports is the number of
    requests it has sent, and it is at most the number of messages the pass
    reports as processed; a pass that reports no created issue has left the
    file system as it was. *)
Theorem created_issues_counts_requests settings w stats w' :
  run_sync settings w = Some (Ok stats, w') ->
  exists sent,
    posted w' = posted w ++ sent
    /\ List.length sent = created_issues stats
    /\ (created_issues stats <= processed_messages stats)%nat
    /\ (created_issues stats = 0%nat -> fs w' = fs w).
Proof.
  intro H. apply run_sync_returns in H.
  destruct H as (oldest & o & messages & w1 & w2 & _ & _ & Hf & Hp & Hn & Hs).
  destruct (fetch_trace _ _ _ _ Hf) as (F1 & _ & P1).
  destruct (process_messages_trace _ _ _ _ _ Hp)
    as (F2 & _ & _ & used & sent & _ & P2 & N & B & _ & K).
  simpl in K.
  assert (P3 : posted w' = posted w2
               /\ (created_issues stats = 0%nat -> fs w' = fs w2)).
  { destruct (0 <? created_issues stats)%nat eqn:C.
    - apply Nat.ltb_lt in C. split; [| lia].
      apply (save_state_trace _ _ _ Hs).
    - subst w'. auto. }
  destruct P3 as (P3 & F3).
  exists sent. repeat split.
  - congruence.
  - lia.
  - lia.
  - intro Z. rewrite (F3 Z). congruence.
Qed.

(** The statement of X2 at a pass over three messages, two of them
    commands. *)
Lemma created_issues_counts_requests_witness :
  exists stats w',
    run_sync Example.settings
      (Example.world_of (Example.disk "{'last_ts': '1000.000000'}")
         [Example.page [Example.message "1000.500000" "/codex fix the build";
                        Example.message "1000.600000" "hello";
                        Example.message "1000.700000" "/codex deploy"]]
         [GithubStatus 201; GithubStatus 201]) = Some (Ok stats, w')
    /\ exists sent,
         posted w' = [] ++ sent
         /\ List.length sent = created_issues stats
         /\ (created_issues stats <= processed_messages stats)%nat
         /\ (created_issues stats = 0%nat
             -> fs w' = Example.disk "{'last_ts': '1000.000000'}").
Proof.
  eexists. eexists. split; [vm_compute; reflexivity |].
  eapply (created_issues_counts_requests Example.settings
            (Example.world_of (Example.disk "{'last_ts': '1000.000000'}")
               [Example.page [Example.message "1000.500000" "/codex fix the build";
                              Example.message "1000.600000" "hello";
                              Example.message "1000.700000" "/codex deploy"]]
               [GithubStatus 201; GithubStatus 201])).
  vm_compute. reflexivity.
Defined.

(* ================================================================== *)
(** * The marker of a pass *)

Lemma ltb_irrefl a : PyFloat.ltb a a = false.
Proof.
  destruct (PyFloat.ltb a a) eqn:E; [| reflexivity].
  rewrite (ltb_asym _ _ E) in E. discriminate.
Qed.

Lemma ltb_nan_r a b : PyFloat.is_nan b = true -> PyFloat.ltb a b = false.
Proof.
  intro N. destruct (PyFloat.ltb a b) eqn:E; [| reflexivity].
  apply ltb_before in E. destruct E as (_ & Nb & _). congruence.
Qed.

Lemma max_cases a b :
  PyFloat.max a b = a \/ (PyFloat.max a b = b /\ PyFloat.ltb a b = true).
Proof.
  unfold PyFloat.max, PyFloat.gtb. fold (PyFloat.ltb a b).
  destruct (PyFloat.ltb a b); auto.
Qed.

Lemma max_not_below a b : PyFloat.ltb (PyFloat.max a b) a = false.
Proof.
  destruct (max_cases a b) as [-> | (-> & H)];
    [apply ltb_irrefl | apply ltb_asym; exact H].
Qed.

Lemma max_not_nan a b :
  PyFloat.is_nan a = false -> PyFloat.is_nan (PyFloat.max a b) = false.
Proof.
  intro N. destruct (max_cases a b) as [-> | (-> & H)]; [exact N |].
  apply ltb_before in H. tauto.
Qed.

Lemma is_finite_not_nan a : PyFloat.is_finite a = true -> PyFloat.is_nan a = false.
Proof. destruct a; simpl; congruence. Qed.

Lemma gmtime_seconds_finite x t :
  gmtime_seconds x = Ok t -> PyFloat.is_finite x = true.
Proof.
  unfold gmtime_seconds. destruct x as [s | s | | s m e]; simpl; try discriminate;
    reflexivity.
Qed.

(** When the formatter returns, the marker of the message, or "0" when it
    has none, is a float that [time.gmtime] takes. *)
Lemma format_issue_ts message channel tb :
  _format_issue message channel = Ok tb ->
  exists ts x t,
    any_get message (lit "ts") (JStr (lit "0")) = Ok ts
    /\ to_float ts = Ok x /\ gmtime_seconds x = Ok t.
Proof.
  unfold _format_issue. intro H.
  destruct (any_get message (lit "text") (JStr [])) as [t0 |]; [| discriminate].
  cbn [bind] in H.
  destruct (any_strip t0) as [text |]; [| discriminate]. cbn [bind] in H.
  destruct (any_get message (lit "user") (JStr (lit "unknown"))) as [user |];
    [| discriminate].
  cbn [bind] in H.
  destruct (any_get message (lit "ts") (JStr (lit "0"))) as [ts |] eqn:G;
    [| discriminate].
  cbn [bind] in H.
  destruct (to_float ts) as [x |] eqn:T; [| discriminate]. cbn [bind] in H.
  destruct (gmtime_seconds x) as [t |] eqn:S; [| discriminate].
  exists ts, x, t. auto.
Qed.

(** The float that the loop takes for a message that became an issue is
    finite, or it is the marker that the loop had. *)
Lemma loop_marker_step message channel tb p ts f :
  _format_issue message channel = Ok tb ->
  any_get message (lit "ts") (JFloat p) = Ok ts ->
  to_float ts = Ok f ->
  f = p \/ PyFloat.is_finite f = true.
Proof.
  intros Hf Hg Ht. destruct (format_issue_ts _ _ Hf) as (ts1 & x & t & G & T & S).
  destruct message as [| | | | | | d]; try discriminate.
  unfold any_get, get_default in *.
  destruct (Json.lookup d (lit "ts")) as [v |].
  - right. inversion G; inversion Hg; subst. rewrite Ht in T. inversion T; subst.
    eapply gmtime_seconds_finite; eauto.
  - left. inversion Hg; subst. simpl in Ht. congruence.
Qed.

(** The marker of the loop never goes below the marker it started with,
    and it stays a number, and finite, when it was. *)
Lemma process_messages_marker settings messages : forall created ts w c' ts' w',
  process_messages settings messages created ts w = Some (Ok (c', ts'), w') ->
  PyFloat.ltb ts' ts = false
  /\ (PyFloat.is_nan ts = false -> PyFloat.is_nan ts' = false)
  /\ (PyFloat.is_finite ts = true -> PyFloat.is_finite ts' = true).
Proof.
  induction messages as [| m rest IH]; intros created ts w c' ts' w' H; simpl in H.
  - apply ret_inv in H. destruct H as [E _]. inversion E; subst.
    split; [apply ltb_irrefl | auto].
  - ok_step H subtype w1 Hs H.
    destruct (truthy subtype); [eapply IH; exact H |].
    ok_step H t w2 Ht H. ok_step H txt w3 Hx H.
    destruct (negb (startswith txt command_prefix)); [eapply IH; exact H |].
    ok_step H tb w4 Hf H. apply lift_inv in Hf. destruct Hf as [Hf _].
    destruct tb as [title body].
    ok_step H u w5 Hc H. ok_step H v w6 Hv H. apply lift_inv in Hv.
    destruct Hv as [Hv _].
    ok_step H f w7 Hy H. apply lift_inv in Hy. destruct Hy as [Hy _].
    destruct (IH _ _ _ _ _ _ H) as (L & N & F).
    pose proof (loop_marker_step _ _ _ (eq_sym Hf) (eq_sym Hv) (eq_sym Hy)) as Step.
    repeat split.
    + destruct (PyFloat.is_nan ts) eqn:Nt; [apply ltb_nan_r; exact Nt |].
      apply (not_ltb_trans ts (PyFloat.max ts f) ts');
        [apply max_not_nan; exact Nt | apply max_not_below | exact L].
    + intro Nt. apply N. apply max_not_nan. exact Nt.
    + intro Ft. apply F.
      destruct (max_cases ts f) as [-> | (-> & _)]; [exact Ft |].
      destruct Step as [-> | Step]; auto.
Qed.

(** X3. The marker that a pass reports is never below the cursor that the
    pass loaded, both taken as floats: [last_timestamp < float(oldest)] is
    false, and when the float of the cursor is a number,
    [float(oldest) <= last_timestamp] holds. *)
Theorem marker_not_below_cursor settings w stats w' :
  run_sync settings w = Some (Ok stats, w') ->
  exists oldest o,
    loaded_cursor settings w = Some (Ok oldest, w)
    /\ to_float oldest = Ok o
    /\ PyFloat.ltb (last_timestamp stats) o = false
    /\ (PyFloat.is_nan o = false -> PyFloat.leb o (last_timestamp stats) = true).
Proof.
  intro H. apply run_sync_returns in H.
  destruct H as (oldest & o & messages & w1 & w2 & Hl & Ho & _ & Hp & _).
  destruct (process_messages_marker _ _ _ _ _ Hp) as (L & N & _).
  exists oldest, o. repeat split; auto.
  intro No. rewrite leb_not_ltb by auto. rewrite L. reflexivity.
Qed.

(** The statement of X3 at a pass over two commands that the backend gave
    newest first. *)
Lemma marker_not_below_cursor_witness :
  exists stats w',
    run_sync Example.settings
      (Example.world_of (Example.disk "{'last_ts': '1000.000000'}")
         [Example.page [Example.message "1000.700000" "/codex deploy";
                        Example.message "1000.500000" "/codex fix the build"]]
         [GithubStatus 201; GithubStatus 201]) = Some (Ok stats, w')
    /\ exists oldest o,
         loaded_cursor Example.settings
           (Example.world_of (Example.disk "{'last_ts': '1000.000000'}")
              [Example.page [Example.message "1000.700000" "/codex deploy";
                             Example.message "1000.500000" "/codex fix the build"]]
              [GithubStatus 201; GithubStatus 201])
         = Some (Ok oldest,
                 Example.world_of (Example.disk "{'last_ts': '1000.000000'}")
                   [Example.page [Example.message "1000.700000" "/codex deploy";
                                  Example.message "1000.500000" "/codex fix the build"]]
                   [GithubStatus 201; GithubStatus 201])
         /\ to_float oldest = Ok o
         /\ PyFloat.ltb (last_timestamp stats) o = false
         /\ (PyFloat.is_nan o = false -> PyFloat.leb o (last_timestamp stats) = true).
Proof.
  eexists. eexists. split; [vm_compute; reflexivity |].
  eapply (marker_not_below_cursor Example.settings
            (Example.world_of (Example.disk "{'last_ts': '1000.000000'}")
               [Example.page [Example.message "1000.700000" "/codex deploy";
                              Example.message "1000.500000" "/codex fix the build"]]
               [GithubStatus 201; GithubStatus 201])).
  vm_compute. reflexivity.
Defined.

(** X4. When the cursor that a pass loaded is a finite float, the marker
    that the pass reports is a finite float: no marker of a message can
    make it infinite or NaN, because the formatter raises on such a marker
    before the issue is sent. *)
Theorem marker_stays_finite settings w stats w' oldest o :
  run_sync settings w = Some (Ok stats, w') ->
  loaded_cursor settings w = Some (Ok oldest, w) ->
  to_float oldest = Ok o ->
  PyFloat.is_finite o = true ->
  PyFloat.is_finite (last_timestamp stats) = true.
Proof.
  intros H Hl Ho Fo. apply run_sync_returns in H.
  destruct H as (oldest' & o' & messages & w1 & w2 & Hl' & Ho' & _ & Hp & _).
  rewrite Hl in Hl'. inversion Hl'; subst oldest'.
  rewrite Ho in Ho'. inversion Ho'; subst o'.
  apply (process_messages_marker _ _ _ _ _ Hp). exact Fo.
Qed.

(** The statement of X4 at a pass over one command. *)
Lemma marker_stays_finite_witness :
  exists stats w',
    run_sync Example.settings
      (Example.world_of (Example.disk "{'last_ts': '1000.000000'}")
         [Example.page [Example.message "1000.500000" "/codex fix the build"]]
         [GithubStatus 201]) = Some (Ok stats, w')
    /\ PyFloat.is_finite (last_timestamp stats) = true.
Proof.
  eexists. eexists. split; [vm_compute; reflexivity |].
  eapply (@marker_stays_finite Example.settings
            (Example.world_of (Example.disk "{'last_ts': '1000.000000'}")
               [Example.page [Example.message "1000.500000" "/codex fix the build"]]
               [GithubStatus 201])).
  - vm_compute. reflexivity.
  - vm_compute. reflexivity.
  - vm_compute. reflexivity.
  - vm_compute. reflexivity.
Defined.

(* ================================================================== *)
(** * The text of a marker *)

Lemma of_uint_digits u : forallb isdigit (of_uint u) = true.
Proof. induction u; simpl; auto. Qed.

Lemma of_N_nonempty n : of_N n <> [].
Proof.
  unfold of_N. destruct n as [| p]; [discriminate |]. simpl.
  pose proof (Unsigned.to_uint_nonnil p) as H.
  destruct (Pos.to_uint p); simpl; try discriminate. contradiction.
Qed.

Lemma digit_char d : (d < 10)%N -> isdigit (48 + d) = true.
Proof.
  intro H. unfold isdigit. apply andb_true_iff. split; apply N.leb_le; lia.
Qed.

Lemma six_digits_digits n : forallb isdigit (PyFloat.six_digits n) = true.
Proof.
  unfold PyFloat.six_digits. cbn [forallb].
  rewrite !digit_char by (apply N.mod_lt; discriminate). reflexivity.
Qed.

(** X5. The text that ["%.6f"] gives for a finite float is an optional
    minus sign, at least one digit, a point, and exactly six digits. *)
Theorem fmt6_six_fraction_digits x :
  PyFloat.is_finite x = true ->
  exists neg whole fraction,
    PyFloat.fmt6 x = PyFloat.sign_str neg ++ whole ++ [46%N] ++ fraction
    /\ whole <> [] /\ forallb isdigit whole = true
    /\ List.length fraction = 6%nat /\ forallb isdigit fraction = true.
Proof.
  destruct x as [s | s | | s m e]; try discriminate; intros _.
  - exists s, (lit "0"), (lit "000000"). repeat split. discriminate.
  - exists s, (of_N (Z.to_N (PyFloat.scaled6 m e) / 1000000)),
      (PyFloat.six_digits (Z.to_N (PyFloat.scaled6 m e) mod 1000000)).
    repeat split.
    + apply of_N_nonempty.
    + apply of_uint_digits.
    + apply six_digits_digits.
Qed.

(** The statement of X5 at the float of 1000.5. *)
Lemma fmt6_six_fraction_digits_witness :
  exists neg whole fraction,
    lit "1000.500000" = PyFloat.sign_str neg ++ whole ++ [46%N] ++ fraction
    /\ whole <> [] /\ forallb isdigit whole = true
    /\ List.length fraction = 6%nat /\ forallb isdigit fraction = true.
Proof.
  apply (fmt6_six_fraction_digits (S754_finite false 2001 (-1))). reflexivity.
Defined.

(* ================================================================== *)
(** * From one pass to the next *)

(** After a save that returned, the state file holds the text of the state
    and a load gives the dict of the state. *)
Lemma saved_cursor_loads path s w w' :
  _save_state path [(lit "last_ts", s)] w = Some (Ok tt, w') ->
  FS.lookup (fs w') path
  = Some (FS.File (JsonText.dumps [(lit "last_ts", s)] ++ [10%N]))
  /\ _load_state path w' = Some (Ok (JDict [(lit "last_ts", JStr s)]), w').
Proof.
  unfold _save_state. intro H.
  destruct (FS.mkdir_parents (fs w) (FS.parent path)) as [fs1 | e]; [| inversion H].
  destruct (FS.write_text fs1 path (JsonText.dumps [(lit "last_ts", s)] ++ [10%N]))
    as [r fs2] eqn:W.
  inversion H; subst; clear H.
  destruct (write_text_ok _ _ _ W) as (L & _). split; [exact L |].
  unfold _load_state, FS.exists_, FS.read_text, with_fs. cbn [fs]. rewrite L.
  cbn [negb]. cbv iota.
  rewrite translate_dumps_cursor. cbn [bind]. rewrite loads_dumps_cursor.
  reflexivity.
Qed.

(** X6. A pass that created an issue leaves the six-decimal text of the
    marker it reports in the state file, and the next pass loads exactly
    that text as its cursor. *)
Theorem advanced_cursor_is_loaded_next settings w stats w' :
  run_sync settings w = Some (Ok stats, w') ->
  (0 < created_issues stats)%nat ->
  FS.lookup (fs w') (state_file settings)
  = Some (FS.File (JsonText.dumps
                     [(lit "last_ts", PyFloat.fmt6 (last_timestamp stats))]
                   ++ [10%N]))
  /\ loaded_cursor settings w'
     = Some (Ok (JStr (PyFloat.fmt6 (last_timestamp stats))), w').
Proof.
  intros H C. apply run_sync_returns in H.
  destruct H as (oldest & o & messages & w1 & w2 & _ & _ & _ & _ & _ & Hs).
  apply Nat.ltb_lt in C. rewrite C in Hs.
  destruct (saved_cursor_loads _ _ _ Hs) as (L & Ld). split; [exact L |].
  unfold loaded_cursor, mbind. rewrite Ld. reflexivity.
Qed.

(** The statement of X6 at a pass over one command. *)
Lemma advanced_cursor_is_loaded_next_witness :
  exists stats w',
    run_sync Example.settings
      (Example.world_of (Example.disk "{'last_ts': '1000.000000'}")
         [Example.page [Example.message "1000.500000" "/codex fix the build"]]
         [GithubStatus 201]) = Some (Ok stats, w')
    /\ (0 < created_issues stats)%nat
    /\ FS.lookup (fs w') (state_file Example.settings)
       = Some (FS.File (JsonText.dumps
                          [(lit "last_ts", PyFloat.fmt6 (last_timestamp stats))]
                        ++ [10%N]))
    /\ loaded_cursor Example.settings w'
       = Some (Ok (JStr (PyFloat.fmt6 (last_timestamp stats))), w').
Proof.
  eexists. eexists. split; [vm_compute; reflexivity |].
  split; [vm_compute; lia |].
  eapply (advanced_cursor_is_loaded_next Example.settings
            (Example.world_of (Example.disk "{'last_ts': '1000.000000'}")
               [Example.page [Example.message "1000.500000" "/codex fix the build"]]
               [GithubStatus 201])).
  - vm_compute. reflexivity.
  - vm_compute. lia.
Defined.





(** X8. A state file whose text is JSON but not an object stops the pass
    at its second line: [state.get] raises AttributeError before anything
    is fetched, sent or written. *)
Theorem state_not_object_raises settings w v :
  _load_state (state_file settings) w = Some (Ok v, w) ->
  (forall d, v <> JDict d) ->
  run_sync settings w = Some (Raise AttributeError, w).
Proof.
  intros Hl Hv. unfold run_sync, mbind at 1. rewrite Hl.
  unfold mbind at 1, lift at 1.
  destruct v; try reflexivity. exfalso. eapply Hv. reflexivity.
Qed.

(** The statement of X8 at a state file that holds a JSON list. *)
Lemma state_not_object_raises_witness :
  run_sync Example.settings
    (Example.world_of (Example.disk "['1000.000000']")
       [Example.page [Example.message "1000.500000" "/codex fix the build"]]
       [GithubStatus 201])
  = Some (Raise AttributeError,
          Example.world_of (Example.disk "['1000.000000']")
            [Example.page [Example.message "1000.500000" "/codex fix the build"]]
            [GithubStatus 201]).
Proof.
  eapply (@state_not_object_raises Example.settings
            (Example.world_of (Example.disk "['1000.000000']")
               [Example.page [Example.message "1000.500000" "/codex fix the build"]]
               [GithubStatus 201])).
  - vm_compute. reflexivity.
  - intros d E. discriminate E.
Defined.

(* ================================================================== *)
(** * The sort and the filter of the fetched messages *)

Lemma keyed_map items kl : keyed items = Ok kl -> List.map snd kl = items.
Proof.
  revert kl. induction items as [| m r IH]; intros kl H; simpl in H.
  - inversion H. reflexivity.
  - destruct (ts_key m) as [k |]; [| discriminate]. cbn [bind] in H.
    destruct (keyed r) as [kr |]; [| discriminate]. cbn [bind] in H.
    inversion H; subst. simpl. rewrite (IH kr); reflexivity.
Qed.

Lemma keyed_keys items kl :
  keyed items = Ok kl -> Forall (fun x => ts_key (snd x) = Ok (fst x)) kl.
Proof.
  revert kl. induction items as [| m r IH]; intros kl H; simpl in H.
  - inversion H. constructor.
  - destruct (ts_key m) as [k |] eqn:K; [| discriminate]. cbn [bind] in H.
    destruct (keyed r) as [kr |]; [| discriminate]. cbn [bind] in H.
    inversion H; subst. constructor; [exact K | apply IH; reflexivity].
Qed.

Lemma keyed_of_keys kl :
  Forall (fun x => ts_key (snd x) = Ok (fst x)) kl ->
  keyed (List.map snd kl) = Ok kl.
Proof.
  induction 1 as [| [k m] l K _ IH]; simpl; [reflexivity |].
  simpl in K. rewrite K. cbn [bind]. rewrite IH. reflexivity.
Qed.

Lemma insert_perm x l : Permutation (x :: l) (insert x l).
Proof.
  induction l as [| y r IH]; simpl; [apply Permutation_refl |].
  destruct (PyFloat.ltb (fst y) (fst x)); [| apply Permutation_refl].
  eapply perm_trans; [apply perm_swap |]. apply perm_skip. exact IH.
Qed.

Lemma sort_keyed_perm l : Permutation l (sort_keyed l).
Proof.
  induction l as [| x r IH]; simpl; [constructor |].
  eapply perm_trans; [apply perm_skip; exact IH | apply insert_perm].
Qed.

(** X10. The sort of the fetched messages loses nothing and invents
    nothing: when it returns, its result is a rearrangement of the messages
    it was given. *)
Theorem sort_by_ts_permutation items sorted :
  sort_by_ts items = Ok sorted -> Permutation items sorted.
Proof.
  unfold sort_by_ts. destruct (keyed items) as [kl |] eqn:K; [| discriminate].
  cbn [bind]. intro H. inversion H; subst.
  rewrite <- (keyed_map _ K). apply Permutation_map. apply sort_keyed_perm.
Qed.

(** The statement of X10 at two messages that come newest first. *)
Lemma sort_by_ts_permutation_witness :
  exists sorted,
    sort_by_ts [Example.message "1000.700000" "/codex deploy";
                Example.message "1000.500000" "/codex fix the build"] = Ok sorted
    /\ Permutation [Example.message "1000.700000" "/codex deploy";
                    Example.message "1000.500000" "/codex fix the build"] sorted.
Proof.
  eexists. split; [vm_compute; reflexivity |].
  apply (@sort_by_ts_permutation
           [Example.message "1000.700000" "/codex deploy";
            Example.message "1000.500000" "/codex fix the build"]).
  vm_compute. reflexivity.
Defined.

Lemma insert_forall (P : PyFloat.float * json -> Prop) x l :
  P x -> Forall P l -> Forall P (insert x l).
Proof.
  intros Hx Hl. eapply Permutation_Forall; [apply insert_perm |].
  constructor; assumption.
Qed.

Lemma sort_keyed_forall (P : PyFloat.float * json -> Prop) l :
  Forall P l -> Forall P (sort_keyed l).
Proof. intro H. eapply Permutation_Forall; [apply sort_keyed_perm | exact H]. Qed.

Lemma insert_ascending x l :
  PyFloat.is_nan (fst x) = false ->
  Forall (fun y => PyFloat.is_nan (fst y) = false) l ->
  ascending l -> ascending (insert x l).
Proof.
  unfold ascending. intros Nx Nl S. induction S as [| y r S IH F]; simpl.
  - constructor; constructor.
  - inversion Nl as [| ? ? Ny Nr]; subst.
    destruct (PyFloat.ltb (fst y) (fst x)) eqn:E.
    + constructor; [apply IH; exact Nr |].
      apply insert_forall; [apply ltb_asym; exact E | exact F].
    + constructor; [constructor; assumption |].
      constructor; [exact E |].
      eapply Forall_impl; [| apply (Forall_and F Nr)].
      intros z [Hz Nz]. cbv beta in *.
      apply (not_ltb_trans (fst x) (fst y) (fst z)); assumption.
Qed.

Lemma sort_keyed_ascending l :
  Forall (fun y => PyFloat.is_nan (fst y) = false) l -> ascending (sort_keyed l).
Proof.
  induction 1 as [| x r Nx Nr IH]; simpl; [constructor |].
  apply insert_ascending; [exact Nx | apply sort_keyed_forall; exact Nr | exact IH].
Qed.

Lemma not_nan_key m k :
  ts_key m <> Ok PyFloat.nan -> ts_key m = Ok k -> PyFloat.is_nan k = false.
Proof. intros H K. destruct k; try reflexivity. contradiction. Qed.

Lemma keyed_not_nan items kl :
  keyed items = Ok kl ->
  Forall (fun m => ts_key m <> Ok PyFloat.nan) items ->
  Forall (fun x => PyFloat.is_nan (fst x) = false) kl.
Proof.
  intros K H. pose proof (keyed_keys _ K) as Ks.
  rewrite <- (keyed_map _ K) in H. clear K.
  induction Ks as [| x l Kx _ IH]; [constructor |].
  inversion H; subst. constructor; [| apply IH; assumption].
  eapply not_nan_key; eauto.
Qed.

(** X11. When no key is NaN, the sort leaves the messages in ascending
    order of [float(ts)]: in its result no message has a key below the key
    of a message that stands before it. *)
Theorem sort_by_ts_ascending items sorted :
  sort_by_ts items = Ok sorted ->
  Forall (fun m => ts_key m <> Ok PyFloat.nan) items ->
  exists ks, keyed sorted = Ok ks /\ ascending ks.
Proof.
  unfold sort_by_ts. destruct (keyed items) as [kl |] eqn:K; [| discriminate].
  cbn [bind]. intros H N. inversion H; subst. exists (sort_keyed kl). split.
  - apply keyed_of_keys. apply sort_keyed_forall. eapply keyed_keys; eauto.
  - apply sort_keyed_ascending. eapply keyed_not_nan; eauto.
Qed.

(** The statement of X11 at three messages that come newest first. *)
Lemma sort_by_ts_ascending_witness :
  exists sorted,
    sort_by_ts [Example.message "1000.700000" "/codex deploy";
                Example.message "1000.600000" "hello";
                Example.message "1000.500000" "/codex fix the build"] = Ok sorted
    /\ exists ks, keyed sorted = Ok ks /\ ascending ks.
Proof.
  eexists. split; [vm_compute; reflexivity |].
  apply (@sort_by_ts_ascending
           [Example.message "1000.700000" "/codex deploy";
            Example.message "1000.600000" "hello";
            Example.message "1000.500000" "/codex fix the build"]).
  - vm_compute. reflexivity.
  - repeat constructor; vm_compute; discriminate.
Defined.

Lemma same_key_below k x y :
  PyFloat.is_nan k = false -> PyFloat.is_nan x = false ->
  same_key k x = true -> PyFloat.ltb y x = true -> same_key k y = false.
Proof.
  unfold same_key. intros Nk Nx S L.
  apply andb_true_iff in S. destruct S as [S1 S2].
  apply negb_true_iff in S1. apply negb_true_iff in S2.
  destruct (PyFloat.ltb y k) eqn:E; [rewrite andb_false_r; reflexivity |].
  (* y is not below k, k is not below x: y is not below x *)
  rewrite (not_ltb_trans x k y Nk S1 E) in L. discriminate.
Qed.

Lemma filter_insert k x l :
  PyFloat.is_nan k = false -> PyFloat.is_nan (fst x) = false ->
  filter (fun y => same_key k (fst y)) (insert x l)
  = filter (fun y => same_key k (fst y)) (x :: l).
Proof.
  intros Nk Nx. induction l as [| y r IH]; [reflexivity |].
  simpl insert. destruct (PyFloat.ltb (fst y) (fst x)) eqn:E; [| reflexivity].
  cbn [filter] in *. rewrite IH.
  destruct (same_key k (fst x)) eqn:Sx; [| reflexivity].
  rewrite (same_key_below k (fst x) (fst y) Nk Nx Sx E). reflexivity.
Qed.

Lemma filter_sort_keyed k l :
  PyFloat.is_nan k = false ->
  Forall (fun y => PyFloat.is_nan (fst y) = false) l ->
  filter (fun y => same_key k (fst y)) (sort_keyed l)
  = filter (fun y => same_key k (fst y)) l.
Proof.
  intros Nk. induction 1 as [| x r Nx Nr IH]; [reflexivity |].
  simpl sort_keyed. rewrite filter_insert by assumption. cbn [filter].
  rewrite IH. reflexivity.
Qed.

Lemma filter_map_snd k kl :
  Forall (fun x => ts_key (snd x) = Ok (fst x)) kl ->
  filter (has_key k) (List.map snd kl)
  = List.map snd (filter (fun y => same_key k (fst y)) kl).
Proof.
  induction 1 as [| x l Kx _ IH]; [reflexivity |].
  simpl. unfold has_key at 1. rewrite Kx.
  destruct (same_key k (fst x)); simpl; rewrite IH; reflexivity.
Qed.

(** X12. The sort is stable: when no key is NaN, the messages whose key is
    neither below nor above a given float stand in the result in the order
    in which they were given. *)
Theorem sort_by_ts_stable items sorted k :
  sort_by_ts items = Ok sorted ->
  Forall (fun m => ts_key m <> Ok PyFloat.nan) items ->
  PyFloat.is_nan k = false ->
  filter (has_key k) sorted = filter (has_key k) items.
Proof.
  unfold sort_by_ts. destruct (keyed items) as [kl |] eqn:K; [| discriminate].
  cbn [bind]. intros H N Nk. inversion H; subst.
  rewrite <- (keyed_map _ K).
  rewrite !filter_map_snd.
  - rewrite filter_sort_keyed; [reflexivity | exact Nk |].
    eapply keyed_not_nan; eauto.
  - eapply keyed_keys; eauto.
  - apply sort_keyed_forall. eapply keyed_keys; eauto.
Qed.

(** The statement of X12 at two messages of one marker that come after a
    newer one. *)
Lemma sort_by_ts_stable_witness :
  exists sorted k,
    sort_by_ts [Example.message "1000.700000" "/codex deploy";
                Example.message "1000.500000" "/codex first";
                Example.message "1000.500000" "/codex second"] = Ok sorted
    /\ ts_key (Example.message "1000.500000" "/codex first") = Ok k
    /\ filter (has_key k) sorted
       = [Example.message "1000.500000" "/codex first";
          Example.message "1000.500000" "/codex second"].
Proof.
  eexists. eexists. split; [vm_compute; reflexivity |].
  split; [vm_compute; reflexivity |].
  rewrite (@sort_by_ts_stable
             [Example.message "1000.700000" "/codex deploy";
              Example.message "1000.500000" "/codex first";
              Example.message "1000.500000" "/codex second"]).
  - vm_compute. reflexivity.
  - vm_compute. reflexivity.
  - repeat constructor; vm_compute; discriminate.
  - vm_compute. reflexivity.
Defined.

Lemma newer_than_filter oldest messages kept :
  newer_than oldest messages = Ok kept -> kept = filter (newer oldest) messages.
Proof.
  revert kept. induction messages as [| m r IH]; intros kept H; simpl in H.
  - inversion H. reflexivity.
  - destruct (ts_key m) as [k |] eqn:K; [| discriminate]. cbn [bind] in H.
    destruct (to_float oldest) as [o |] eqn:O; [| discriminate]. cbn [bind] in H.
    destruct (newer_than oldest r) as [kr |]; [| discriminate]. cbn [bind] in H.
    assert (E : newer oldest m = PyFloat.gtb k o).
    { unfold newer. rewrite K, O. reflexivity. }
    cbn [filter]. rewrite E, <- (IH kr eq_refl).
    inversion H; subst. destruct (PyFloat.gtb k o); reflexivity.
Qed.

Lemma filter_perm (A : Type) (f : A -> bool) l l' :
  Permutation l l' -> Permutation (filter f l) (filter f l').
Proof.
  induction 1 as [| x l l' _ IH | x y l | l l' l'' _ IH1 _ IH2]; simpl.
  - constructor.
  - destruct (f x); [apply perm_skip |]; exact IH.
  - destruct (f x), (f y); try apply Permutation_refl. apply perm_swap.
  - eapply perm_trans; eauto.
Qed.

Lemma filter_ascending (f : PyFloat.float * json -> bool) l :
  ascending l -> ascending (filter f l).
Proof.
  unfold ascending. induction 1 as [| x l S IH F]; simpl; [constructor |].
  destruct (f x); [| exact IH]. constructor; [exact IH |].
  apply Forall_forall. intros y Hy. apply filter_In in Hy.
  rewrite Forall_forall in F. apply F. tauto.
Qed.

Lemma filter_map_newer oldest (kl : list (PyFloat.float * json)) :
  filter (newer oldest) (List.map snd kl)
  = List.map snd (filter (fun x => newer oldest (snd x)) kl).
Proof.
  induction kl as [| x l IH]; [reflexivity |]. simpl.
  destruct (newer oldest (snd x)); simpl; rewrite IH; reflexivity.
Qed.

(** X13. What [_fetch_new_messages] returns are the messages of the pages
    that are strictly newer than the cursor, each once for each time the
    backend gave it: the result is a rearrangement of the gathered
    messages with [float(ts) > float(oldest)], so a message at the cursor
    is dropped and no newer message is lost; and when no gathered message
    has a NaN key, the result stands in ascending order of the keys. *)
Theorem fetched_messages_are_newer token channel oldest w result w' :
  _fetch_new_messages token channel oldest w = Some (Ok result, w') ->
  exists gathered,
    fetch_pages channel oldest JNull [] (slack w) (history_log w)
    = Some (Ok gathered, slack w', history_log w')
    /\ Permutation result (filter (newer oldest) gathered)
    /\ Forall (fun m => newer oldest m = true) result
    /\ (Forall (fun m => ts_key m <> Ok PyFloat.nan) gathered ->
        exists ks, keyed result = Ok ks /\ ascending ks).
Proof.
  unfold _fetch_new_messages.
  destruct (fetch_pages channel oldest JNull [] (slack w) (history_log w))
    as [[[r rest] log] |]; [| discriminate].
  intro H. inversion H as [[Hr Hw]]. clear H. subst w'. simpl.
  destruct r as [gathered |]; [| discriminate]. cbn [bind] in Hr.
  destruct (sort_by_ts gathered) as [sorted |] eqn:S; [| discriminate].
  cbn [bind] in Hr. apply newer_than_filter in Hr. subst result.
  exists gathered. split; [reflexivity |].
  unfold sort_by_ts in S. destruct (keyed gathered) as [kl |] eqn:K; [| discriminate].
  cbn [bind] in S. inversion S; subst sorted. clear S.
  split; [| split].
  - apply filter_perm. rewrite <- (keyed_map _ K). apply Permutation_map.
    apply Permutation_sym. apply sort_keyed_perm.
  - apply Forall_forall. intros m Hm. apply filter_In in Hm. tauto.
  - intro N. rewrite filter_map_newer.
    exists (filter (fun x => newer oldest (snd x)) (sort_keyed kl)). split.
    + apply keyed_of_keys. apply Forall_forall. intros x Hx.
      apply filter_In in Hx. destruct Hx as [Hx _].
      pose proof (sort_keyed_forall (keyed_keys _ K)) as Q.
      rewrite Forall_forall in Q. apply Q. exact Hx.
    + apply filter_ascending. apply sort_keyed_ascending.
      eapply keyed_not_nan; eauto.
Qed.

(** The statement of X13 at a page with a message at the cursor and one
    after it. *)
Lemma fetched_messages_are_newer_witness :
  exists result w',
    _fetch_new_messages (lit "xoxb-token") (lit "C0123") (JStr (lit "1000.500000"))
      (Example.world_of Example.dirs
         [Example.page [Example.message "1000.700000" "/codex deploy";
                        Example.message "1000.500000" "/codex fix the build"]] [])
    = Some (Ok result, w')
    /\ exists gathered,
         fetch_pages (lit "C0123") (JStr (lit "1000.500000")) JNull []
           [Example.page [Example.message "1000.700000" "/codex deploy";
                          Example.message "1000.500000" "/codex fix the build"]] []
         = Some (Ok gathered, slack w', history_log w')
         /\ Permutation result (filter (newer (JStr (lit "1000.500000"))) gathered)
         /\ Forall (fun m => newer (JStr (lit "1000.500000")) m = true) result
         /\ (Forall (fun m => ts_key m <> Ok PyFloat.nan) gathered ->
             exists ks, keyed result = Ok ks /\ ascending ks).
Proof.
  eexists. eexists. split; [vm_compute; reflexivity |].
  eapply (@fetched_messages_are_newer (lit "xoxb-token") (lit "C0123")
            (JStr (lit "1000.500000"))
            (Example.world_of Example.dirs
               [Example.page [Example.message "1000.700000" "/codex deploy";
                              Example.message "1000.500000" "/codex fix the build"]]
               [])).
  vm_compute. reflexivity.
Defined.

(* ================================================================== *)
(** * The pages of a fetch *)

Lemma fetch_pages_page messages r :
  (payload <- _slack_request r ;;
   items <- iterate (get_default payload (lit "messages") (JList [])) ;;
   next <- any_get (get_default payload (lit "response_metadata") (JDict []))
                   (lit "next_cursor") JNull ;;
   Ok (messages ++ items, next))%py
  = (p <- page_of r ;; Ok (messages ++ fst p, snd p))%py.
Proof.
  unfold page_of. destruct (_slack_request r) as [payload |]; [| reflexivity].
  cbn [bind].
  destruct (iterate (get_default payload (lit "messages") (JList [])));
    [| reflexivity].
  cbn [bind].
  destruct (any_get (get_default payload (lit "response_metadata") (JDict []))
              (lit "next_cursor") JNull); reflexivity.
Qed.

(** X14. The loop of [_fetch_new_messages] follows the cursors of the
    backend: when it returns, it has taken the answers of the backend one
    by one up to the first page without a next cursor, every page before
    that one had a next cursor, the messages it has gathered are the
    messages of these pages in their order, and it has made one history
    call for each page, all for the same channel and the same [oldest],
    the first with the cursor it started from and each further one with
    the next cursor of the page before. *)
Theorem fetch_pages_gathers channel oldest :
  forall answers cursor messages log gathered rest log',
    fetch_pages channel oldest cursor messages answers log
    = Some (Ok gathered, rest, log') ->
    exists used init final calls,
      answers = used ++ rest
      /\ Forall2 (fun r p => page_of r = Ok p) used (init ++ [final])
      /\ Forall (fun p => truthy (snd p) = true) init
      /\ truthy (snd final) = false
      /\ gathered = messages ++ List.concat (List.map fst (init ++ [final]))
      /\ log' = log ++ calls
      /\ Forall (fun c => call_channel c = channel /\ call_oldest c = oldest) calls
      /\ List.map call_cursor calls
         = cursor_param cursor :: List.map (fun p => Some (snd p)) init.
Proof.
  induction answers as [| r answers IH]; intros cursor messages log gathered rest log' H;
    simpl in H; [discriminate |].
  destruct (negb (urlencodable oldest && urlencodable cursor)); [discriminate |].
  rewrite fetch_pages_page in H.
  destruct (page_of r) as [[items next] |] eqn:P; cbn [bind fst snd] in H;
    [| discriminate].
  destruct (truthy next) eqn:T.
  - apply IH in H.
    destruct H as (used & init & final & calls & A & F2 & Fi & Ff & G & L & C & M).
    exists (r :: used), ((items, next) :: init), final,
      ({| call_channel := channel; call_oldest := oldest;
          call_cursor := cursor_param cursor |} :: calls).
    repeat split.
    + rewrite A. reflexivity.
    + constructor; assumption.
    + constructor; assumption.
    + exact Ff.
    + rewrite G. simpl. rewrite app_assoc. reflexivity.
    + rewrite L, <- app_assoc. reflexivity.
    + constructor; [split; reflexivity | exact C].
    + simpl. rewrite M. unfold cursor_param at 2. rewrite T. reflexivity.
  - inversion H; subst.
    exists [r], [], (items, next),
      [{| call_channel := channel; call_oldest := oldest;
          call_cursor := cursor_param cursor |}].
    repeat split.
    + constructor; [exact P | constructor].
    + constructor.
    + exact T.
    + simpl. rewrite app_nil_r. reflexivity.
    + constructor; [split; reflexivity | constructor].
Qed.

(** The statement of X14 at a history of two pages. *)
Lemma fetch_pages_gathers_witness :
  exists gathered rest log',
    fetch_pages (lit "C0123") (JStr (lit "0")) JNull []
      [Example.page_then [Example.message "1000.700000" "/codex deploy"] "page2";
       Example.page [Example.message "1000.500000" "/codex fix the build"];
       Example.page []] []
    = Some (Ok gathered, rest, log')
    /\ exists used init final calls,
         [Example.page_then [Example.message "1000.700000" "/codex deploy"] "page2";
          Example.page [Example.message "1000.500000" "/codex fix the build"];
          Example.page []] = used ++ rest
         /\ Forall2 (fun r p => page_of r = Ok p) used (init ++ [final])
         /\ Forall (fun p => truthy (snd p) = true) init
         /\ truthy (snd final) = false
         /\ gathered = [] ++ List.concat (List.map fst (init ++ [final]))
         /\ log' = [] ++ calls
         /\ Forall (fun c => call_channel c = lit "C0123"
                             /\ call_oldest c = JStr (lit "0")) calls
         /\ List.map call_cursor calls
            = cursor_param JNull :: List.map (fun p => Some (snd p)) init.
Proof.
  eexists. eexists. eexists. split; [vm_compute; reflexivity |].
  apply (@fetch_pages_gathers (lit "C0123") (JStr (lit "0"))
           [Example.page_then [Example.message "1000.700000" "/codex deploy"] "page2";
            Example.page [Example.message "1000.500000" "/codex fix the build"];
            Example.page []] JNull [] []).
  vm_compute. reflexivity.
Defined.

(* ================================================================== *)
(** * The title of an issue *)

(** The first line that [splitlines] gives is the text up to its first
    line boundary. *)
Lemma splitlines_from_first s : forall cur line rest,
  splitlines_from cur s = line :: rest ->
  exists x tail,
    line = rev cur ++ x /\ s = x ++ tail
    /\ Forall (fun c => ends_line c = false) x.
Proof.
  induction s as [| c s IH]; intros cur line rest H; simpl in H.
  - destruct cur as [| a cur]; [discriminate |]. inversion H; subst.
    exists [], []. rewrite app_nil_r. repeat split. constructor.
  - destruct (c =? 13)%N eqn:E13.
    + assert (L : line = rev cur).
      { destruct s as [| c' s']; [| destruct (c' =? 10)%N]; inversion H; reflexivity. }
      exists [], (c :: s). rewrite app_nil_r. repeat split; auto.
    + destruct (islinebreak c) eqn:Elb.
      * inversion H; subst. exists [], (c :: s). rewrite app_nil_r.
        repeat split; auto.
      * apply IH in H. destruct H as (x & tail & Hl & Hs & Hx).
        exists (c :: x), tail. repeat split.
        -- rewrite Hl. simpl. rewrite <- app_assoc. reflexivity.
        -- rewrite Hs. reflexivity.
        -- constructor; [| exact Hx]. unfold ends_line. rewrite E13, Elb.
           reflexivity.
Qed.

Lemma firstn_forall (A : Type) (P : A -> Prop) n (l : list A) :
  Forall P l -> Forall P (firstn n l).
Proof.
  intro H. revert n. induction H as [| x l Hx _ IH]; intros [| n]; simpl;
    constructor; auto.
Qed.

(** X15. When the formatter returns, the title is the beginning of the
    stripped text of the message: it is not empty, has at most 80 code
    points, contains no line boundary, and the stripped text starts with
    it. The fallback title is never what the [or] of the source yields. *)
Theorem issue_title_is_first_line (message : json) channel title body :
  _format_issue message channel = Ok (title, body) ->
  exists s,
    any_get message (lit "text") (JStr []) = Ok (JStr s)
    /\ title <> []
    /\ (List.length title <= 80)%nat
    /\ Forall (fun c => ends_line c = false) title
    /\ startswith (strip s) title = true.
Proof.
  intro H. apply format_issue_title in H.
  destruct H as (s & line & rest & Hg & Hl & Hne & Ht).
  exists s. split; [exact Hg |].
  unfold splitlines in Hl. apply splitlines_from_first in Hl.
  destruct Hl as (x & tail & Hx & Hs & Fx). simpl in Hx. subst line.
  repeat split.
  - subst title. destruct x; [contradiction | discriminate].
  - subst title. rewrite length_firstn. lia.
  - subst title. apply firstn_forall. exact Fx.
  - rewrite Hs. subst title. clear.
    assert (P : forall (p : pystr) n u, startswith (p ++ u) (firstn n p) = true).
    { induction p as [| c p IH]; intros [| n] u; cbn [firstn app];
        try (destruct u; reflexivity); try reflexivity.
      cbn [startswith]. rewrite N.eqb_refl. apply IH. }
    apply P.
Qed.

(** The statement of X15 at a message of two lines. *)
Lemma issue_title_is_first_line_witness :
  exists title body s,
    _format_issue
      (JDict [(lit "ts", JStr (lit "1000.500000"));
              (lit "text", JStr [32; 47; 99; 111; 100; 101; 120; 32; 97; 10; 98]%N)])
      (lit "C0123") = Ok (title, body)
    /\ any_get
         (JDict [(lit "ts", JStr (lit "1000.500000"));
                 (lit "text", JStr [32; 47; 99; 111; 100; 101; 120; 32; 97; 10; 98]%N)])
         (lit "text") (JStr []) = Ok (JStr s)
    /\ title <> []
    /\ (List.length title <= 80)%nat
    /\ Forall (fun c => ends_line c = false) title
    /\ startswith (strip s) title = true.
Proof.
  eexists. eexists.
  assert (H : _format_issue
      (JDict [(lit "ts", JStr (lit "1000.500000"));
              (lit "text", JStr [32; 47; 99; 111; 100; 101; 120; 32; 97; 10; 98]%N)])
      (lit "C0123") = Ok (lit "/codex a", ?[b])) by (vm_compute; reflexivity).
  destruct (issue_title_is_first_line _ _ H) as (s & K).
  exists s. split; [exact H | exact K].
Defined.

(** The title that the formatter returns is one line of at most 80 code
    points. *)
Lemma title_one_line (message : json) channel title body :
  _format_issue message channel = Ok (title, body) ->
  (List.length title <= 80)%nat
  /\ Forall (fun c => ends_line c = false) title.
Proof.
  intro H. apply format_issue_title in H.
  destruct H as (s & line & rest & _ & Hl & _ & Ht).
  unfold splitlines in Hl. apply splitlines_from_first in Hl.
  destruct Hl as (x & tail & Hx & _ & Fx). simpl in Hx. subst line title.
  split; [rewrite length_firstn; lia | apply firstn_forall; exact Fx].
Qed.

Lemma startswith_inv p : forall s, startswith s p = true -> exists u, s = p ++ u.
Proof.
  induction p as [| x p IH]; intros s H.
  - exists s. reflexivity.
  - destruct s as [| y s]; simpl in H; [discriminate |].
    apply andb_true_iff in H. destruct H as [E H]. apply N.eqb_eq in E. subst y.
    destruct (IH _ H) as (u & ->). exists u. reflexivity.
Qed.

(** The title of a message whose stripped text starts with the command
    prefix starts with the command prefix. *)
Lemma title_starts_with_command (message : json) channel title body t txt :
  _format_issue message channel = Ok (title, body) ->
  any_get message (lit "text") (JStr []) = Ok t ->
  any_strip t = Ok txt ->
  startswith txt command_prefix = true ->
  startswith title command_prefix = true.
Proof.
  intros Hf Hg Hs Hp. apply format_issue_title in Hf.
  destruct Hf as (s & line & rest & Hg' & Hl & _ & Ht).
  rewrite Hg in Hg'. inversion Hg'; subst t. simpl in Hs. inversion Hs; subst txt.
  apply startswith_inv in Hp. destruct Hp as (u & Hu). rewrite Hu in Hl.
  unfold splitlines, command_prefix in Hl. vm_compute lit in Hl.
  cbn [app splitlines_from N.eqb Pos.eqb islinebreak orb] in Hl.
  apply splitlines_from_first in Hl. destruct Hl as (x & tail & Hx & _ & _).
  subst title line. destruct x; vm_compute; reflexivity.
Qed.

Lemma posts_commands_refl settings w : posts_commands settings w w.
Proof. exists []. rewrite app_nil_r. auto. Qed.

Lemma posts_commands_trans settings a b c :
  posts_commands settings a b -> posts_commands settings b c ->
  posts_commands settings a c.
Proof.
  intros (l1 & E1 & F1) (l2 & E2 & F2). exists (l1 ++ l2). split.
  - rewrite E2, E1, app_assoc. reflexivity.
  - apply Forall_app. auto.
Qed.

Lemma posts_commands_same settings w w' :
  posted w' = posted w -> posts_commands settings w w'.
Proof. intro E. exists []. rewrite app_nil_r. auto. Qed.

Lemma process_messages_commands settings messages :
  forall created ts, keeps (posts_commands settings)
                       (process_messages settings messages created ts).
Proof.
  induction messages as [| m rest IH]; intros created ts w r w' H; simpl in H.
  - apply ret_inv in H. destruct H as [_ ->]. apply posts_commands_refl.
  - any_step H e subtype w1 Hs H; apply lift_inv in Hs; destruct Hs as [_ ->];
      [apply posts_commands_refl |].
    destruct (truthy subtype); [eapply IH; exact H |].
    any_step H e t w2 Ht H; apply lift_inv in Ht; destruct Ht as [Ht ->];
      [apply posts_commands_refl |].
    any_step H e txt w3 Hx H; apply lift_inv in Hx; destruct Hx as [Hx ->];
      [apply posts_commands_refl |].
    destruct (startswith txt command_prefix) eqn:Hp; cbn [negb] in H;
      [| eapply IH; exact H].
    any_step H e tb w4 Hf H; apply lift_inv in Hf; destruct Hf as [Hf ->];
      [apply posts_commands_refl |].
    destruct tb as [title body].
    assert (Sent : forall r1 w5,
              _create_issue (github_repo settings) (github_token settings)
                title body labels w = Some (r1, w5) ->
              posts_commands settings w w5).
    { intros r1 w5 Hc. destruct (create_issue_trace _ _ _ _ _ _ Hc)
        as (_ & _ & _ & g & q & _ & P & _).
      assert (Q : q = {| req_repo := github_repo settings; req_title := title;
                         req_body := body; req_labels := labels |}).
      { unfold _create_issue in Hc. destruct (github w) as [| g0 gs]; [discriminate |].
        destruct g0 as [e0 | st]; [| destruct (300 <=? st)%Z];
          inversion Hc; subst; simpl in P; apply app_inv_head in P;
          inversion P; reflexivity. }
      exists [q]. split; [exact P |]. constructor; [| constructor]. subst q.
      cbn [req_repo req_title].
      destruct (title_one_line _ _ (eq_sym Hf)) as (L & F).
      repeat split; auto.
      eapply title_starts_with_command; eauto. }
    any_step H e u w5 Hc H; [eapply Sent; exact Hc |].
    apply (posts_commands_trans (Sent _ _ Hc)).
    any_step H e v w6 Hv H; apply lift_inv in Hv; destruct Hv as [_ ->];
      [apply posts_commands_refl |].
    any_step H e f w7 Hy H; apply lift_inv in Hy; destruct Hy as [_ ->];
      [apply posts_commands_refl |].
    eapply IH. exact H.
Qed.

(** X16. Every request that a pass sends goes to the repository of the
    settings and has a title of one line, of at most 80 code points, that
    starts with "/codex": the pass never sends a request for a message
    that is not a command, and never with the fallback title. *)
Theorem run_sync_sends_commands settings w r w' :
  run_sync settings w = Some (r, w') ->
  exists sent,
    posted w' = posted w ++ sent
    /\ Forall (fun q => req_repo q = github_repo settings
                        /\ startswith (req_title q) (lit "/codex") = true
                        /\ (List.length (req_title q) <= 80)%nat
                        /\ Forall (fun c => ends_line c = false) (req_title q))
         sent.
Proof.
  revert w r w'. change (keeps (posts_commands settings) (run_sync settings)).
  assert (T := @posts_commands_trans settings).
  assert (R := @posts_commands_refl settings).
  unfold run_sync.
  apply keeps_bind; [exact T | |].
  { intros w r w' H. apply load_state_same in H. subst. apply R. }
  intro state. apply keeps_bind; [exact T | apply keeps_lift; exact R |].
  intro oldest. apply keeps_bind; [exact T | |].
  { intros w r w' H. apply fetch_trace in H. apply posts_commands_same. tauto. }
  intro messages. apply keeps_bind; [exact T | apply keeps_lift; exact R |].
  intro ts. apply keeps_bind; [exact T | apply process_messages_commands |].
  intros [created ts']. apply keeps_bind; [exact T | |].
  - destruct (0 <? created)%nat; [| apply keeps_ret; exact R].
    intros w r w' H. apply save_state_trace in H. apply posts_commands_same. tauto.
  - intros _. apply keeps_ret. exact R.
Qed.

(** The statement of X16 at a pass over a command of two lines and a
    message that is not a command. *)
Lemma run_sync_sends_commands_witness :
  exists r w',
    run_sync Example.settings
      (Example.world_of (Example.disk "{'last_ts': '1000.000000'}")
         [Example.page
            [JDict [(lit "ts", JStr (lit "1000.500000"));
                    (lit "text", JStr [32; 47; 99; 111; 100; 101; 120; 32; 97; 10; 98]%N)];
             Example.message "1000.600000" "hello"]]
         [GithubStatus 201]) = Some (r, w')
    /\ exists sent,
         posted w' = [] ++ sent
         /\ Forall (fun q => req_repo q = lit "owner/repo"
                             /\ startswith (req_title q) (lit "/codex") = true
                             /\ (List.length (req_title q) <= 80)%nat
                             /\ Forall (fun c => ends_line c = false) (req_title q))
              sent.
Proof.
  eexists. eexists. split; [vm_compute; reflexivity |].
  eapply (@run_sync_sends_commands Example.settings
            (Example.world_of (Example.disk "{'last_ts': '1000.000000'}")
               [Example.page
                  [JDict [(lit "ts", JStr (lit "1000.500000"));
                          (lit "text",
                           JStr [32; 47; 99; 111; 100; 101; 120; 32; 97; 10; 98]%N)];
                   Example.message "1000.600000" "hello"]]
               [GithubStatus 201])).
  vm_compute. reflexivity.
Defined.

(* ================================================================== *)
(** * The queue of the lock *)

Lemma initial_handover : handover initial.
Proof. constructor; simpl; intros; try discriminate; contradiction. Qed.

(** A task that neither waits nor holds the lock can go anywhere without
    touching the queue. *)
Lemma park_handover s t p :
  handover s ->
  (forall b, task s t <> Waiting b) -> (forall b, task s t <> InPass b) ->
  handover {| locked := locked s; waiters := waiters s;
              task := set_task (task s) t p |}.
Proof.
  intros I Hw Hp. constructor; simpl.
  - intros u Hu. destruct (ho_queued I _ Hu) as (b & E).
    exists b. rewrite set_task_other; [exact E |]. intros ->. eapply Hw; eauto.
  - intro L. destruct (ho_holder I L) as (u & b & E).
    exists u, b. rewrite set_task_other; [exact E |]. intros ->. eapply Hp; eauto.
  - intros L h r W. rewrite set_task_other; [eapply ho_woken; eauto |].
    intros ->. eapply Hw. eapply ho_woken; eauto.
Qed.

Lemma acquire_handover s t :
  handover s -> task s t = Start -> handover (acquire s t).
Proof.
  intros I Ht. unfold acquire.
  assert (Q : forall u, In u (waiters s ++ [t]) ->
              exists b, set_task (task s) t (Waiting false) u = Waiting b).
  { intros u Hu. apply in_app_or in Hu. destruct Hu as [Hu | [<- | []]].
    - destruct (ho_queued I _ Hu) as (b & E). exists b.
      rewrite set_task_other; [exact E |]. intros ->. congruence.
    - exists false. apply set_task_same. }
  destruct (locked s) eqn:L; [| destruct (waiters s) as [| w ws] eqn:W].
  - constructor; simpl; [exact Q | | discriminate].
    intros _. destruct (ho_holder I L) as (u & b & E). exists u, b.
    rewrite set_task_other; [exact E |]. intros ->. congruence.
  - constructor; simpl; [contradiction | | discriminate].
    intros _. exists t, false. apply set_task_same.
  - constructor; simpl; [exact Q | discriminate |].
    intros _ h r E. inversion E; subst h.
    pose proof (ho_woken I L W) as Hw.
    rewrite set_task_other; [exact Hw |]. intros ->. congruence.
Qed.

Lemma resume_handover s t :
  handover s -> task s t = Waiting true ->
  handover {| locked := true; waiters := remove_waiter t (waiters s);
              task := set_task (task s) t (InPass false) |}.
Proof.
  intros I Ht. constructor; simpl; [| | discriminate].
  - intros u Hu. unfold remove_waiter in Hu. apply filter_In in Hu.
    destruct Hu as [Hu Hne]. apply negb_true_iff in Hne. apply Nat.eqb_neq in Hne.
    destruct (ho_queued I _ Hu) as (b & E). exists b.
    rewrite set_task_other; assumption.
  - intros _. exists t, false. apply set_task_same.
Qed.

Lemma release_handover s t b :
  single_flight s -> handover s -> task s t = InPass b -> handover (release s t).
Proof.
  intros F I Ht. unfold release.
  destruct (locked s) eqn:L.
  2:{ exfalso. eapply sf_unlocked; eauto. }
  assert (Q : forall u, In u (waiters s) ->
              u <> t /\ exists c, task s u = Waiting c).
  { intros u Hu. destruct (ho_queued I _ Hu) as (c & E). split; [| eauto].
    intros ->. congruence. }
  constructor; simpl; [| discriminate |].
  - intros u Hu. destruct (Q _ Hu) as (Hne & c & E).
    rewrite set_task_other by assumption.
    destruct (wake_up_first_cases (waiters s) (task s) u) as [K | (_ & _ & K)];
      rewrite K; eauto.
  - intros _ h r W.
    assert (Hh : In h (waiters s)) by (rewrite W; left; reflexivity).
    destruct (Q _ Hh) as (Hne & c & E).
    rewrite set_task_other by assumption.
    unfold wake_up_first. rewrite W, E.
    destruct c; [exfalso; eapply sf_locked; eauto |]. apply set_task_same.
Qed.

Lemma returns_handover s t :
  handover s -> task s t = InPass false ->
  handover {| locked := locked s; waiters := waiters s;
              task := set_task (task s) t (InPass true) |}.
Proof.
  intros I Ht. constructor; simpl.
  - intros u Hu. destruct (ho_queued I _ Hu) as (b & E). exists b.
    rewrite set_task_other; [exact E |]. intros ->. congruence.
  - intros _. exists t, true. apply set_task_same.
  - intros L h r W. rewrite set_task_other; [eapply ho_woken; eauto |].
    intros ->. pose proof (ho_woken I L W). congruence.
Qed.

Lemma step_handover s e s' :
  single_flight s -> handover s -> step s e = Some s' -> handover s'.
Proof.
  intros F I H. destruct e as [t | t]; simpl in H.
  - destruct (task s t) as [| [|] | [|] | | |] eqn:Ht; inversion H; subst; clear H.
    + destruct t as [| t'].
      * apply acquire_handover; assumption.
      * unfold sync_now. destruct (locked s) eqn:L.
        -- assert (P : handover
                         {| locked := locked s; waiters := waiters s;
                            task := set_task (task s) (S t') Busy |})
             by (apply park_handover; [assumption | congruence | congruence]).
           rewrite L in P. exact P.
        -- apply acquire_handover; assumption.
    + apply resume_handover; assumption.
    + eapply release_handover; eauto.
    + apply park_handover; [assumption | congruence | congruence].
  - destruct (task s t) as [| [|] | [|] | | |] eqn:Ht; inversion H; subst; clear H.
    apply returns_handover; assumption.
Qed.

Lemma run_invariants es : forall s s',
  single_flight s -> handover s -> run s es = Some s' ->
  single_flight s' /\ handover s'.
Proof.
  induction es as [| e es IH]; intros s s' F I H; simpl in H.
  - inversion H; subst. auto.
  - destruct (step s e) as [s1 |] eqn:E; [| discriminate].
    eapply IH; [eapply step_single_flight | eapply step_handover | exact H]; eauto.
Qed.

Lemma reachable_handover s : reachable s -> handover s.
Proof.
  intros (es & H).
  apply (run_invariants es initial_single_flight initial_handover H).
Qed.

(** X17. No wake-up is lost: in every state that is reached, when the lock
    is free and tasks are queued on it, the first task of the queue has
    been woken, and its next turn takes the lock and starts its pass. *)
Theorem free_lock_wakes_first_waiter s h r :
  reachable s ->
  locked s = false ->
  waiters s = h :: r ->
  task s h = Waiting true
  /\ exists s', step s (Run h) = Some s'
                /\ executing s' h /\ locked s' = true.
Proof.
  intros R L W. pose proof (ho_woken (reachable_handover R) L W) as Hh.
  split; [exact Hh |]. simpl. rewrite Hh. eexists. split; [reflexivity |].
  split; [| reflexivity]. unfold executing. simpl. apply set_task_same.
Qed.

(** The statement of X17 after the pass of a request during which the
    poller has queued. *)
Lemma free_lock_wakes_first_waiter_witness :
  exists s,
    run initial [Run 1; Run 0; ThreadReturns 1; Run 1] = Some s
    /\ task s 0 = Waiting true
    /\ exists s', step s (Run 0) = Some s'
                  /\ executing s' 0 /\ locked s' = true.
Proof.
  eexists. split; [reflexivity |].
  apply (@free_lock_wakes_first_waiter _ 0%nat []).
  - exists [Run 1; Run 0; ThreadReturns 1; Run 1]. reflexivity.
  - reflexivity.
  - reflexivity.
Defined.

(** X18. The lock is held exactly while a task is in its pass, from the
    turn that took the lock to the turn that releases it: in every state
    that is reached, [_loop_lock.locked()] is true if and only if some
    task stands between the two. So [sync_now] answers 423 only while
    such a task exists. *)
Theorem lock_held_iff_in_pass s :
  reachable s ->
  (locked s = true <-> exists t b, task s t = InPass b)
  /\ (forall t s', task s (S t) = Start ->
        step s (Run (S t)) = Some s' -> task s' (S t) = Busy ->
        exists u b, u <> S t /\ task s u = InPass b).
Proof.
  intro R. pose proof (reachable_single_flight R) as F.
  pose proof (reachable_handover R) as I.
  assert (E : locked s = true <-> exists t b, task s t = InPass b).
  { split; [apply (ho_holder I) |].
    intros (t & b & Ht). destruct (locked s) eqn:L; [reflexivity |].
    exfalso. eapply sf_unlocked; eauto. }
  split; [exact E |].
  intros t s' Ht Hs Hb. simpl in Hs. rewrite Ht in Hs. unfold sync_now in Hs.
  destruct (locked s) eqn:L.
  - destruct (proj1 E eq_refl) as (u & b & Hu). exists u, b. split; [| exact Hu].
    intros ->. congruence.
  - exfalso. inversion Hs; subst s'. clear Hs. unfold acquire in Hb. rewrite L in Hb.
    destruct (waiters s); simpl in Hb; rewrite set_task_same in Hb; discriminate.
Qed.

(** The statement of X18 in the state where the worker thread of the pass
    of a request has come back and the request has not yet had its turn
    to release the lock. *)
Lemma lock_held_iff_in_pass_witness :
  exists s,
    run initial [Run 1; ThreadReturns 1] = Some s
    /\ (locked s = true <-> exists t b, task s t = InPass b)
    /\ (forall t s', task s (S t) = Start ->
          step s (Run (S t)) = Some s' -> task s' (S t) = Busy ->
          exists u b, u <> S t /\ task s u = InPass b).
Proof.
  eexists. split; [reflexivity |].
  apply lock_held_iff_in_pass.
  exists [Run 1; ThreadReturns 1]. reflexivity.
Defined.

(** X19. A request that arrives while the lock is free but tasks are
    queued on it is neither answered with 423 nor started: in every state
    that is reached with a free lock and a queue, the turn of a new
    [sync_now] puts it at the end of the queue, suspended, and changes
    nothing else. *)
Theorem sync_now_queues_behind_waiter s h r t :
  reachable s ->
  locked s = false ->
  waiters s = h :: r ->
  task s (S t) = Start ->
  exists s',
    step s (Run (S t)) = Some s'
    /\ task s' (S t) = Waiting false
    /\ waiters s' = h :: r ++ [S t]
    /\ locked s' = false
    /\ task s' h = Waiting true
    /\ forall u, u <> S t -> task s' u = task s u.
Proof.
  intros R L W Ht. pose proof (ho_woken (reachable_handover R) L W) as Hh.
  simpl. rewrite Ht. unfold sync_now, acquire. rewrite L, W.
  eexists. split; [reflexivity |]. simpl. repeat split.
  - apply set_task_same.
  - rewrite set_task_other; [exact Hh |]. intros ->. congruence.
  - intros u Hu. apply set_task_other. exact Hu.
Qed.

(** The statement of X19 for a request that arrives after the pass of
    another request during which the poller has queued. *)
Lemma sync_now_queues_behind_waiter_witness :
  exists s s',
    run initial [Run 1; Run 0; ThreadReturns 1; Run 1] = Some s
    /\ step s (Run 2) = Some s'
    /\ task s' 2 = Waiting false
    /\ waiters s' = 0%nat :: [] ++ [2%nat]
    /\ locked s' = false
    /\ task s' 0 = Waiting true
    /\ forall u, u <> 2%nat -> task s' u = task s u.
Proof.
  eexists.
  destruct (@sync_now_queues_behind_waiter
              {| locked := false; waiters := [0%nat];
                 task := set_task
                           (wake_up_first [0%nat]
                              (set_task
                                 (set_task (set_task (task initial) 1 (InPass false))
                                    0 (Waiting false)) 1 (InPass true)))
                           1 Done |} 0%nat [] 1%nat) as (s' & H).
  - exists [Run 1; Run 0; ThreadReturns 1; Run 1]. reflexivity.
  - reflexivity.
  - reflexivity.
  - reflexivity.
  - exists s'. split; [reflexivity | exact H].
Defined.

Lemma run_app a : forall s b,
  run s (a ++ b) = match run s a with
                   | Some s1 => run s1 b
                   | None => None
                   end.
Proof.
  induction a as [| e a IH]; intros s b; simpl; [reflexivity |].
  destruct (step s e); [apply IH | reflexivity].
Qed.

Lemma remove_waiter_head_length h r :
  (List.length (remove_waiter h (h :: r)) <= List.length r)%nat.
Proof.
  unfold remove_waiter. simpl. rewrite Nat.eqb_refl. simpl. apply filter_length_le.
Qed.

(** The task at the head of the queue of a free lock runs its pass and
    leaves the lock free for the next. *)
Lemma head_pass s h r :
  task s h = Waiting true -> waiters s = h :: r ->
  exists s', run s [Run h; ThreadReturns h; Run h] = Some s'
             /\ locked s' = false
             /\ waiters s' = remove_waiter h (waiters s).
Proof.
  intros Hh W. simpl. rewrite Hh. simpl. rewrite set_task_same. simpl.
  rewrite set_task_same. unfold release. simpl.
  eexists. split; [reflexivity |]. split; reflexivity.
Qed.

Lemma free_lock_waiter_gets_pass n : forall s t,
  (List.length (waiters s) <= n)%nat ->
  single_flight s -> handover s -> locked s = false -> In t (waiters s) ->
  exists es s', run s es = Some s' /\ executing s' t.
Proof.
  induction n as [| n IH]; intros s t Hn F I L Ht.
  - destruct (waiters s); [contradiction | simpl in Hn; lia].
  - destruct (waiters s) as [| h r] eqn:W; [contradiction |].
    pose proof (ho_woken I L W) as Hh.
    destruct (Nat.eq_dec t h) as [-> | Hne].
    + exists [Run h]. simpl. rewrite Hh. eexists. split; [reflexivity |].
      unfold executing. simpl. apply set_task_same.
    + destruct (head_pass s Hh W) as (s1 & R1 & L1 & W1).
      destruct (run_invariants _ F I R1) as (F1 & I1).
      destruct (IH s1 t) as (es & s' & R2 & E); auto.
      * rewrite W1, W. pose proof (remove_waiter_head_length h r).
        simpl in Hn. lia.
      * rewrite W1. apply in_remove_waiter; [rewrite W; exact Ht | exact Hne].
      * exists ([Run h; ThreadReturns h; Run h] ++ es), s'.
        rewrite run_app, R1. auto.
Qed.

(** The task that holds the lock ends its pass and frees the lock. *)
Lemma holder_releases s :
  single_flight s -> handover s -> locked s = true ->
  exists es s', run s es = Some s' /\ locked s' = false
                /\ waiters s' = waiters s.
Proof.
  intros F I L. destruct (ho_holder I L) as (u & b & Hu).
  destruct b.
  - exists [Run u]. simpl. rewrite Hu. unfold release. rewrite L.
    eexists. split; [reflexivity |]. split; reflexivity.
  - exists [ThreadReturns u; Run u]. simpl. rewrite Hu. simpl.
    rewrite set_task_same. unfold release. simpl. rewrite L.
    eexists. split; [reflexivity |]. split; reflexivity.
Qed.

(** X20. The lock does not deadlock a task that waits for it: from every
    state that is reached, a task that is suspended in [Lock.acquire], the
    poller or a request, can still get its pass. There is a continuation of
    the run, in which the worker threads of the passes before it come back
    and the tasks have their turns, at whose end it holds the lock and its
    pass executes. This is a possibility and not a promise: a worker
    thread that never comes back keeps every waiter waiting. *)
Theorem waiting_task_gets_pass s t b :
  reachable s ->
  task s t = Waiting b ->
  exists es s', run s es = Some s' /\ executing s' t.
Proof.
  intros R Ht. pose proof (reachable_single_flight R) as F.
  pose proof (reachable_handover R) as I.
  pose proof (sf_waiting F _ Ht) as Hin.
  destruct (locked s) eqn:L.
  - destruct (holder_releases F I L) as (es1 & s1 & R1 & L1 & W1).
    destruct (run_invariants _ F I R1) as (F1 & I1).
    destruct (@free_lock_waiter_gets_pass (List.length (waiters s1)) s1 t)
      as (es2 & s' & R2 & E); auto.
    + rewrite W1. exact Hin.
    + exists (es1 ++ es2), s'. rewrite run_app, R1. auto.
  - eapply free_lock_waiter_gets_pass; eauto.
Qed.

(** The statement of X20 for the poller that has queued during the pass of
    a request. *)
Lemma waiting_task_gets_pass_witness :
  exists s,
    run initial [Run 1; Run 0] = Some s
    /\ task s 0 = Waiting false
    /\ exists es s', run s es = Some s' /\ executing s' 0.
Proof.
  eexists. split; [reflexivity |]. split; [reflexivity |].
  apply (@waiting_task_gets_pass _ 0%nat false).
  - exists [Run 1; Run 0]. reflexivity.
  - reflexivity.
Defined.

(* ================================================================== *)
(** * The health check *)

Lemma passes_failed settings nows : forall g w outs g' w',
  Service.passes settings nows g w = Some (outs, g', w') ->
  Forall (fun r => is_ok r = false) outs ->
  Service._last_stats g' = Service._last_stats g
  /\ (outs <> [] -> Service._last_error g' <> None).
Proof.
  induction nows as [| now later IH]; intros g w outs g' w' H F; simpl in H.
  - inversion H; subst. split; [reflexivity | intro K; contradiction].
  - unfold Service._sync_once in H.
    destruct (run_sync settings w) as [[[st | e] w1] |]; [| | discriminate].
    + destruct (Service.passes settings later _ w1) as [[[rs g2] w2] |];
        [| discriminate].
      inversion H; subst. inversion F; subst. discriminate.
    + destruct (Service.passes settings later _ w1) as [[[rs g2] w2] |] eqn:P;
        [| discriminate].
      inversion H; subst. inversion F; subst.
      destruct (IH _ _ _ _ _ P H3) as (S1 & E1). split; [exact S1 |].
      intros _. destruct rs as [| r rs].
      * destruct later; simpl in P.
        -- inversion P; subst. discriminate.
        -- destruct (Service._sync_once settings f _ w1) as [[[r1 g1] w3] |];
             [| discriminate].
           destruct (Service.passes settings later g1 w3) as [[[rs' g3] w4] |];
             discriminate.
      * apply E1. discriminate.
Qed.

Lemma passes_epoch settings nows : forall g w outs g' w' d,
  Service.passes settings nows g w = Some (outs, g', w') ->
  nows <> [] ->
  Service._last_run_epoch g' = Some (last nows d).
Proof.
  induction nows as [| now later IH]; intros g w outs g' w' d H N; [contradiction |].
  simpl in H.
  destruct (Service._sync_once settings now g w) as [[[r g1] w1] |] eqn:S;
    [| discriminate].
  destruct (Service.passes settings later g1 w1) as [[[rs g2] w2] |] eqn:P;
    [| discriminate].
  inversion H; subst. clear H. destruct later as [| n2 later].
  - simpl in P. inversion P; subst. unfold Service._sync_once in S.
    destruct (run_sync settings w) as [[[st | e] w3] |]; inversion S; reflexivity.
  - change (last (now :: n2 :: later) d) with (last (n2 :: later) d).
    eapply IH; [exact P | discriminate].
Qed.

(** The globals after passes of which one returned [stats] and all later
    ones raised. *)
Lemma passes_globals settings nows g w before stats failures g' w' :
  Service.passes settings nows g w
  = Some (before ++ Ok stats :: failures, g', w') ->
  Forall (fun r => is_ok r = false) failures ->
  Service._last_stats g' = Some stats
  /\ match Service._last_error g' with None => 200%Z | Some _ => 503%Z end
     = match failures with [] => 200%Z | _ => 503%Z end
  /\ forall d, Service._last_run_epoch g' = Some (last nows d).
Proof.
  intros H0 F0.
  assert (T : forall A B C : Prop, A /\ B -> C -> A /\ B /\ C) by tauto.
  apply T.
  2:{ intro d. eapply passes_epoch; [exact H0 |]. intros ->. simpl in H0.
      destruct before; discriminate. }
  clear T. revert H0 F0.
  revert g w before g' w'.
  induction nows as [| now later IH]; intros g w before g' w' H F; simpl in H.
  - destruct before; discriminate.
  - destruct (Service._sync_once settings now g w) as [[[r g1] w1] |] eqn:S;
      [| discriminate].
    destruct (Service.passes settings later g1 w1) as [[[rs g2] w2] |] eqn:P;
      [| discriminate].
    inversion H; subst g2 w2. clear H.
    destruct before as [| b before]; simpl in H1.
    + inversion H1; subst r rs. clear H1.
      unfold Service._sync_once in S.
      destruct (run_sync settings w) as [[[st | e] w3] |]; inversion S; subst.
      destruct (passes_failed _ _ _ _ P F) as (S1 & E1).
      rewrite S1. simpl. split; [reflexivity |].
      destruct failures as [| f fs].
      * destruct later; simpl in P.
        -- inversion P; subst. reflexivity.
        -- destruct (Service._sync_once settings f _ w1) as [[[r1 g3] w4] |];
             [| discriminate].
           destruct (Service.passes settings later g3 w4) as [[[rs' g4] w5] |];
             discriminate.
      * destruct (Service._last_error g') eqn:E; [reflexivity |].
        exfalso. apply E1; [discriminate | reflexivity].
    + inversion H1; subst. eapply IH; eauto.
Qed.

Lemma last_finite (nows : list PyFloat.float) :
  Forall (fun now => PyFloat.is_finite now = true) nows ->
  PyFloat.is_finite (last nows (S754_zero false)) = true.
Proof.
  induction 1 as [| x l Hx Hl IH]; [reflexivity |].
  destruct l as [| y l]; [exact Hx | exact IH].
Qed.

(** X21. The health check follows the last pass, and keeps the figures of
    the last pass that returned. After passes of which one returned the
    statistics [stats] and all later ones raised: when the marker of
    [stats] is finite, [healthz] shows the dict of [stats], its status is
    200 when no pass came after that one and 503 when one did, and the
    time it shows is the time of the last pass, returned or not; when the
    marker of [stats] is infinite or NaN, the health check itself ends
    with the ValueError of [JSONResponse]. *)
Theorem healthz_after_passes settings nows g w before stats failures g' w' :
  Service.passes settings nows g w
  = Some (before ++ Ok stats :: failures, g', w') ->
  Forall (fun r => is_ok r = false) failures ->
  Forall (fun now => PyFloat.is_finite now = true) nows ->
  if PyFloat.is_finite (last_timestamp stats)
  then exists h,
         Service.healthz settings g' = Ok h
         /\ Service.last_stats h = Some (Service.to_dict stats)
         /\ Service.status_code h
            = match failures with [] => 200%Z | _ => 503%Z end
         /\ forall d, Service.last_run_epoch h = Some (last nows d)
  else Service.healthz settings g' = Raise ValueError.
Proof.
  intros H F N. destruct (@passes_globals _ _ _ _ _ _ _ _ _ H F) as (S & E & T).
  pose proof (last_finite N) as L.
  unfold Service.healthz, Service.body_renders.
  rewrite S, (T (S754_zero false)), L. cbn [andb].
  destruct (PyFloat.is_finite (last_timestamp stats)); [| reflexivity].
  eexists. split; [reflexivity |]. cbn. repeat split.
  - exact E.
  - intro d. rewrite <- (T d). symmetry. apply T.
Qed.

(** The statement of X21 at two passes: the first makes an issue, the
    second is refused by the chat backend. *)
Lemma healthz_after_passes_witness :
  exists stats g' w',
    Service.passes Example.settings
      [PyFloat.of_Z 1700000000; PyFloat.of_Z 1700000120] Service.loaded
      (Example.world_of (Example.disk "{'last_ts': '1000.000000'}")
         [Example.page [Example.message "1000.500000" "/codex fix the build"];
          SlackBody (JDict [(lit "ok", JBool false)])]
         [GithubStatus 201])
    = Some ([] ++ Ok stats :: [Raise RuntimeError], g', w')
    /\ PyFloat.is_finite (last_timestamp stats) = true
    /\ exists h,
         Service.healthz Example.settings g' = Ok h
         /\ Service.last_stats h = Some (Service.to_dict stats)
         /\ Service.status_code h = 503%Z
         /\ forall d, Service.last_run_epoch h
                      = Some (last [PyFloat.of_Z 1700000000;
                                    PyFloat.of_Z 1700000120] d).
Proof.
  eexists. eexists. eexists. split; [vm_compute; reflexivity |].
  split; [vm_compute; reflexivity |].
  lazymatch goal with
  | |- exists h, _ /\ Service.last_stats h = Some (Service.to_dict ?st) /\ _ =>
      pose proof (@healthz_after_passes Example.settings
                    [PyFloat.of_Z 1700000000; PyFloat.of_Z 1700000120]
                    Service.loaded
                    (Example.world_of (Example.disk "{'last_ts': '1000.000000'}")
                       [Example.page
                          [Example.message "1000.500000" "/codex fix the build"];
                        SlackBody (JDict [(lit "ok", JBool false)])]
                       [GithubStatus 201])
                    [] st [Raise RuntimeError]) as K
  end.
  cbn [PyFloat.is_finite last_timestamp] in K. eapply K.
  - vm_compute. reflexivity.
  - repeat constructor.
  - repeat constructor.
Defined.

(* ================================================================== *)
(** * The settings at start-up *)

(** [mkdir] does not touch what exists. *)
Lemma mkdir_below_keeps todo : forall fs done fs1 q n,
  FS.mkdir_below fs done todo = Ok fs1 ->
  FS.lookup fs q = Some n -> FS.lookup fs1 q = Some n.
Proof.
  induction todo as [| c r IH]; intros fs done fs1 q n H L; simpl in H.
  - inversion H; subst. exact L.
  - destruct (FS.lookup fs (done ++ [c])) as [[t |] |] eqn:E.
    + discriminate.
    + eapply IH; eauto.
    + eapply IH; [exact H |].
      rewrite lookup_update_other; [exact L |].
      intros ->. congruence.
Qed.

(** X22. When the first call of [get_settings] returns, the interval of
    the settings is at least 30 seconds, every directory above the state
    file exists, nothing that existed in the file system before was
    changed, and a second call gives the same settings from the cache
    without touching the file system. *)
Theorem get_settings_prepares bot_token channel_id repo token file interval
    fs settings cache fs1 :
  Startup.get_settings
    (Startup.Settings_init bot_token channel_id repo token file interval) None fs
  = (Ok settings, cache, fs1) ->
  (30 <= poll_interval_seconds settings)%Z
  /\ (forall k, (0 < k < List.length (state_file settings))%nat ->
        FS.lookup fs1 (firstn k (state_file settings)) = Some FS.Dir)
  /\ (forall q n, FS.lookup fs q = Some n -> FS.lookup fs1 q = Some n)
  /\ forall built, Startup.get_settings built cache fs1 = (Ok settings, cache, fs1).
Proof.
  unfold Startup.get_settings. intro H.
  destruct (Startup.Settings_init bot_token channel_id repo token file interval)
    as [s |] eqn:B; [| discriminate].
  destruct (FS.mkdir_parents fs (FS.parent (state_file s))) as [fs2 |] eqn:M;
    [| discriminate].
  inversion H; subst. clear H. repeat split.
  - unfold Startup.Settings_init in B.
    destruct interval as [v |]; cbn [bind] in B.
    + unfold Startup._positive_interval in B.
      destruct (v <? 30)%Z eqn:V; [discriminate |]. cbn [bind] in B.
      inversion B; subst. simpl. apply Z.ltb_ge. exact V.
    + inversion B; subst. simpl. unfold Startup.default_poll_interval_seconds. lia.
  - intros k Hk. destruct (mkdir_below_dirs _ _ _ M) as (D & _).
    unfold FS.parent in D. rewrite removelast_firstn_len in D.
    specialize (D k). rewrite length_firstn in D.
    rewrite firstn_firstn in D. simpl in D.
    replace (Nat.min k (Init.Nat.pred (List.length (state_file settings))))
      with k in D by lia.
    apply D. lia.
  - intros q n L. eapply mkdir_below_keeps; eauto.
Qed.

(** The statement of X22 at settings with an interval of 60 seconds on an
    empty file system. *)
Lemma get_settings_prepares_witness :
  exists settings cache fs1,
    Startup.get_settings
      (Startup.Settings_init (lit "xoxb-token") (lit "C0123") (lit "owner/repo")
         (lit "ghp-token") None (Some 60%Z)) None FS.empty
    = (Ok settings, cache, fs1)
    /\ (30 <= poll_interval_seconds settings)%Z
    /\ (forall k, (0 < k < List.length (state_file settings))%nat ->
          FS.lookup fs1 (firstn k (state_file settings)) = Some FS.Dir)
    /\ (forall q n, FS.lookup FS.empty q = Some n -> FS.lookup fs1 q = Some n)
    /\ forall built, Startup.get_settings built cache fs1 = (Ok settings, cache, fs1).
Proof.
  eexists. eexists. eexists. split; [vm_compute; reflexivity |].
  eapply (@get_settings_prepares (lit "xoxb-token") (lit "C0123") (lit "owner/repo")
            (lit "ghp-token") None (Some 60%Z) FS.empty).
  vm_compute. reflexivity.
Defined.

(* ================================================================== *)
(** * The issue formatter on the commands of a pass (C4) *)

(** C4, amended. The formatter touches nothing, and on the messages that a
    pass hands to it, those whose stripped text starts with "/codex", its
    outcome hangs on the marker alone. When [time.gmtime] takes the float
    of the marker, the formatter returns, and the title is the first line
    of the stripped text cut to 80 code points; that line is never empty,
    so the fallback title is never used. When [time.gmtime] does not take
    it, the formatter raises the exception of [time.gmtime]. *)
Theorem format_issue_of_command (message : dict) channel s x :
  get_default message (lit "text") (JStr []) = JStr s ->
  startswith (strip s) command_prefix = true ->
  ts_key (JDict message) = Ok x ->
  match gmtime_seconds x with
  | Ok _ =>
      exists line rest body,
        splitlines (strip s) = line :: rest
        /\ line <> []
        /\ _format_issue (JDict message) channel = Ok (firstn 80 line, body)
        /\ firstn 80 line <> fallback_title
  | Raise e => _format_issue (JDict message) channel = Raise e
  end.
Proof.
  intros Ht Hp Hk. unfold ts_key in Hk. unfold _format_issue.
  cbn [any_get bind] in *. rewrite Ht. cbn [bind any_strip]. rewrite Hk.
  cbn [bind].
  destruct (gmtime_seconds x) as [t | e]; cbn [bind]; [| reflexivity].
  destruct (startswith_inv _ _ Hp) as (u & Hu).
  assert (Hc : exists c r, strip s = c :: r).
  { rewrite Hu. unfold command_prefix. vm_compute lit. simpl. eauto. }
  destruct Hc as (c & r & Hc).
  destruct (first_line_of_stripped _ Hc) as (line & rest & Hl & Hne).
  exists line, rest. rewrite Hl. cbn [nth_error bind].
  destruct line as [| a line]; [contradiction |].
  unfold slice_to. cbn [firstn]. eexists. repeat split; [discriminate |].
  (* the first code point of the title is the slash of the command *)
  unfold splitlines in Hl. rewrite Hu in Hl. unfold command_prefix in Hl.
  vm_compute lit in Hl.
  cbn [app splitlines_from N.eqb Pos.eqb islinebreak orb] in Hl.
  apply splitlines_from_first in Hl. destruct Hl as (y & tail & Hy & _ & _).
  simpl in Hy. inversion Hy; subst a. unfold fallback_title. vm_compute lit.
  discriminate.
Qed.

(** The statement of C4, amended, at a command with a marker of these
    days. *)
Lemma format_issue_of_command_witness :
  exists line rest body,
    splitlines (strip (lit "/codex fix the build")) = line :: rest
    /\ line <> []
    /\ _format_issue (Example.message "1000.500000" "/codex fix the build")
         (lit "C0123") = Ok (firstn 80 line, body)
    /\ firstn 80 line <> fallback_title.
Proof.
  apply (@format_issue_of_command
           [(lit "ts", JStr (lit "1000.500000"));
            (lit "text", JStr (lit "/codex fix the build"));
            (lit "user", JStr (lit "U42"))]
           (lit "C0123") (lit "/codex fix the build")
           (S754_finite false 8800491068719104 (-43))).
  - vm_compute. reflexivity.
  - vm_compute. reflexivity.
  - vm_compute. reflexivity.
Defined.

(** C4, against the claim as it stands. The formatter has a failure mode
    that a pass meets: a command whose marker lies beyond the years of
    [time.gmtime] comes through the fetch, the formatter raises
    OverflowError on it, and the pass ends with that exception before any
    request is sent. *)
Lemma far_marker_stops_formatter :
  _format_issue (Example.message "1e30" "/codex fix the build") (lit "C0123")
  = Raise OverflowError
  /\ exists w',
       run_sync Example.settings
         (Example.world_of (Example.disk "{'last_ts': '1000.000000'}")
            [Example.page [Example.message "1e30" "/codex fix the build"]]
            [GithubStatus 201]) = Some (Raise OverflowError, w')
       /\ posted w' = [].
Proof.
  split; [vm_compute; reflexivity |].
  eexists. split; vm_compute; reflexivity.
Qed.

(* ================================================================== *)
(** * A stop of the process while the cursor is saved (C8) *)


Lemma mkdir_below_above todo : forall fs done fs1 q,
  FS.mkdir_below fs done todo = Ok fs1 ->
  (List.length done + List.length todo < List.length q)%nat ->
  FS.lookup fs1 q = FS.lookup fs q.
Proof.
  induction todo as [| c r IH]; intros fs done fs1 q H L; simpl in H.
  - inversion H; reflexivity.
  - assert (Ld : List.length (done ++ [c]) = S (List.length done))
      by (rewrite length_app; simpl; lia).
    simpl in L.
    destruct (FS.lookup fs (done ++ [c])) as [[t |] |] eqn:E.
    + discriminate.
    + apply (IH fs (done ++ [c])); [exact H | lia].
    + rewrite (IH _ (done ++ [c]) _ _ H) by lia.
      apply lookup_update_other. intro F. subst q. lia.
Qed.




(* ================================================================== *)
(** * The order of the fetched messages (C7) *)

Lemma filter_comm (A : Type) (f g : A -> bool) l :
  filter f (filter g l) = filter g (filter f l).
Proof.
  induction l as [| x l IH]; [reflexivity |]. simpl.
  destruct (g x) eqn:G, (f x) eqn:F; simpl; rewrite ?G, ?F, IH; reflexivity.
Qed.

(** C7, amended. When no message of the pages has a marker whose float is
    NaN, what [_fetch_new_messages] returns is in ascending order of the
    floats of the markers, holds only messages whose marker is strictly
    greater than the cursor, holds every such message of the pages, and
    keeps messages of equal markers in the order in which the backend gave
    them. *)
Theorem fetch_sorted_without_nan token channel oldest w result w' gathered :
  _fetch_new_messages token channel oldest w = Some (Ok result, w') ->
  fetch_pages channel oldest JNull [] (slack w) (history_log w)
  = Some (Ok gathered, slack w', history_log w') ->
  Forall (fun m => ts_key m <> Ok PyFloat.nan) gathered ->
  (exists ks, keyed result = Ok ks /\ ascending ks)
  /\ Forall (fun m => newer oldest m = true) result
  /\ (forall m, In m gathered -> newer oldest m = true -> In m result)
  /\ (forall k, PyFloat.is_nan k = false ->
        filter (has_key k) result
        = filter (has_key k) (filter (newer oldest) gathered)).
Proof.
  unfold _fetch_new_messages.
  destruct (fetch_pages channel oldest JNull [] (slack w) (history_log w))
    as [[[r rest] log] |]; [| discriminate].
  intros H G N. inversion G; subst r. clear G.
  inversion H as [[Hr Hw]]. clear H. cbn [bind] in Hr.
  destruct (sort_by_ts gathered) as [sorted |] eqn:S; [| discriminate].
  cbn [bind] in Hr. apply newer_than_filter in Hr. subst result.
  unfold sort_by_ts in S. destruct (keyed gathered) as [kl |] eqn:K; [| discriminate].
  cbn [bind] in S. inversion S; subst sorted. clear S.
  pose proof (keyed_keys _ K) as Kk.
  pose proof (keyed_not_nan K N) as Kn.
  repeat split.
  - rewrite filter_map_newer.
    exists (filter (fun x => newer oldest (snd x)) (sort_keyed kl)). split.
    + apply keyed_of_keys. apply Forall_forall. intros x Hx.
      apply filter_In in Hx. destruct Hx as [Hx _].
      pose proof (sort_keyed_forall Kk) as Q.
      rewrite Forall_forall in Q. apply Q. exact Hx.
    + apply filter_ascending. apply sort_keyed_ascending. exact Kn.
  - apply Forall_forall. intros m Hm. apply filter_In in Hm. tauto.
  - intros m Hm Hn. apply filter_In. split; [| exact Hn].
    rewrite <- (keyed_map _ K) in Hm.
    eapply Permutation_in; [| exact Hm].
    apply Permutation_map. apply sort_keyed_perm.
  - intros k Nk. rewrite filter_comm.
    rewrite (@filter_map_snd k (sort_keyed kl))
      by (apply sort_keyed_forall; exact Kk).
    rewrite filter_sort_keyed by assumption.
    rewrite <- (@filter_map_snd k kl) by exact Kk.
    rewrite (keyed_map _ K). apply filter_comm.
Qed.

(** The statement of C7, amended, at a page of three messages, two of
    them of one marker, that come newest first. *)
Lemma fetch_sorted_without_nan_witness :
  exists result w',
    _fetch_new_messages (lit "xoxb-token") (lit "C0123") (JStr (lit "1000.000000"))
      (Example.world_of Example.dirs
         [Example.page [Example.message "1000.700000" "/codex deploy";
                        Example.message "1000.500000" "/codex first";
                        Example.message "1000.500000" "/codex second"]] [])
    = Some (Ok result, w')
    /\ (exists ks, keyed result = Ok ks /\ ascending ks)
    /\ Forall (fun m => newer (JStr (lit "1000.000000")) m = true) result
    /\ (forall m,
          In m [Example.message "1000.700000" "/codex deploy";
                Example.message "1000.500000" "/codex first";
                Example.message "1000.500000" "/codex second"] ->
          newer (JStr (lit "1000.000000")) m = true -> In m result)
    /\ (forall k, PyFloat.is_nan k = false ->
          filter (has_key k) result
          = filter (has_key k)
              (filter (newer (JStr (lit "1000.000000")))
                 [Example.message "1000.700000" "/codex deploy";
                  Example.message "1000.500000" "/codex first";
                  Example.message "1000.500000" "/codex second"])).
Proof.
  eexists. eexists. split; [vm_compute; reflexivity |].
  eapply (@fetch_sorted_without_nan (lit "xoxb-token") (lit "C0123")
            (JStr (lit "1000.000000"))
            (Example.world_of Example.dirs
               [Example.page [Example.message "1000.700000" "/codex deploy";
                              Example.message "1000.500000" "/codex first";
                              Example.message "1000.500000" "/codex second"]] [])).
  - vm_compute. reflexivity.
  - vm_compute. reflexivity.
  - repeat constructor; vm_compute; discriminate.
Defined.

(** C7, against the claim as it stands. A message whose marker is "nan"
    is never returned, but it can leave the others out of order: of a
    page with the markers 1000.7, nan and 1000.5 the fetch returns the
    message of 1000.7 before the message of 1000.5. Neither "nan < 1000.7"
    nor "1000.5 < nan" holds, so CPython's sort takes the three keys for a
    run in order and leaves them as they stand, as the sort here does. *)
Lemma nan_marker_breaks_order :
  exists w' later earlier,
    _fetch_new_messages (lit "xoxb-token") (lit "C0123") (JStr (lit "1000.000000"))
      (Example.world_of Example.dirs
         [Example.page [Example.message "1000.700000" "/codex deploy";
                        Example.message "nan" "/codex lost";
                        Example.message "1000.500000" "/codex fix the build"]] [])
    = Some (Ok [Example.message "1000.700000" "/codex deploy";
                Example.message "1000.500000" "/codex fix the build"], w')
    /\ ts_key (Example.message "1000.700000" "/codex deploy") = Ok later
    /\ ts_key (Example.message "1000.500000" "/codex fix the build") = Ok earlier
    /\ PyFloat.ltb earlier later = true.
Proof.
  eexists. eexists. eexists. repeat split; vm_compute; reflexivity.
Qed.

(* ================================================================== *)
(** * The cursor from one pass to the next (C1, C9) *)

(** C1, amended. A pass that returns and has created no issue has not
    written to the file system: the cursor file is as it was. A pass that
    returns and has created an issue leaves in the cursor file the
    six-decimal text of a marker that, as a float, is not below the float
    of the cursor that the pass loaded. It is the float that does not go
    back; the text is rounded to six decimals. *)
Theorem pass_cursor_progress settings w stats w' :
  run_sync settings w = Some (Ok stats, w') ->
  exists oldest o,
    loaded_cursor settings w = Some (Ok oldest, w)
    /\ to_float oldest = Ok o
    /\ (created_issues stats = 0%nat -> fs w' = fs w)
    /\ ((0 < created_issues stats)%nat ->
        FS.lookup (fs w') (state_file settings)
        = Some (FS.File
                  (JsonText.dumps
                     [(lit "last_ts", PyFloat.fmt6 (last_timestamp stats))]
                   ++ [10%N]))
        /\ PyFloat.ltb (last_timestamp stats) o = false
        /\ (PyFloat.is_nan o = false ->
            PyFloat.leb o (last_timestamp stats) = true)).
Proof.
  intro H. apply run_sync_returns in H.
  destruct H as (oldest & o & messages & w1 & w2 & Hl & Ho & Hf & Hp & _ & Hs).
  exists oldest, o. split; [exact Hl |]. split; [exact Ho |].
  destruct (fetch_trace _ _ _ _ Hf) as (F1 & _ & _).
  destruct (process_messages_trace _ _ _ _ _ Hp) as (F2 & _).
  destruct (process_messages_marker _ _ _ _ _ Hp) as (L & N & _).
  split.
  - intro Z. rewrite Z in Hs. simpl in Hs. subst w'. congruence.
  - intro C. apply Nat.ltb_lt in C. rewrite C in Hs.
    destruct (saved_cursor_loads _ _ _ Hs) as (K & _).
    split; [exact K |]. split; [exact L |].
    intro No. rewrite leb_not_ltb by auto. rewrite L. reflexivity.
Qed.

(** The statement of C1, amended, at a pass over one command. *)
Lemma pass_cursor_progress_witness :
  exists stats w',
    run_sync Example.settings
      (Example.world_of (Example.disk "{'last_ts': '1000.000000'}")
         [Example.page [Example.message "1000.500000" "/codex fix the build"]]
         [GithubStatus 201]) = Some (Ok stats, w')
    /\ exists oldest o,
         loaded_cursor Example.settings
           (Example.world_of (Example.disk "{'last_ts': '1000.000000'}")
              [Example.page [Example.message "1000.500000" "/codex fix the build"]]
              [GithubStatus 201])
         = Some (Ok oldest,
                 Example.world_of (Example.disk "{'last_ts': '1000.000000'}")
                   [Example.page
                      [Example.message "1000.500000" "/codex fix the build"]]
                   [GithubStatus 201])
         /\ to_float oldest = Ok o
         /\ (created_issues stats = 0%nat
             -> fs w' = Example.disk "{'last_ts': '1000.000000'}")
         /\ ((0 < created_issues stats)%nat ->
             FS.lookup (fs w') (state_file Example.settings)
             = Some (FS.File
                       (JsonText.dumps
                          [(lit "last_ts", PyFloat.fmt6 (last_timestamp stats))]
                        ++ [10%N]))
             /\ PyFloat.ltb (last_timestamp stats) o = false
             /\ (PyFloat.is_nan o = false ->
                 PyFloat.leb o (last_timestamp stats) = true)).
Proof.
  eexists. eexists. split; [vm_compute; reflexivity |].
  eapply (@pass_cursor_progress Example.settings
            (Example.world_of (Example.disk "{'last_ts': '1000.000000'}")
               [Example.page [Example.message "1000.500000" "/codex fix the build"]]
               [GithubStatus 201])).
  vm_compute. reflexivity.
Defined.

(** C1, against the claim as it stands. The cursor that is persisted can
    be below the cursor that was loaded: from the cursor "0.0000004" a
    pass over a command with the marker "0.00000045" returns, having
    created an issue, and leaves the cursor "0.000000". *)
Lemma rounded_cursor_goes_back :
  exists stats w' loaded persisted,
    run_sync Example.settings
      (Example.world_of (Example.disk "{'last_ts': '0.0000004'}")
         [Example.page [Example.message "0.00000045" "/codex fix the build"]]
         [GithubStatus 201]) = Some (Ok stats, w')
    /\ created_issues stats = 1%nat
    /\ loaded_cursor Example.settings w' = Some (Ok (JStr (lit "0.000000")), w')
    /\ to_float (JStr (lit "0.0000004")) = Ok loaded
    /\ to_float (JStr (lit "0.000000")) = Ok persisted
    /\ PyFloat.ltb persisted loaded = true.
Proof.
  eexists. eexists. eexists. eexists.
  split; [vm_compute; reflexivity |].
  repeat split; vm_compute; reflexivity.
Qed.

(** C9, amended. The marker that a pass persists is always the text that
    ["%.6f"] gives for the float marker of the pass; when the float of the
    cursor that the pass loaded is finite, that text is an optional minus
    sign, at least one digit, a point and exactly six digits. *)
Theorem persisted_marker_six_digits settings w stats w' oldest o :
  run_sync settings w = Some (Ok stats, w') ->
  (0 < created_issues stats)%nat ->
  loaded_cursor settings w = Some (Ok oldest, w) ->
  to_float oldest = Ok o ->
  PyFloat.is_finite o = true ->
  exists neg whole fraction,
    FS.lookup (fs w') (state_file settings)
    = Some (FS.File
              (JsonText.dumps
                 [(lit "last_ts",
                   PyFloat.sign_str neg ++ whole ++ [46%N] ++ fraction)]
               ++ [10%N]))
    /\ PyFloat.fmt6 (last_timestamp stats)
       = PyFloat.sign_str neg ++ whole ++ [46%N] ++ fraction
    /\ whole <> [] /\ forallb isdigit whole = true
    /\ List.length fraction = 6%nat /\ forallb isdigit fraction = true.
Proof.
  intros H C Hl Ho Fo. apply run_sync_returns in H.
  destruct H as (oldest' & o' & messages & w1 & w2 & Hl' & Ho' & _ & Hp & _ & Hs).
  rewrite Hl in Hl'. inversion Hl'; subst oldest'.
  rewrite Ho in Ho'. inversion Ho'; subst o'.
  destruct (process_messages_marker _ _ _ _ _ Hp) as (_ & _ & F).
  specialize (F Fo).
  apply Nat.ltb_lt in C. rewrite C in Hs.
  destruct (saved_cursor_loads _ _ _ Hs) as (K & _).
  destruct (last_timestamp stats) as [s | s | | s m e]; try discriminate.
  - exists s, (lit "0"), (lit "000000"). repeat split; [exact K | discriminate].
  - exists s, (of_N (Z.to_N (PyFloat.scaled6 m e) / 1000000)),
      (PyFloat.six_digits (Z.to_N (PyFloat.scaled6 m e) mod 1000000)).
    repeat split.
    + exact K.
    + apply of_N_nonempty.
    + apply of_uint_digits.
    + apply six_digits_digits.
Qed.

(** The statement of C9, amended, at a pass over one command. *)
Lemma persisted_marker_six_digits_witness :
  exists stats w',
    run_sync Example.settings
      (Example.world_of (Example.disk "{'last_ts': '1000.000000'}")
         [Example.page [Example.message "1000.500000" "/codex fix the build"]]
         [GithubStatus 201]) = Some (Ok stats, w')
    /\ exists neg whole fraction,
         FS.lookup (fs w') (state_file Example.settings)
         = Some (FS.File
                   (JsonText.dumps
                      [(lit "last_ts",
                        PyFloat.sign_str neg ++ whole ++ [46%N] ++ fraction)]
                    ++ [10%N]))
         /\ PyFloat.fmt6 (last_timestamp stats)
            = PyFloat.sign_str neg ++ whole ++ [46%N] ++ fraction
         /\ whole <> [] /\ forallb isdigit whole = true
         /\ List.length fraction = 6%nat /\ forallb isdigit fraction = true.
Proof.
  eexists. eexists. split; [vm_compute; reflexivity |].
  eapply (@persisted_marker_six_digits Example.settings
            (Example.world_of (Example.disk "{'last_ts': '1000.000000'}")
               [Example.page [Example.message "1000.500000" "/codex fix the build"]]
               [GithubStatus 201])).
  - vm_compute. reflexivity.
  - vm_compute. lia.
  - vm_compute. reflexivity.
  - vm_compute. reflexivity.
  - vm_compute. reflexivity.
Defined.

(** C9, against the claim as it stands. A persisted marker need not have
    six digits after a point: from the cursor "-inf" a pass over a
    command that has no marker returns, having created an issue, and
    leaves the cursor "-inf". *)
Lemma infinite_cursor_is_persisted :
  exists stats w',
    run_sync Example.settings
      (Example.world_of (Example.disk "{'last_ts': '-inf'}")
         [Example.page [JDict [(lit "text", JStr (lit "/codex fix the build"));
                               (lit "user", JStr (lit "U42"))]]]
         [GithubStatus 201]) = Some (Ok stats, w')
    /\ created_issues stats = 1%nat
    /\ PyFloat.fmt6 (last_timestamp stats) = lit "-inf"
    /\ loaded_cursor Example.settings w' = Some (Ok (JStr (lit "-inf")), w').
Proof.
  eexists. eexists. split; [vm_compute; reflexivity |].
  repeat split; vm_compute; reflexivity.
Qed.
